(** * Lifecycle worker of the bot hosting platform (worker.js)

    A shallow embedding of the background worker: the two in-memory
    registries ([BotManager.runningBots], [WebsiteManager.deployedWebsites]),
    the start / stop / restart operations, the health-check and
    deployment-status sweeps, the SIGTERM / SIGINT handlers, the daily
    backup task, the [WorkerAPI] wrappers and the restoration at start-up,
    followed by the properties of the lifecycle specification and by what
    else the code keeps: invariants of the registries and the tables,
    round trips, and how the operations compose.

    Conventions of the model.
    - A JS [Map] is an insertion-ordered association list with unique keys.
    - The SQL tables [bots] and [websites] are lists of rows; only the
      columns the worker reads or writes are kept.
    - An [async] function is a tree of atomic world accesses separated by
      [Yield] nodes, one per [await].  [run] executes a call to completion
      with nothing in between; [segment] executes up to the next [await]
      and is what the interleaving semantics at the end is built from.
    - What the worker cannot decide itself is read from the world: whether
      the n-th statement sent to the database fails ([db_fault]), the n-th
      value of [Math.random()] ([random]) and the wall clock ([clock]).
    - [console.log] / [console.error] output is not modelled, nor is the
      session cleanup task, whose table nothing else in the worker reads
      or writes. *)

From Stdlib Require Import ZArith QArith Qround Lia Ascii.
From stdpp Require Import base option list strings pretty sorting.

Local Open Scope Z_scope.
Local Open Scope string_scope.

(** ** Data *)

(** The in-memory handle built by [startBot]. *)
Record botProcess := BotProcess {
  bp_id : Z;
  bp_startTime : Z;
  bp_status : string;
  bp_pid : Z
}.

(** The in-memory handle built by [deployWebsite]. *)
Record deployment := Deployment {
  dep_id : Z;
  dep_domain : string;
  dep_deployTime : Z;
  dep_status : string;
  dep_url : string
}.

(** The third argument of [startBot]: the [config] column of a row (TEXT,
    possibly NULL) or the object literal [{}] passed by [healthCheck]. *)
Inductive botConfig :=
| ConfigColumn (text : option string)
| ConfigEmptyObject.

(** A row of table [bots]. *)
Record botRow := BotRow {
  bot_id : Z;
  bot_file_path : string;
  bot_status : string;
  bot_config : option string;
  bot_updated_at : Z
}.

(** A row of table [websites]. *)
Record websiteRow := WebsiteRow {
  website_id : Z;
  website_domain : option string;
  website_file_path : string;
  website_status : string;
  website_updated_at : Z
}.

(** What a rejected promise or a [throw] carries. *)
Inductive Error :=
| DbError (statement : nat)
| FsError (path : string).

(** ** JS [Map] as an insertion-ordered association list *)

Module JsMap.

Definition t (V : Type) := list (Z * V).

Definition get {V} (k : Z) (m : t V) : option V :=
  snd <$> List.find (fun e => Z.eqb (fst e) k) m.

Definition has {V} (k : Z) (m : t V) : bool :=
  existsb (fun e => Z.eqb (fst e) k) m.

(** [set] overwrites in place when the key is present and appends
    otherwise, as the insertion order of a JS Map requires. *)
Fixpoint set {V} (k : Z) (v : V) (m : t V) : t V :=
  match m with
  | [] => [(k, v)]
  | e :: m' => if Z.eqb (fst e) k then (k, v) :: m' else e :: set k v m'
  end.

Definition delete {V} (k : Z) (m : t V) : t V :=
  List.filter (fun e => negb (Z.eqb (fst e) k)) m.

Definition values {V} (m : t V) : list V := List.map snd m.

Definition keys {V} (m : t V) : list Z := List.map fst m.

(** Number of entries stored under [k]. *)
Definition count {V} (k : Z) (m : t V) : nat :=
  length (List.filter (fun e => Z.eqb (fst e) k) m).

(** Keys are unique: every map built from [[]] by [set] and [delete]. *)
Definition wf {V} (m : t V) : Prop := NoDup (keys m).

End JsMap.

(** ** The world the worker runs in *)

Record World := mkWorld {
  runningBots : JsMap.t botProcess;
  deployedWebsites : JsMap.t deployment;
  bots : list botRow;
  websites : list websiteRow;
  clock : Z;
  db_fault : nat -> bool;
  db_calls : nat;
  random : nat -> Q;
  random_calls : nat
}.

Definition with_runningBots (m : JsMap.t botProcess) (w : World) : World :=
  mkWorld m (deployedWebsites w) (bots w) (websites w) (clock w)
          (db_fault w) (db_calls w) (random w) (random_calls w).

Definition with_deployedWebsites (m : JsMap.t deployment) (w : World) : World :=
  mkWorld (runningBots w) m (bots w) (websites w) (clock w)
          (db_fault w) (db_calls w) (random w) (random_calls w).

Definition with_bots (t : list botRow) (w : World) : World :=
  mkWorld (runningBots w) (deployedWebsites w) t (websites w) (clock w)
          (db_fault w) (db_calls w) (random w) (random_calls w).

Definition with_websites (t : list websiteRow) (w : World) : World :=
  mkWorld (runningBots w) (deployedWebsites w) (bots w) t (clock w)
          (db_fault w) (db_calls w) (random w) (random_calls w).

Definition with_clock (c : Z) (w : World) : World :=
  mkWorld (runningBots w) (deployedWebsites w) (bots w) (websites w) c
          (db_fault w) (db_calls w) (random w) (random_calls w).

Definition next_db_call (w : World) : World :=
  mkWorld (runningBots w) (deployedWebsites w) (bots w) (websites w) (clock w)
          (db_fault w) (S (db_calls w)) (random w) (random_calls w).

Definition next_random (w : World) : World :=
  mkWorld (runningBots w) (deployedWebsites w) (bots w) (websites w) (clock w)
          (db_fault w) (db_calls w) (random w) (S (random_calls w)).

(** ** Asynchronous computations *)

Inductive outcome (A : Type) :=
| Returned (a : A)
| Thrown (e : Error).
Arguments Returned {A} a.
Arguments Thrown {A} e.

(** [Act f k]: in world [w], continue as [k w] in world [f w], atomically.
    [Yield k]: an [await]; [k] runs in a later turn of the event loop. *)
Inductive Async (A : Type) :=
| Ret (o : outcome A)
| Act (f : World -> World) (k : World -> Async A)
| Yield (k : Async A).
Arguments Ret {A} o.
Arguments Act {A} f k.
Arguments Yield {A} k.

Fixpoint bind {A B} (m : Async A) (g : A -> Async B) : Async B :=
  match m with
  | Ret (Returned a) => g a
  | Ret (Thrown e) => Ret (Thrown e)
  | Act f k => Act f (fun w => bind (k w) g)
  | Yield k => Yield (bind k g)
  end.

(** [try { m } catch (error) { h error }] *)
Fixpoint try_catch {A} (m : Async A) (h : Error -> Async A) : Async A :=
  match m with
  | Ret (Returned a) => Ret (Returned a)
  | Ret (Thrown e) => h e
  | Act f k => Act f (fun w => try_catch (k w) h)
  | Yield k => Yield (try_catch k h)
  end.

(** [await m] for a call [m] of an async function: the call runs, and the
    caller resumes one turn after its promise has settled. *)
Fixpoint await {A} (m : Async A) : Async A :=
  match m with
  | Ret o => Yield (Ret o)
  | Act f k => Act f (fun w => await (k w))
  | Yield k => Yield (await k)
  end.

#[global] Instance Async_ret : MRet Async := fun A a => Ret (Returned a).
#[global] Instance Async_bind : MBind Async := fun A B g m => bind m g.

Definition throw {A} (e : Error) : Async A := Ret (Thrown e).

(** Read the world. *)
Definition ask {X} (g : World -> X) : Async X :=
  Act (fun w => w) (fun w => Ret (Returned (g w))).

(** Change the world. *)
Definition tell (f : World -> World) : Async unit :=
  Act f (fun _ => Ret (Returned tt)).

(** [for (const x of l) { body x }] *)
Fixpoint for_of {X} (l : list X) (body : X -> Async unit) : Async unit :=
  match l with
  | [] => mret tt
  | x :: l' => body x ≫= fun _ => for_of l' body
  end.

(** Run to completion, nothing interleaved. *)
Fixpoint run {A} (m : Async A) (w : World) : World * outcome A :=
  match m with
  | Ret o => (w, o)
  | Act f k => run (k w) (f w)
  | Yield k => run k w
  end.

(** Run up to the next [await]. *)
Inductive progress (A : Type) :=
| Finished (o : outcome A)
| Suspended (k : Async A).
Arguments Finished {A} o.
Arguments Suspended {A} k.

Fixpoint segment {A} (m : Async A) (w : World) : World * progress A :=
  match m with
  | Ret o => (w, Finished o)
  | Act f k => segment (k w) (f w)
  | Yield k => (w, Suspended k)
  end.

(** ** Runtime primitives *)

(** [new Date()] and [Date.now()]: milliseconds on the wall clock. *)
Definition new_Date : Async Z := ask clock.
Definition Date_now : Async Z := ask clock.

(** [Math.random()]: the next value of the random source, in [0, 1). *)
Definition Math_random : Async Q :=
  Act next_random (fun w => Ret (Returned (random w (random_calls w)))).

Definition Math_floor (x : Q) : Z := Qfloor x.

(** [x < y] on numbers. *)
Definition js_lt (x y : Q) : bool := negb (Qle_bool y x).

(** [new Promise(resolve => setTimeout(resolve, ms))]: settles in a later
    turn, not before [ms] milliseconds have passed since the call. *)
Definition setTimeout_promise (ms : Z) : Async unit :=
  Act (fun w => w) (fun w0 =>
    Yield (tell (fun w => with_clock (Z.max (clock w) (clock w0 + ms)) w))).

(** [a || b] on a nullable string: [null] and [""] are falsy. *)
Definition js_or (a : option string) (b : string) : string :=
  match a with
  | Some s => if decide (s = "") then b else s
  | None => b
  end.

(** ** The two UPDATE statements *)

(** [UPDATE bots SET status = ?, updated_at = CURRENT_TIMESTAMP WHERE id = ?] *)
Definition sql_update_bot (status : string) (botId : Z) (now : Z)
    (t : list botRow) : list botRow :=
  List.map (fun r =>
    if Z.eqb (bot_id r) botId
    then BotRow (bot_id r) (bot_file_path r) status (bot_config r) now
    else r) t.

Definition sql_changes_bot (botId : Z) (t : list botRow) : nat :=
  length (List.filter (fun r => Z.eqb (bot_id r) botId) t).

(** [UPDATE websites SET status = ?, updated_at = CURRENT_TIMESTAMP WHERE id = ?] *)
Definition sql_update_website (status : string) (websiteId : Z) (now : Z)
    (t : list websiteRow) : list websiteRow :=
  List.map (fun r =>
    if Z.eqb (website_id r) websiteId
    then WebsiteRow (website_id r) (website_domain r) (website_file_path r)
                    status now
    else r) t.

Definition sql_changes_website (websiteId : Z) (t : list websiteRow) : nat :=
  length (List.filter (fun r => Z.eqb (website_id r) websiteId) t).

(** [SELECT * FROM bots WHERE status = "running"] and its sibling. *)
Definition sql_select_bots (status : string) (t : list botRow) : list botRow :=
  List.filter (fun r => String.eqb (bot_status r) status) t.

Definition sql_select_websites (status : string) (t : list websiteRow)
    : list websiteRow :=
  List.filter (fun r => String.eqb (website_status r) status) t.

(** [db.run(sql, params, callback)] wrapped in a promise: the statement is
    executed in a later turn; it either fails, leaving the table as it
    was, and the promise rejects, or it is applied and the promise
    resolves to the number of changed rows. *)
Definition db_run (apply : World -> World) (changes : World -> nat)
    : Async nat :=
  Yield (Act (fun w => if db_fault w (db_calls w)
                       then next_db_call w
                       else next_db_call (apply w))
             (fun w => if db_fault w (db_calls w)
                       then throw (DbError (db_calls w))
                       else mret (changes w))).

(** [db.all(sql, callback)]: the callback receives [(err, rows)] in a
    later turn, here as [inl err] or [inr rows]. *)
Definition db_all {R} (select : World -> list R)
    (callback : Error + list R -> Async unit) : Async unit :=
  Yield (Act next_db_call
             (fun w => if db_fault w (db_calls w)
                       then callback (inl (DbError (db_calls w)))
                       else callback (inr (select w)))).

(** ** class BotManager *)

Definition updateBotStatus (botId : Z) (status : string) : Async nat :=
  db_run (fun w => with_bots (sql_update_bot status botId (clock w) (bots w)) w)
         (fun w => sql_changes_bot botId (bots w)).

Definition startBot (botId : Z) (botPath : string) (config : botConfig)
    : Async bool :=
  try_catch
    (has ← ask (fun w => JsMap.has botId (runningBots w));
     if has : bool then mret false
     else
       startTime ← new_Date;
       r ← Math_random;
       let botProcess :=
         BotProcess botId startTime "running" (Math_floor (r * 10000)) in
       tell (fun w => with_runningBots
                        (JsMap.set botId botProcess (runningBots w)) w);;
       await (updateBotStatus botId "running");;
       mret true)
    (fun error =>
       await (updateBotStatus botId "error");;
       mret false).

Definition stopBot (botId : Z) : Async bool :=
  try_catch
    (botProcess ← ask (fun w => JsMap.get botId (runningBots w));
     match botProcess with
     | None => mret false
     | Some _ =>
       tell (fun w => with_runningBots
                        (JsMap.delete botId (runningBots w)) w);;
       await (updateBotStatus botId "stopped");;
       mret true
     end)
    (fun error => mret false).

Definition restartBot (botId : Z) (botPath : string) (config : botConfig)
    : Async bool :=
  await (stopBot botId);;
  await (setTimeout_promise 2000);;
  await (startBot botId botPath config).

Definition getRunningBots : Async (list botProcess) :=
  ask (fun w => JsMap.values (runningBots w)).

Definition healthCheck : Async unit :=
  runningBots ← getRunningBots;
  for_of runningBots (fun bot =>
    try_catch
      (now ← Date_now;
       let uptime := now - bp_startTime bot in
       r ← Math_random;
       if js_lt r (1 # 100)
       then await (restartBot (bp_id bot) "" ConfigEmptyObject);; mret tt
       else mret tt)
      (fun error => await (stopBot (bp_id bot));; mret tt)).

(** ** class WebsiteManager *)

Definition updateWebsiteStatus (websiteId : Z) (status : string) : Async nat :=
  db_run (fun w => with_websites
                     (sql_update_website status websiteId (clock w) (websites w)) w)
         (fun w => sql_changes_website websiteId (websites w)).

(** Returns the deployment object, or [false] (here [None]). *)
Definition deployWebsite (websiteId : Z) (websitePath : string)
    (domain : option string) : Async (option deployment) :=
  try_catch
    (has ← ask (fun w => JsMap.has websiteId (deployedWebsites w));
     if has : bool then mret None
     else
       let host := js_or domain (pretty websiteId +:+ ".localhost") in
       deployTime ← new_Date;
       let deployment :=
         Deployment websiteId host deployTime "active" ("https://" +:+ host) in
       tell (fun w => with_deployedWebsites
                        (JsMap.set websiteId deployment (deployedWebsites w)) w);;
       await (updateWebsiteStatus websiteId "active");;
       mret (Some deployment))
    (fun error =>
       await (updateWebsiteStatus websiteId "error");;
       mret None).

Definition undeployWebsite (websiteId : Z) : Async bool :=
  try_catch
    (deployment ← ask (fun w => JsMap.get websiteId (deployedWebsites w));
     match deployment with
     | None => mret false
     | Some _ =>
       tell (fun w => with_deployedWebsites
                        (JsMap.delete websiteId (deployedWebsites w)) w);;
       await (updateWebsiteStatus websiteId "inactive");;
       mret true
     end)
    (fun error => mret false).

Definition getDeployedWebsites : Async (list deployment) :=
  ask (fun w => JsMap.values (deployedWebsites w)).

(** ** Scheduled sweeps *)

(** Body of the loop over the selected bots in the deployment status
    check. *)
Definition heal_bot (bot : botRow) : Async unit :=
  has ← ask (fun w => JsMap.has (bot_id bot) (runningBots w));
  if negb has
  then await (startBot (bot_id bot) (bot_file_path bot)
                       (ConfigColumn (bot_config bot)));; mret tt
  else mret tt.

(** Callback of [db.all('SELECT * FROM bots WHERE status = "running"', ...)]
    in the deployment status check. *)
Definition checkRunningBots : Async unit :=
  db_all (fun w => sql_select_bots "running" (bots w)) (fun res =>
    match res with
    | inl err => mret tt
    | inr bots => for_of bots heal_bot
    end).

(** Body of the loop over the selected websites. *)
Definition heal_website (website : websiteRow) : Async unit :=
  has ← ask (fun w => JsMap.has (website_id website) (deployedWebsites w));
  if negb has
  then await (deployWebsite (website_id website) (website_file_path website)
                            (website_domain website));; mret tt
  else mret tt.

(** Callback of [db.all('SELECT * FROM websites WHERE status = "active"', ...)]. *)
Definition checkActiveWebsites : Async unit :=
  db_all (fun w => sql_select_websites "active" (websites w)) (fun res =>
    match res with
    | inl err => mret tt
    | inr websites => for_of websites heal_website
    end).

(** [cron.schedule('*/5 * * * *', ...)]: bot health checks. *)
Definition cron_health_check : Async unit :=
  await healthCheck;; mret tt.

(** [cron.schedule('*/10 * * * *', ...)]: the deployment status check hands
    two callbacks to the database and returns; nobody awaits them. *)
Definition cron_deployment_status_check : list (Async unit) :=
  [checkRunningBots; checkActiveWebsites].

(** Detached tasks run one after the other; a [Thrown] outcome is a
    rejection nobody handles. *)
Fixpoint run_detached (tasks : list (Async unit)) (w : World)
    : World * list (outcome unit) :=
  match tasks with
  | [] => (w, [])
  | t :: tasks' =>
    let (w1, o) := run t w in
    let (w2, os) := run_detached tasks' w1 in
    (w2, o :: os)
  end.

(** ** Signal handlers *)

(** Calling an async function runs it up to its first [await] and hands
    back a promise: settled already, or pending with the rest to run. *)
Fixpoint call {A B} (m : Async A) (k : progress A -> Async B) : Async B :=
  match m with
  | Ret o => k (Finished o)
  | Act f g => Act f (fun w => call (g w) k)
  | Yield m' => k (Suspended m')
  end.

(** [l.map(x => f(x))] for an async [f]. *)
Fixpoint map_call {X A} (f : X -> Async A) (l : list X)
    : Async (list (progress A)) :=
  match l with
  | [] => mret []
  | x :: l' => call (f x) (fun p => ps ← map_call f l'; mret (p :: ps))
  end.

Definition settle {A} (p : progress A) : Async A :=
  match p with
  | Finished o => Ret o
  | Suspended k => k
  end.

(** [Promise.all(promises)]: fulfilled in a later turn once every promise
    is; rejected with the first rejection.  Pending promises are settled
    in the order of the array. *)
Fixpoint Promise_all {A} (promises : list (progress A)) : Async (list A) :=
  match promises with
  | [] => Yield (mret [])
  | p :: ps => a ← settle p; as_ ← Promise_all ps; mret (a :: as_)
  end.

(** [process.on('SIGTERM', ...)]; the result is the exit code. *)
Definition on_SIGTERM : Async Z :=
  runningBots ← getRunningBots;
  promises ← map_call (fun bot => stopBot (bp_id bot)) runningBots;
  try_catch (Promise_all promises;; mret 0)
            (fun error => mret 1).

(** [process.on('SIGINT', ...)] *)
Definition on_SIGINT : Async Z := mret 0.


(** ** Worlds reached by the steps of the operations

    Abbreviations used to state what the operations compute. *)

Definition new_botProcess (botId : Z) (w : World) : botProcess :=
  BotProcess botId (clock w) "running"
             (Math_floor (random w (random_calls w) * 10000)).

Definition register_bot (botId : Z) (w : World) : World :=
  with_runningBots (JsMap.set botId (new_botProcess botId w) (runningBots w))
                   (next_random w).

Definition unregister_bot (botId : Z) (w : World) : World :=
  with_runningBots (JsMap.delete botId (runningBots w)) w.

Definition write_bot_status (status : string) (botId : Z) (w : World) : World :=
  next_db_call (with_bots (sql_update_bot status botId (clock w) (bots w)) w).

Definition new_deployment (websiteId : Z) (domain : option string) (w : World)
    : deployment :=
  let host := js_or domain (pretty websiteId +:+ ".localhost") in
  Deployment websiteId host (clock w) "active" ("https://" +:+ host).

Definition register_website (websiteId : Z) (domain : option string)
    (w : World) : World :=
  with_deployedWebsites
    (JsMap.set websiteId (new_deployment websiteId domain w) (deployedWebsites w)) w.

Definition unregister_website (websiteId : Z) (w : World) : World :=
  with_deployedWebsites (JsMap.delete websiteId (deployedWebsites w)) w.

Definition write_website_status (status : string) (websiteId : Z) (w : World)
    : World :=
  next_db_call
    (with_websites (sql_update_website status websiteId (clock w) (websites w)) w).

(** No statement sent to the database from now on fails. *)
Definition db_healthy (w : World) : Prop :=
  forall n, (db_calls w <= n)%nat -> db_fault w n = false.

(** ** Shutdown: what the drain leaves pending *)

(** Every handle of the bot registry is stored under its own id, as
    [startBot] registers it. *)
Definition keyed_by_id (m : JsMap.t botProcess) : Prop :=
  Forall (fun e => bp_id (snd e) = fst e) m.

(** What remains of [stopBot id] once its handle has been deleted: the
    status write and the result. *)
Definition stop_pending (id : Z) (k : Async bool) : Prop :=
  forall w, run k w =
            if db_fault w (db_calls w)
            then (next_db_call w, Returned false)
            else (write_bot_status "stopped" id w, Returned true).

(** A promise handed back by a [stopBot] call. *)
Definition stop_promise (p : progress bool) : Prop :=
  p = Finished (Returned false)
  \/ exists id k, p = Suspended k /\ stop_pending id k.

Definition stopped_at (id : Z) (w : World) : Prop :=
  Forall (fun r => bot_id r = id -> bot_status r = "stopped") (bots w).

Definition delete_all (ids : list Z) (m : JsMap.t botProcess)
    : JsMap.t botProcess :=
  fold_left (fun m id => JsMap.delete id m) ids m.

(** ** Sample worlds *)

(** The statements of the database that fail, by position. *)
Definition faults (l : list nat) : nat -> bool :=
  fun n => existsb (Nat.eqb n) l.

(** A world at time 1000 whose random source always yields 1/2. *)
Definition sample_world (rb : JsMap.t botProcess) (dw : JsMap.t deployment)
    (tb : list botRow) (tw : list websiteRow) (failing : list nat) : World :=
  mkWorld rb dw tb tw 1000 (faults failing) 0 (fun _ => 1 # 2) 0.

Definition bot5 : botRow := BotRow 5 "uploads/bots/5.zip" "stopped" None 0.
Definition site5 : websiteRow :=
  WebsiteRow 5 None "uploads/websites/5.zip" "inactive" 0.
Definition handle5 : botProcess := BotProcess 5 10 "running" 4242.
Definition deployed5 : deployment :=
  Deployment 5 "5.localhost" 10 "active" "https://5.localhost".

(** ** The daily backup task *)

Module Backup.

(** A [Date] as [toISOString] prints it: the fields of the UTC calendar
    date and time, month counted from 1. *)
Record Date := mkDate {
  year : Z;
  month : Z;
  day : Z;
  hours : Z;
  minutes : Z;
  seconds : Z;
  milliseconds : Z
}.

Definition digit (d : Z) : ascii := ascii_of_N (48 + Z.to_N d).

(** The [width] last decimal digits of [n]. *)
Fixpoint pad (width : nat) (n : Z) : string :=
  match width with
  | O => ""
  | S width' => pad width' (n / 10) +:+ String (digit (n mod 10)) ""
  end.

(** [Date.prototype.toISOString]: [YYYY-MM-DDTHH:mm:ss.sssZ], the year with
    a sign and six digits outside 0..9999. *)
Definition toISOString (d : Date) : string :=
  (if (0 <=? year d)%Z && (year d <=? 9999)%Z then pad 4 (year d)
   else (if (year d <? 0)%Z then "-" else "+") +:+ pad 6 (Z.abs (year d)))
  +:+ "-" +:+ pad 2 (month d) +:+ "-" +:+ pad 2 (day d)
  +:+ "T" +:+ pad 2 (hours d) +:+ ":" +:+ pad 2 (minutes d)
  +:+ ":" +:+ pad 2 (seconds d) +:+ "." +:+ pad 3 (milliseconds d) +:+ "Z".

(** [s.replace(/[:.]/g, '-')] *)
Fixpoint replace_colon_dot (s : string) : string :=
  match s with
  | EmptyString => EmptyString
  | String c s' =>
    String (if Ascii.eqb c ":" || Ascii.eqb c "." then "-"%char else c)
           (replace_colon_dot s')
  end.

(** [`database-backup-${timestamp}.sqlite`] for [timestamp] taken at [now]. *)
Definition backup_name (now : Date) : string :=
  "database-backup-" +:+ replace_colon_dot (toISOString now) +:+ ".sqlite".

(** [file.startsWith('database-backup-')] *)
Definition is_backup (file : string) : bool :=
  String.prefix "database-backup-" file.

(** Chronological order, field by field. *)
Definition lex (c1 c2 : comparison) : comparison :=
  match c1 with Eq => c2 | _ => c1 end.

Definition Date_compare (a b : Date) : comparison :=
  lex (Z.compare (year a) (year b))
  (lex (Z.compare (month a) (month b))
  (lex (Z.compare (day a) (day b))
  (lex (Z.compare (hours a) (hours b))
  (lex (Z.compare (minutes a) (minutes b))
  (lex (Z.compare (seconds a) (seconds b))
       (Z.compare (milliseconds a) (milliseconds b))))))).

Definition earlier (a b : Date) : Prop := Date_compare a b = Lt.

(** The dates whose year [toISOString] prints with four digits. *)
Definition valid (d : Date) : Prop :=
  0 <= year d <= 9999 /\ 1 <= month d <= 12 /\ 1 <= day d <= 31
  /\ 0 <= hours d <= 23 /\ 0 <= minutes d <= 59 /\ 0 <= seconds d <= 59
  /\ 0 <= milliseconds d <= 999.

(** The part of the file system the task touches: the database file, the
    directory [backups] with its entries, and the order in which
    [readdirSync] reports a set of entries. *)
Record FileSystem := mkFS {
  database_exists : bool;
  backups_exists : bool;
  backups : list string;
  listing : list string -> list string
}.

Definition Sync (A : Type) : Type := FileSystem -> FileSystem * outcome A.

#[global] Instance Sync_ret : MRet Sync := fun A a fs => (fs, Returned a).
#[global] Instance Sync_bind : MBind Sync := fun A B g m fs =>
  match m fs with
  | (fs', Returned a) => g a fs'
  | (fs', Thrown e) => (fs', Thrown e)
  end.

Definition try_catch {A} (m : Sync A) (h : Error -> Sync A) : Sync A :=
  fun fs =>
    match m fs with
    | (fs', Returned a) => (fs', Returned a)
    | (fs', Thrown e) => h e fs'
    end.

Definition existsSync_backups : Sync bool :=
  fun fs => (fs, Returned (backups_exists fs)).

(** [fs.mkdirSync(backupDir, { recursive: true })] *)
Definition mkdirSync_backups : Sync unit :=
  fun fs => (mkFS (database_exists fs) true (backups fs) (listing fs),
             Returned tt).

(** [fs.copyFileSync(DATABASE_PATH, backupDir/name)]: fails when the
    database file or the directory is missing; overwrites an entry of the
    same name. *)
Definition copyFileSync_database (name : string) : Sync unit :=
  fun fs =>
    if database_exists fs && backups_exists fs
    then (mkFS (database_exists fs) (backups_exists fs)
               (if bool_decide (name ∈ backups fs) then backups fs
                else (backups fs ++ [name])%list)
               (listing fs),
          Returned tt)
    else (fs, Thrown (FsError name)).

Definition readdirSync_backups : Sync (list string) :=
  fun fs =>
    if backups_exists fs then (fs, Returned (listing fs (backups fs)))
    else (fs, Thrown (FsError "backups")).

(** [fs.unlinkSync(backupDir/name)] *)
Definition unlinkSync (name : string) : Sync unit :=
  fun fs =>
    if bool_decide (name ∈ backups fs)
    then (mkFS (database_exists fs) (backups_exists fs)
               (List.filter (fun f => negb (String.eqb f name)) (backups fs))
               (listing fs),
          Returned tt)
    else (fs, Thrown (FsError name)).

(** [l.forEach(x => body(x))] *)
Fixpoint forEach {X} (l : list X) (body : X -> Sync unit) : Sync unit :=
  match l with
  | [] => mret tt
  | x :: l' => body x;; forEach l' body
  end.

(** The default order of [sort()] on strings, by code units. *)
Definition string_le (s1 s2 : string) : Prop := String.leb s1 s2 = true.

#[global] Instance string_le_dec : RelDecision string_le :=
  fun s1 s2 => decide (String.leb s1 s2 = true).

(** [a.sort()] on an array of strings. *)
Definition js_sort (a : list string) : list string :=
  merge_sort string_le a.

(** [a.slice(0, n)] *)
Definition slice0 {X} (n : nat) (a : list X) : list X := take n a.

(** [cron.schedule('0 4 * * *', ...)], run at [now]. *)
Definition cron_backup (now : Date) : Sync unit :=
  try_catch
    (let timestamp := replace_colon_dot (toISOString now) in
     present ← existsSync_backups;
     (if negb present then mkdirSync_backups else mret tt);;
     copyFileSync_database ("database-backup-" +:+ timestamp +:+ ".sqlite");;
     files ← readdirSync_backups;
     let backupFiles := List.filter is_backup files in
     if (7 <? length backupFiles)%nat
     then
       let sorted := js_sort backupFiles in
       let filesToDelete := slice0 (length sorted - 7) sorted in
       forEach filesToDelete unlinkSync
     else mret tt)
    (fun error => mret tt).

(** [a] is earlier than [b], as a test. *)
Definition earlierb (a b : Date) : bool :=
  match Date_compare a b with Lt => true | _ => false end.

(** The timestamp inside a backup name when the year has four digits. *)
Definition stamp (d : Date) : string :=
  pad 4 (year d) +:+ "-" +:+ pad 2 (month d) +:+ "-" +:+ pad 2 (day d)
  +:+ "T" +:+ pad 2 (hours d) +:+ "-" +:+ pad 2 (minutes d)
  +:+ "-" +:+ pad 2 (seconds d) +:+ "-" +:+ pad 3 (milliseconds d) +:+ "Z".

(** Nine snapshots taken at 4 AM on the first nine days of January 2024,
    listed out of order next to a file of another name, and the run of
    the tenth day. *)
Definition sample_old : list Date :=
  (fun i => mkDate 2024 1 i 4 0 0 (7 * i)) <$> [9; 3; 5; 1; 2; 8; 7; 4; 6].

Definition sample_now : Date := mkDate 2024 1 10 4 0 0 12.

Definition sample_fs : FileSystem :=
  mkFS true true ("notes.txt" :: (backup_name <$> sample_old)) (@rev string).

End Backup.

(** ** Calls in flight together

    The event loop runs one segment at a time: a call runs up to its first
    [await] when it is made, and a suspended call runs up to its next
    [await] when it is resumed.  A schedule lists which of the two
    happens next. *)

Inductive event :=
| Call (m : Async bool)
| Resume (i : nat).

Definition step (e : event) (st : World * list (progress bool))
    : World * list (progress bool) :=
  let (w, pool) := st in
  match e with
  | Call m =>
    let (w', p) := segment m w in (w', (pool ++ [p])%list)
  | Resume i =>
    match pool !! i with
    | Some (Suspended k) =>
      let (w', p) := segment k w in (w', <[i := p]> pool)
    | _ => (w, pool)
    end
  end.

Definition interleave (schedule : list event) (w : World)
    : World * list (progress bool) :=
  fold_left (fun st e => step e st) schedule (w, []).

(** Two calls made one after the other, each run to completion. *)
Definition in_sequence (first second : Async bool) (w : World)
    : outcome bool * outcome bool :=
  let (w1, o1) := run first w in
  let (w2, o2) := run second w1 in
  (o1, o2).

(** Every atomic action of a computation relates the world before to the
    world after by [P]. *)
Inductive confined (P : World -> World -> Prop) {A : Type} : Async A -> Prop :=
| confined_ret (o : outcome A) : confined P (Ret o)
| confined_act (f : World -> World) (k : World -> Async A) :
    (forall w, P w (f w)) -> (forall w, confined P (k w)) ->
    confined P (Act f k)
| confined_yield (k : Async A) : confined P k -> confined P (Yield k).

(** The bot registry is left as it is. *)
Definition same_registry (w w' : World) : Prop :=
  runningBots w' = runningBots w.

(** The handles of all ids but [id] are left as they are. *)
Definition same_elsewhere (id : Z) (w w' : World) : Prop :=
  forall k, k <> id ->
            JsMap.get k (runningBots w') = JsMap.get k (runningBots w).

(** A promise that is settled or whose rest is confined. *)
Definition confined_promise (P : World -> World -> Prop) (p : progress bool)
    : Prop :=
  match p with
  | Finished _ => True
  | Suspended k => confined P k
  end.

(** The events a confined schedule may hold. *)
Definition confined_event (P : World -> World -> Prop) (e : event) : Prop :=
  match e with
  | Call m => confined P m
  | Resume _ => True
  end.

(** The events of a schedule that concerns one bot only. *)
Definition on_bot (id : Z) (e : event) : Prop :=
  match e with
  | Call m =>
    (exists p c, m = startBot id p c) \/ m = stopBot id
    \/ (exists p c, m = restartBot id p c)
  | Resume _ => True
  end.

(** ** class WorkerAPI *)

Definition startBotAPI (botId : Z) (botPath : string) (config : botConfig)
    : Async bool :=
  await (startBot botId botPath config).

Definition stopBotAPI (botId : Z) : Async bool :=
  await (stopBot botId).

Definition deployWebsiteAPI (websiteId : Z) (websitePath : string)
    (domain : option string) : Async (option deployment) :=
  await (deployWebsite websiteId websitePath domain).

Definition undeployWebsiteAPI (websiteId : Z) : Async bool :=
  await (undeployWebsite websiteId).

(** ** initializeWorker *)

(** Callback of [db.all('SELECT * FROM bots WHERE status = "running"', ...)]
    at start-up: every selected bot is started, without looking into the
    registry first. *)
Definition restoreRunningBots : Async unit :=
  db_all (fun w => sql_select_bots "running" (bots w)) (fun res =>
    match res with
    | inl err => mret tt
    | inr bots =>
      for_of bots (fun bot =>
        await (startBot (bot_id bot) (bot_file_path bot)
                        (ConfigColumn (bot_config bot)));; mret tt)
    end).

(** Callback of [db.all('SELECT * FROM websites WHERE status = "active"', ...)]
    at start-up. *)
Definition restoreActiveWebsites : Async unit :=
  db_all (fun w => sql_select_websites "active" (websites w)) (fun res =>
    match res with
    | inl err => mret tt
    | inr websites =>
      for_of websites (fun website =>
        await (deployWebsite (website_id website) (website_file_path website)
                             (website_domain website));; mret tt)
    end).

(** [initializeWorker()] hands the two callbacks to the database and
    returns; nobody awaits them. *)
Definition initializeWorker : list (Async unit) :=
  [restoreRunningBots; restoreActiveWebsites].

(** ** Everything the worker can be asked to do *)

Inductive operation :=
| StartBot (botId : Z) (botPath : string) (config : botConfig)
| StopBot (botId : Z)
| RestartBot (botId : Z) (botPath : string) (config : botConfig)
| DeployWebsite (websiteId : Z) (websitePath : string) (domain : option string)
| UndeployWebsite (websiteId : Z)
| HealthCheck
| DeploymentStatusCheck
| InitializeWorker
| Sigterm.

(** The world after an operation has run to completion. *)
Definition perform (o : operation) (w : World) : World :=
  match o with
  | StartBot botId botPath config =>
    fst (run (startBotAPI botId botPath config) w)
  | StopBot botId => fst (run (stopBotAPI botId) w)
  | RestartBot botId botPath config =>
    fst (run (restartBot botId botPath config) w)
  | DeployWebsite websiteId websitePath domain =>
    fst (run (deployWebsiteAPI websiteId websitePath domain) w)
  | UndeployWebsite websiteId => fst (run (undeployWebsiteAPI websiteId) w)
  | HealthCheck => fst (run cron_health_check w)
  | DeploymentStatusCheck =>
    fst (run_detached cron_deployment_status_check w)
  | InitializeWorker => fst (run_detached initializeWorker w)
  | Sigterm => fst (run on_SIGTERM w)
  end.

(** Operations run one after the other.  [Sigterm] ends the process, so
    in a real run nothing follows it; what is proved of all lists holds of
    those that stop there. *)
Definition perform_all (os : list operation) (w : World) : World :=
  fold_left (fun w o => perform o w) os w.

(** The operations that belong to [BotManager] alone. *)
Definition bot_operation (o : operation) : bool :=
  match o with
  | StartBot _ _ _ | StopBot _ | RestartBot _ _ _ | HealthCheck | Sigterm => true
  | _ => false
  end.

(** The operations that belong to [WebsiteManager] alone. *)
Definition website_operation (o : operation) : bool :=
  match o with
  | DeployWebsite _ _ _ | UndeployWebsite _ => true
  | _ => false
  end.

(** ** What the registries and the tables may be expected to satisfy *)

(** A handle as [startBot] builds it, stored under its own id. *)
Definition bot_entry_sound (e : Z * botProcess) : Prop :=
  bp_id (snd e) = fst e /\ bp_status (snd e) = "running".

(** A deployment as [deployWebsite] builds it, stored under its own id. *)
Definition website_entry_sound (e : Z * deployment) : Prop :=
  dep_id (snd e) = fst e
  /\ dep_status (snd e) = "active"
  /\ dep_domain (snd e) <> ""
  /\ dep_url (snd e) = "https://" +:+ dep_domain (snd e).

Definition registries_sound (w : World) : Prop :=
  JsMap.wf (runningBots w) /\ Forall bot_entry_sound (runningBots w)
  /\ JsMap.wf (deployedWebsites w)
  /\ Forall website_entry_sound (deployedWebsites w).

(** The columns of a row that no statement of the worker assigns. *)
Definition bot_columns (r : botRow) : Z * string * option string :=
  (bot_id r, bot_file_path r, bot_config r).

Definition website_columns (r : websiteRow) : Z * option string * string :=
  (website_id r, website_domain r, website_file_path r).

(** Between two worlds: the registries stay sound, the rows keep their
    place and the columns the worker does not assign, time does not run
    backwards, and what the database and the random source will do at each
    position is not rewritten. *)
Definition steady (w w' : World) : Prop :=
  (registries_sound w -> registries_sound w')
  /\ List.map bot_columns (bots w') = List.map bot_columns (bots w)
  /\ List.map website_columns (websites w') = List.map website_columns (websites w)
  /\ clock w <= clock w'
  /\ db_fault w' = db_fault w /\ (db_calls w <= db_calls w')%nat
  /\ random w' = random w /\ (random_calls w <= random_calls w')%nat.

(** Between two worlds: nothing that belongs to [WebsiteManager] changed. *)
Definition websites_untouched (w w' : World) : Prop :=
  deployedWebsites w' = deployedWebsites w /\ websites w' = websites w.

(** Between two worlds: nothing that belongs to [BotManager] changed. *)
Definition bots_untouched (w w' : World) : Prop :=
  runningBots w' = runningBots w /\ bots w' = bots w.

(** A promise that is settled or whose rest is confined, of any type. *)
Definition promise_confined (P : World -> World -> Prop) {A}
    (p : progress A) : Prop :=
  match p with
  | Finished _ => True
  | Suspended k => confined P k
  end.

(** The events of a schedule made of calls to the two managers and to the
    [WorkerAPI] wrappers that return a boolean, on any ids. *)
Definition manager_call (e : event) : Prop :=
  match e with
  | Call m =>
    (exists id p c, m = startBot id p c)
    \/ (exists id, m = stopBot id)
    \/ (exists id p c, m = restartBot id p c)
    \/ (exists id, m = undeployWebsite id)
    \/ (exists id p c, m = startBotAPI id p c)
    \/ (exists id, m = stopBotAPI id)
    \/ (exists id, m = undeployWebsiteAPI id)
  | Resume _ => True
  end.

(** ** The health check, entry by entry *)

(** Body of the loop of [healthCheck]. *)
Definition check_bot (bot : botProcess) : Async unit :=
  try_catch
    (now ← Date_now;
     let uptime := now - bp_startTime bot in
     r ← Math_random;
     if js_lt r (1 # 100)
     then await (restartBot (bp_id bot) "" ConfigEmptyObject);; mret tt
     else mret tt)
    (fun error => await (stopBot (bp_id bot));; mret tt).

(** From now on [Math.random() < 0.01] is false at every draw. *)
Definition no_simulated_failure (w : World) : Prop :=
  forall n, (random_calls w <= n)%nat -> js_lt (random w n) (1 # 100) = false.

(** The world with [n] more random numbers drawn. *)
Definition after_draws (n : nat) (w : World) : World :=
  mkWorld (runningBots w) (deployedWebsites w) (bots w) (websites w) (clock w)
          (db_fault w) (db_calls w) (random w) (random_calls w + n).

(** ** A new process *)

(** What a new worker process starts from: the two constructors make
    empty Maps; the database file is what the last process left. *)
Definition reboot (w : World) : World :=
  with_deployedWebsites [] (with_runningBots [] w).

(** Every running record has a handle, every active record a deployment:
    what the deployment status check looks for. *)
Definition nothing_missing (w : World) : Prop :=
  (forall r, In r (bots w) -> bot_status r = "running" ->
             JsMap.has (bot_id r) (runningBots w) = true)
  /\ (forall r, In r (websites w) -> website_status r = "active" ->
                JsMap.has (website_id r) (deployedWebsites w) = true).

(** Between two worlds: the bot registry lost handles, if anything. *)
Definition shrinks (w w' : World) : Prop :=
  forall k h, JsMap.get k (runningBots w') = Some h ->
              JsMap.get k (runningBots w) = Some h.
(** ** Reasoning about [run] *)

Lemma run_bind {A B} (m : Async A) (g : A -> Async B) (w : World) :
  run (m ≫= g) w =
  match run m w with
  | (w', Returned a) => run (g a) w'
  | (w', Thrown e) => (w', Thrown e)
  end.
Proof.
  change (m ≫= g) with (bind m g).
  revert w. induction m as [[a|e]|f k IH|k IH]; intros w; simpl; auto.
Qed.

Lemma run_try_catch {A} (m : Async A) (h : Error -> Async A) (w : World) :
  run (try_catch m h) w =
  match run m w with
  | (w', Returned a) => (w', Returned a)
  | (w', Thrown e) => run (h e) w'
  end.
Proof.
  revert w. induction m as [[a|e]|f k IH|k IH]; intros w; simpl; auto.
Qed.

Lemma run_await {A} (m : Async A) (w : World) : run (await m) w = run m w.
Proof.
  revert w. induction m as [o|f k IH|k IH]; intros w; simpl; auto.
Qed.

Lemma run_call {A B} (m : Async A) (k : progress A -> Async B) (w : World) :
  run (call m k) w =
  let (w', p) := segment m w in run (k p) w'.
Proof.
  revert w. induction m as [o|f g IH|m' IH]; intros w; simpl; auto.
Qed.

Lemma run_mret {A} (a : A) (w : World) : run (mret a) w = (w, Returned a).
Proof. reflexivity. Qed.

Lemma run_ask {X} (g : World -> X) (w : World) :
  run (ask g) w = (w, Returned (g w)).
Proof. reflexivity. Qed.

Lemma run_tell (f : World -> World) (w : World) :
  run (tell f) w = (f w, Returned tt).
Proof. reflexivity. Qed.

(** ** Facts about [JsMap] *)

Module JsMapFacts.
Import JsMap.

Lemma has_get {V} (k : Z) (m : t V) :
  has k m = match get k m with Some _ => true | None => false end.
Proof.
  unfold has, get. induction m as [|e m IH]; simpl; [reflexivity|].
  destruct (Z.eqb (fst e) k); simpl; auto.
Qed.

Lemma has_In {V} (k : Z) (m : t V) : has k m = true <-> In k (keys m).
Proof.
  unfold has, keys. rewrite existsb_exists, in_map_iff.
  split; intros [e [H1 H2]]; exists e.
  - split; [apply Z.eqb_eq|]; tauto.
  - split; [|apply Z.eqb_eq]; tauto.
Qed.

Lemma has_false_In {V} (k : Z) (m : t V) : has k m = false <-> ~ In k (keys m).
Proof.
  rewrite <- has_In. destruct (has k m); split; congruence.
Qed.

Lemma set_fresh {V} (k : Z) (v : V) (m : t V) :
  has k m = false -> set k v m = (m ++ [(k, v)])%list.
Proof.
  unfold has. induction m as [|e m IH]; simpl; [reflexivity|].
  destruct (Z.eqb (fst e) k); simpl; [discriminate|].
  intros H. f_equal. auto.
Qed.

Lemma keys_set {V} (k : Z) (v : V) (m : t V) :
  keys (set k v m) = if has k m then keys m else (keys m ++ [k])%list.
Proof.
  unfold keys, has. induction m as [|e m IH]; simpl; [reflexivity|].
  destruct (Z.eqb (fst e) k) eqn:E; simpl.
  - apply Z.eqb_eq in E. now rewrite E.
  - rewrite IH. now destruct (existsb _ m).
Qed.

Lemma get_set_eq {V} (k : Z) (v : V) (m : t V) : get k (set k v m) = Some v.
Proof.
  unfold get. induction m as [|e m IH]; simpl.
  - now rewrite Z.eqb_refl.
  - destruct (Z.eqb (fst e) k) eqn:E; simpl.
    + now rewrite Z.eqb_refl.
    + now rewrite E.
Qed.

Lemma get_set_ne {V} (k k' : Z) (v : V) (m : t V) :
  k <> k' -> get k' (set k v m) = get k' m.
Proof.
  intros Hne. unfold get. induction m as [|e m IH]; simpl.
  - apply Z.eqb_neq in Hne. now rewrite Hne.
  - destruct (Z.eqb (fst e) k) eqn:E; simpl.
    + apply Z.eqb_eq in E. rewrite E.
      apply Z.eqb_neq in Hne. now rewrite Hne.
    + destruct (Z.eqb (fst e) k'); simpl; auto.
Qed.

Lemma has_set_eq {V} (k : Z) (v : V) (m : t V) : has k (set k v m) = true.
Proof. now rewrite has_get, get_set_eq. Qed.

Lemma has_set_ne {V} (k k' : Z) (v : V) (m : t V) :
  k <> k' -> has k' (set k v m) = has k' m.
Proof. intros. now rewrite !has_get, get_set_ne. Qed.

Lemma get_delete_eq {V} (k : Z) (m : t V) : get k (delete k m) = None.
Proof.
  unfold get, delete. induction m as [|e m IH]; simpl; [reflexivity|].
  destruct (Z.eqb (fst e) k) eqn:E; simpl; [auto|now rewrite E].
Qed.

Lemma get_delete_ne {V} (k k' : Z) (m : t V) :
  k <> k' -> get k' (delete k m) = get k' m.
Proof.
  intros Hne. unfold get, delete. induction m as [|e m IH]; simpl; [reflexivity|].
  destruct (Z.eqb (fst e) k) eqn:E; simpl.
  - apply Z.eqb_eq in E. destruct (Z.eqb (fst e) k') eqn:E'; simpl; auto.
    apply Z.eqb_eq in E'. congruence.
  - destruct (Z.eqb (fst e) k'); simpl; auto.
Qed.

Lemma has_delete_eq {V} (k : Z) (m : t V) : has k (delete k m) = false.
Proof. now rewrite has_get, get_delete_eq. Qed.

Lemma has_delete_ne {V} (k k' : Z) (m : t V) :
  k <> k' -> has k' (delete k m) = has k' m.
Proof. intros. now rewrite !has_get, get_delete_ne. Qed.

Lemma delete_absent {V} (k : Z) (m : t V) : has k m = false -> delete k m = m.
Proof.
  unfold has, delete. induction m as [|e m IH]; simpl; [reflexivity|].
  destruct (Z.eqb (fst e) k); simpl; [discriminate|].
  intros H. f_equal. auto.
Qed.

Lemma keys_delete {V} (k : Z) (m : t V) :
  keys (delete k m) = List.filter (fun x => negb (Z.eqb x k)) (keys m).
Proof.
  unfold keys, delete. induction m as [|e m IH]; simpl; [reflexivity|].
  destruct (Z.eqb (fst e) k); simpl; now rewrite IH.
Qed.

Lemma wf_nil {V} : wf (@nil (Z * V)).
Proof. constructor. Qed.

Lemma wf_set {V} (k : Z) (v : V) (m : t V) : wf m -> wf (set k v m).
Proof.
  unfold wf. rewrite keys_set. destruct (has k m) eqn:E; [auto|].
  intros H. apply has_false_In in E.
  apply NoDup_app; repeat split; auto.
  - intros x Hx Hx'. apply list_elem_of_In in Hx, Hx'.
    destruct Hx' as [->|[]]. contradiction.
  - apply NoDup_singleton.
Qed.

Lemma wf_delete {V} (k : Z) (m : t V) : wf m -> wf (delete k m).
Proof.
  unfold wf. rewrite keys_delete, !NoDup_ListNoDup. apply List.NoDup_filter.
Qed.

Lemma count_has {V} (k : Z) (m : t V) :
  wf m -> count k m = if has k m then 1%nat else 0%nat.
Proof.
  unfold wf, count, has, keys. induction m as [|e m IH]; simpl; [reflexivity|].
  intros H. apply NoDup_cons in H as [Hn Hd].
  destruct (Z.eqb (fst e) k) eqn:E; simpl.
  - apply Z.eqb_eq in E. rewrite IH by auto.
    destruct (existsb _ m) eqn:Ex; [|reflexivity].
    exfalso. apply Hn. apply list_elem_of_In, in_map_iff.
    apply existsb_exists in Ex as [e' [Hin He']].
    apply Z.eqb_eq in He'. exists e'. split; [congruence|auto].
  - auto.
Qed.

Lemma count_app {V} (k : Z) (m1 m2 : t V) :
  count k (m1 ++ m2)%list = (count k m1 + count k m2)%nat.
Proof. unfold count. now rewrite List.filter_app, length_app. Qed.

Lemma values_keys_length {V} (m : t V) : length (values m) = length (keys m).
Proof. unfold values, keys. now rewrite !length_map. Qed.

End JsMapFacts.

(** ** What each operation computes when run to completion *)

Lemma run_updateBotStatus (botId : Z) (status : string) (w : World) :
  run (await (updateBotStatus botId status)) w =
  if db_fault w (db_calls w)
  then (next_db_call w, Thrown (DbError (db_calls w)))
  else (write_bot_status status botId w,
        Returned (sql_changes_bot botId (bots w))).
Proof.
  unfold updateBotStatus, db_run. simpl.
  destruct (db_fault w (db_calls w)); reflexivity.
Qed.

Lemma run_updateWebsiteStatus (websiteId : Z) (status : string) (w : World) :
  run (await (updateWebsiteStatus websiteId status)) w =
  if db_fault w (db_calls w)
  then (next_db_call w, Thrown (DbError (db_calls w)))
  else (write_website_status status websiteId w,
        Returned (sql_changes_website websiteId (websites w))).
Proof.
  unfold updateWebsiteStatus, db_run. simpl.
  destruct (db_fault w (db_calls w)); reflexivity.
Qed.

Lemma run_startBot (botId : Z) (botPath : string) (config : botConfig)
    (w : World) :
  run (startBot botId botPath config) w =
  if JsMap.has botId (runningBots w) then (w, Returned false)
  else
    let w1 := register_bot botId w in
    if db_fault w (db_calls w)
    then if db_fault w (S (db_calls w))
         then (next_db_call (next_db_call w1), Thrown (DbError (S (db_calls w))))
         else (write_bot_status "error" botId (next_db_call w1), Returned false)
    else (write_bot_status "running" botId w1, Returned true).
Proof.
  unfold startBot. simpl.
  destruct (JsMap.has botId (runningBots w)); simpl; [reflexivity|].
  destruct (db_fault w (db_calls w)); simpl; [|reflexivity].
  destruct (db_fault w (S (db_calls w))); reflexivity.
Qed.

Lemma run_stopBot (botId : Z) (w : World) :
  run (stopBot botId) w =
  if JsMap.has botId (runningBots w)
  then
    let w1 := unregister_bot botId w in
    if db_fault w (db_calls w)
    then (next_db_call w1, Returned false)
    else (write_bot_status "stopped" botId w1, Returned true)
  else (w, Returned false).
Proof.
  unfold stopBot. simpl. rewrite JsMapFacts.has_get.
  destruct (JsMap.get botId (runningBots w)); simpl; [|reflexivity].
  destruct (db_fault w (db_calls w)); reflexivity.
Qed.

Lemma run_deployWebsite (websiteId : Z) (websitePath : string)
    (domain : option string) (w : World) :
  run (deployWebsite websiteId websitePath domain) w =
  if JsMap.has websiteId (deployedWebsites w) then (w, Returned None)
  else
    let w1 := register_website websiteId domain w in
    if db_fault w (db_calls w)
    then if db_fault w (S (db_calls w))
         then (next_db_call (next_db_call w1), Thrown (DbError (S (db_calls w))))
         else (write_website_status "error" websiteId (next_db_call w1),
               Returned None)
    else (write_website_status "active" websiteId w1,
          Returned (Some (new_deployment websiteId domain w))).
Proof.
  unfold deployWebsite. simpl.
  destruct (JsMap.has websiteId (deployedWebsites w)); simpl; [reflexivity|].
  destruct (db_fault w (db_calls w)); simpl; [|reflexivity].
  destruct (db_fault w (S (db_calls w))); reflexivity.
Qed.

Lemma run_undeployWebsite (websiteId : Z) (w : World) :
  run (undeployWebsite websiteId) w =
  if JsMap.has websiteId (deployedWebsites w)
  then
    let w1 := unregister_website websiteId w in
    if db_fault w (db_calls w)
    then (next_db_call w1, Returned false)
    else (write_website_status "inactive" websiteId w1, Returned true)
  else (w, Returned false).
Proof.
  unfold undeployWebsite. simpl. rewrite JsMapFacts.has_get.
  destruct (JsMap.get websiteId (deployedWebsites w)); simpl; [|reflexivity].
  destruct (db_fault w (db_calls w)); reflexivity.
Qed.

(** ** Facts about the SQL statements *)

Lemma sql_update_bot_status (status : string) (botId now : Z) (t : list botRow) :
  Forall (fun r => bot_id r = botId -> bot_status r = status)
         (sql_update_bot status botId now t).
Proof.
  unfold sql_update_bot. induction t as [|r t IH]; simpl; constructor; auto.
  destruct (Z.eqb (bot_id r) botId) eqn:E; simpl; [reflexivity|].
  apply Z.eqb_neq in E. intros; contradiction.
Qed.

Lemma sql_update_bot_ids (status : string) (botId now : Z) (t : list botRow) :
  List.map bot_id (sql_update_bot status botId now t) = List.map bot_id t.
Proof.
  unfold sql_update_bot. induction t as [|r t IH]; simpl; [reflexivity|].
  rewrite IH. now destruct (Z.eqb (bot_id r) botId).
Qed.

Lemma sql_update_bot_other (status : string) (botId now : Z) (t : list botRow)
    (r : botRow) :
  bot_id r <> botId -> In r t -> In r (sql_update_bot status botId now t).
Proof.
  intros Hne Hin. unfold sql_update_bot. apply in_map_iff. exists r.
  apply Z.eqb_neq in Hne. now rewrite Hne.
Qed.

Lemma sql_update_bot_In (status : string) (botId now : Z) (t : list botRow)
    (r : botRow) :
  In r (sql_update_bot status botId now t) ->
  (bot_id r <> botId /\ In r t) \/
  (bot_id r = botId /\ bot_status r = status /\
   exists r0, In r0 t /\ bot_id r0 = botId /\
              bot_file_path r = bot_file_path r0 /\ bot_config r = bot_config r0).
Proof.
  unfold sql_update_bot. rewrite in_map_iff. intros [r0 [Hr Hin]].
  destruct (Z.eqb (bot_id r0) botId) eqn:E.
  - apply Z.eqb_eq in E. subst r. simpl. right. eauto 10.
  - apply Z.eqb_neq in E. subst r. now left.
Qed.

Lemma sql_update_website_status (status : string) (websiteId now : Z)
    (t : list websiteRow) :
  Forall (fun r => website_id r = websiteId -> website_status r = status)
         (sql_update_website status websiteId now t).
Proof.
  unfold sql_update_website. induction t as [|r t IH]; simpl; constructor; auto.
  destruct (Z.eqb (website_id r) websiteId) eqn:E; simpl; [reflexivity|].
  apply Z.eqb_neq in E. intros; contradiction.
Qed.

Lemma sql_update_website_ids (status : string) (websiteId now : Z)
    (t : list websiteRow) :
  List.map website_id (sql_update_website status websiteId now t)
  = List.map website_id t.
Proof.
  unfold sql_update_website. induction t as [|r t IH]; simpl; [reflexivity|].
  rewrite IH. now destruct (Z.eqb (website_id r) websiteId).
Qed.

(** ** start and stop *)

Arguments startBot : simpl never.
Arguments stopBot : simpl never.
Arguments deployWebsite : simpl never.
Arguments undeployWebsite : simpl never.

Lemma startBot_present (w : World) (id : Z) (p : string) (c : botConfig) :
  JsMap.has id (runningBots w) = true ->
  run (startBot id p c) w = (w, Returned false).
Proof. intros H. now rewrite run_startBot, H. Qed.

Lemma startBot_registry (w : World) (id : Z) (p : string) (c : botConfig) :
  JsMap.has id (runningBots w) = false ->
  runningBots (fst (run (startBot id p c) w))
  = (runningBots w ++ [(id, new_botProcess id w)])%list.
Proof.
  intros H. rewrite run_startBot, H. simpl.
  destruct (db_fault w (db_calls w)); [destruct (db_fault w (S (db_calls w)))|];
    simpl; now apply JsMapFacts.set_fresh.
Qed.

Lemma count_after_insert {V} (id : Z) (h : V) (m : JsMap.t V) :
  JsMap.has id m = false -> JsMap.count id (m ++ [(id, h)])%list = 1%nat.
Proof.
  intros H. rewrite JsMapFacts.count_app.
  assert (JsMap.count id m = 0%nat) as ->.
  { unfold JsMap.count, JsMap.has in *. induction m as [|e m IH]; simpl in *; auto.
    destruct (Z.eqb (fst e) id); simpl in *; [discriminate|auto]. }
  unfold JsMap.count. simpl. now rewrite Z.eqb_refl.
Qed.

Lemma startBot_has (w : World) (id : Z) (p : string) (c : botConfig) :
  JsMap.has id (runningBots (fst (run (startBot id p c) w))) = true.
Proof.
  destruct (JsMap.has id (runningBots w)) eqn:H.
  - now rewrite startBot_present.
  - rewrite startBot_registry by auto.
    rewrite <- (JsMapFacts.set_fresh id (new_botProcess id w)) by auto.
    apply JsMapFacts.has_set_eq.
Qed.

Lemma startBot_wf (w : World) (id : Z) (p : string) (c : botConfig) :
  JsMap.wf (runningBots w) ->
  JsMap.wf (runningBots (fst (run (startBot id p c) w))).
Proof.
  intros Hwf. destruct (JsMap.has id (runningBots w)) eqn:H.
  - now rewrite startBot_present.
  - rewrite startBot_registry by auto.
    rewrite <- (JsMapFacts.set_fresh id (new_botProcess id w)) by auto.
    now apply JsMapFacts.wf_set.
Qed.

Lemma deployWebsite_present (w : World) (id : Z) (p : string)
    (d : option string) :
  JsMap.has id (deployedWebsites w) = true ->
  run (deployWebsite id p d) w = (w, Returned None).
Proof. intros H. now rewrite run_deployWebsite, H. Qed.

Lemma deployWebsite_registry (w : World) (id : Z) (p : string)
    (d : option string) :
  JsMap.has id (deployedWebsites w) = false ->
  deployedWebsites (fst (run (deployWebsite id p d) w))
  = (deployedWebsites w ++ [(id, new_deployment id d w)])%list.
Proof.
  intros H. rewrite run_deployWebsite, H. simpl.
  destruct (db_fault w (db_calls w)); [destruct (db_fault w (S (db_calls w)))|];
    simpl; now apply JsMapFacts.set_fresh.
Qed.

Lemma deployWebsite_has (w : World) (id : Z) (p : string) (d : option string) :
  JsMap.has id (deployedWebsites (fst (run (deployWebsite id p d) w))) = true.
Proof.
  destruct (JsMap.has id (deployedWebsites w)) eqn:H.
  - now rewrite deployWebsite_present.
  - rewrite deployWebsite_registry by auto.
    rewrite <- (JsMapFacts.set_fresh id (new_deployment id d w)) by auto.
    apply JsMapFacts.has_set_eq.
Qed.

Lemma deployWebsite_wf (w : World) (id : Z) (p : string) (d : option string) :
  JsMap.wf (deployedWebsites w) ->
  JsMap.wf (deployedWebsites (fst (run (deployWebsite id p d) w))).
Proof.
  intros Hwf. destruct (JsMap.has id (deployedWebsites w)) eqn:H.
  - now rewrite deployWebsite_present.
  - rewrite deployWebsite_registry by auto.
    rewrite <- (JsMapFacts.set_fresh id (new_deployment id d w)) by auto.
    now apply JsMapFacts.wf_set.
Qed.

(** C1.  [start] on an id that already has a handle returns false and
    changes nothing.  On an id without a handle it appends exactly one new
    handle for that id to the registry and, when the store accepts the
    status write, returns true with every record of that id persisted as
    running (bots) or active (websites).  After two start calls for one id
    the registry holds exactly one handle for it and the second call
    returned false. *)
Theorem start_registers_once (w : World) (id : Z) (filePath filePath' : string)
    (config config' : botConfig) (domain domain' : option string) :
  (JsMap.has id (runningBots w) = true ->
   run (startBot id filePath config) w = (w, Returned false))
  /\ (JsMap.has id (runningBots w) = false ->
      let (w', o) := run (startBot id filePath config) w in
      (exists h, runningBots w' = (runningBots w ++ [(id, h)])%list)
      /\ JsMap.count id (runningBots w') = 1%nat
      /\ (db_fault w (db_calls w) = false ->
          o = Returned true
          /\ bots w' = sql_update_bot "running" id (clock w) (bots w)
          /\ Forall (fun r => bot_id r = id -> bot_status r = "running") (bots w')))
  /\ (JsMap.wf (runningBots w) ->
      let (w1, o1) := run (startBot id filePath config) w in
      let (w2, o2) := run (startBot id filePath' config') w1 in
      JsMap.count id (runningBots w2) = 1%nat /\ o2 = Returned false)
  /\ (JsMap.has id (deployedWebsites w) = true ->
      run (deployWebsite id filePath domain) w = (w, Returned None))
  /\ (JsMap.has id (deployedWebsites w) = false ->
      let (w', o) := run (deployWebsite id filePath domain) w in
      (exists h, deployedWebsites w' = (deployedWebsites w ++ [(id, h)])%list)
      /\ JsMap.count id (deployedWebsites w') = 1%nat
      /\ (db_fault w (db_calls w) = false ->
          (exists h, o = Returned (Some h))
          /\ websites w' = sql_update_website "active" id (clock w) (websites w)
          /\ Forall (fun r => website_id r = id -> website_status r = "active")
                    (websites w')))
  /\ (JsMap.wf (deployedWebsites w) ->
      let (w1, o1) := run (deployWebsite id filePath domain) w in
      let (w2, o2) := run (deployWebsite id filePath' domain') w1 in
      JsMap.count id (deployedWebsites w2) = 1%nat /\ o2 = Returned None).
Proof.
  repeat apply conj.
  - apply startBot_present.
  - intros H.
    pose proof (startBot_registry w id filePath config H) as Hreg.
    pose proof (run_startBot id filePath config w) as Hrun.
    rewrite H in Hrun. cbv zeta in Hrun.
    destruct (run (startBot id filePath config) w) as [w' o]. simpl in Hreg.
    split; [eauto|]. split; [rewrite Hreg; now apply count_after_insert|].
    intros Hok. rewrite Hok in Hrun. injection Hrun as -> ->.
    repeat split. apply sql_update_bot_status.
  - intros Hwf.
    pose proof (startBot_has w id filePath config) as Hhas.
    pose proof (startBot_wf w id filePath config Hwf) as Hwf1.
    destruct (run (startBot id filePath config) w) as [w1 o1]. cbn [fst snd] in *.
    rewrite (startBot_present w1) by auto.
    rewrite JsMapFacts.count_has, Hhas; auto.
  - apply deployWebsite_present.
  - intros H.
    pose proof (deployWebsite_registry w id filePath domain H) as Hreg.
    pose proof (run_deployWebsite id filePath domain w) as Hrun.
    rewrite H in Hrun. cbv zeta in Hrun.
    destruct (run (deployWebsite id filePath domain) w) as [w' o]. simpl in Hreg.
    split; [eauto|]. split; [rewrite Hreg; now apply count_after_insert|].
    intros Hok. rewrite Hok in Hrun. injection Hrun as -> ->.
    repeat split; eauto. apply sql_update_website_status.
  - intros Hwf.
    pose proof (deployWebsite_has w id filePath domain) as Hhas.
    pose proof (deployWebsite_wf w id filePath domain Hwf) as Hwf1.
    destruct (run (deployWebsite id filePath domain) w) as [w1 o1]. cbn [fst snd] in *.
    rewrite (deployWebsite_present w1) by auto.
    rewrite JsMapFacts.count_has, Hhas; auto.
Qed.

Lemma wf_single {V} (k : Z) (v : V) : JsMap.wf [(k, v)].
Proof. apply NoDup_singleton. Qed.

Lemma start_registers_once_witness :
  run (startBot 5 "" ConfigEmptyObject)
      (sample_world [(5, handle5)] [] [bot5] [] [])
  = (sample_world [(5, handle5)] [] [bot5] [] [], Returned false)
  /\ (let (w', o) := run (startBot 5 "" ConfigEmptyObject)
                         (sample_world [] [] [bot5] [] []) in
      JsMap.count 5 (runningBots w') = 1%nat
      /\ o = Returned true
      /\ Forall (fun r => bot_id r = 5 -> bot_status r = "running") (bots w'))
  /\ (let (w1, o1) := run (startBot 5 "" ConfigEmptyObject)
                          (sample_world [] [] [bot5] [] [0%nat]) in
      let (w2, o2) := run (startBot 5 "" ConfigEmptyObject) w1 in
      JsMap.count 5 (runningBots w2) = 1%nat /\ o2 = Returned false)
  /\ (let (w', o) := run (deployWebsite 5 "" None)
                         (sample_world [] [] [] [site5] []) in
      JsMap.count 5 (deployedWebsites w') = 1%nat
      /\ Forall (fun r => website_id r = 5 -> website_status r = "active")
                (websites w')).
Proof.
  destruct (start_registers_once (sample_world [(5, handle5)] [] [bot5] [] [])
              5 "" "" ConfigEmptyObject ConfigEmptyObject None None)
    as (H1 & _).
  destruct (start_registers_once (sample_world [] [] [bot5] [] [])
              5 "" "" ConfigEmptyObject ConfigEmptyObject None None)
    as (_ & H2 & _).
  destruct (start_registers_once (sample_world [] [] [bot5] [] [0%nat])
              5 "" "" ConfigEmptyObject ConfigEmptyObject None None)
    as (_ & _ & H3 & _).
  destruct (start_registers_once (sample_world [] [] [] [site5] [])
              5 "" "" ConfigEmptyObject ConfigEmptyObject None None)
    as (_ & _ & _ & _ & H5 & _).
  split; [apply H1; reflexivity|].
  split.
  { specialize (H2 eq_refl).
    destruct (run (startBot 5 "" ConfigEmptyObject) _) as [w' o].
    destruct H2 as (_ & Hc & Hp). destruct (Hp eq_refl) as (Ho & _ & Hf).
    repeat split; assumption. }
  split; [apply H3; constructor|].
  specialize (H5 eq_refl).
  destruct (run (deployWebsite 5 "" None) _) as [w' o].
  destruct H5 as (_ & Hc & Hp). destruct (Hp eq_refl) as (_ & _ & Hf).
  split; assumption.
Defined.

Lemma get_after_insert {V} (id : Z) (h : V) (m : JsMap.t V) :
  JsMap.has id m = false -> JsMap.get id (m ++ [(id, h)])%list = Some h.
Proof.
  intros H. rewrite <- (JsMapFacts.set_fresh id h m H).
  apply JsMapFacts.get_set_eq.
Qed.

Lemma registry_changed {V} (id : Z) (m m' : JsMap.t V) :
  JsMap.has id m = true -> JsMap.has id m' = false -> m' <> m.
Proof. intros H H' ->. congruence. Qed.

(** C2.  [stop] on an id without a handle returns false and changes
    nothing.  On an id with a handle it deletes the handle and, when the
    store accepts the status write, returns true with every record of that
    id persisted as stopped (bots) or inactive (websites).  Whatever
    happens, no handle for the id is left once the call has returned. *)
Theorem stop_removes_handle (w : World) (id : Z) :
  (JsMap.has id (runningBots w) = false ->
   run (stopBot id) w = (w, Returned false))
  /\ (JsMap.has id (runningBots w) = true ->
      let (w', o) := run (stopBot id) w in
      runningBots w' = JsMap.delete id (runningBots w)
      /\ (db_fault w (db_calls w) = false ->
          o = Returned true
          /\ bots w' = sql_update_bot "stopped" id (clock w) (bots w)
          /\ Forall (fun r => bot_id r = id -> bot_status r = "stopped") (bots w')))
  /\ JsMap.has id (runningBots (fst (run (stopBot id) w))) = false
  /\ (JsMap.has id (deployedWebsites w) = false ->
      run (undeployWebsite id) w = (w, Returned false))
  /\ (JsMap.has id (deployedWebsites w) = true ->
      let (w', o) := run (undeployWebsite id) w in
      deployedWebsites w' = JsMap.delete id (deployedWebsites w)
      /\ (db_fault w (db_calls w) = false ->
          o = Returned true
          /\ websites w' = sql_update_website "inactive" id (clock w) (websites w)
          /\ Forall (fun r => website_id r = id -> website_status r = "inactive")
                    (websites w')))
  /\ JsMap.has id (deployedWebsites (fst (run (undeployWebsite id) w))) = false.
Proof.
  rewrite run_stopBot, run_undeployWebsite. repeat apply conj.
  - now intros ->.
  - intros ->. cbv zeta.
    destruct (db_fault w (db_calls w)); (split; [reflexivity|]);
      [discriminate|]. intros _. repeat split. apply sql_update_bot_status.
  - destruct (JsMap.has id (runningBots w)) eqn:H; cbv zeta; [|exact H].
    destruct (db_fault w (db_calls w)); apply JsMapFacts.has_delete_eq.
  - now intros ->.
  - intros ->. cbv zeta.
    destruct (db_fault w (db_calls w)); (split; [reflexivity|]);
      [discriminate|]. intros _. repeat split. apply sql_update_website_status.
  - destruct (JsMap.has id (deployedWebsites w)) eqn:H; cbv zeta; [|exact H].
    destruct (db_fault w (db_calls w)); apply JsMapFacts.has_delete_eq.
Qed.

Lemma stop_removes_handle_witness :
  run (stopBot 5) (sample_world [] [] [bot5] [] [])
  = (sample_world [] [] [bot5] [] [], Returned false)
  /\ (let (w', o) := run (stopBot 5) (sample_world [(5, handle5)] [] [bot5] [] []) in
      runningBots w' = []
      /\ o = Returned true
      /\ Forall (fun r => bot_id r = 5 -> bot_status r = "stopped") (bots w'))
  /\ (let (w', o) := run (undeployWebsite 5)
                         (sample_world [] [(5, deployed5)] [] [site5] []) in
      deployedWebsites w' = []
      /\ o = Returned true
      /\ Forall (fun r => website_id r = 5 -> website_status r = "inactive")
                (websites w')).
Proof.
  destruct (stop_removes_handle (sample_world [] [] [bot5] [] []) 5)
    as (H1 & _).
  destruct (stop_removes_handle (sample_world [(5, handle5)] [] [bot5] [] []) 5)
    as (_ & H2 & _).
  destruct (stop_removes_handle
              (sample_world [] [(5, deployed5)] [] [site5] []) 5)
    as (_ & _ & _ & _ & H5 & _).
  split; [apply H1; reflexivity|]. split.
  - specialize (H2 eq_refl).
    destruct (run (stopBot 5) _) as [w' o].
    destruct H2 as (Hd & Hp). destruct (Hp eq_refl) as (Ho & _ & Hf).
    repeat split; assumption.
  - specialize (H5 eq_refl).
    destruct (run (undeployWebsite 5) _) as [w' o].
    destruct H5 as (Hd & Hp). destruct (Hp eq_refl) as (Ho & _ & Hf).
    repeat split; assumption.
Defined.

(** C10.  When a handle exists and the store rejects the status write,
    [stop] returns false although the handle has been deleted and no
    record has changed: a false result does not tell that the registry
    was left as it was. *)
Theorem stop_not_atomic (w : World) (id : Z) :
  (JsMap.has id (runningBots w) = true ->
   db_fault w (db_calls w) = true ->
   let (w', o) := run (stopBot id) w in
   o = Returned false
   /\ JsMap.has id (runningBots w') = false
   /\ runningBots w' <> runningBots w
   /\ bots w' = bots w)
  /\ (JsMap.has id (deployedWebsites w) = true ->
      db_fault w (db_calls w) = true ->
      let (w', o) := run (undeployWebsite id) w in
      o = Returned false
      /\ JsMap.has id (deployedWebsites w') = false
      /\ deployedWebsites w' <> deployedWebsites w
      /\ websites w' = websites w).
Proof.
  rewrite run_stopBot, run_undeployWebsite. split.
  - intros H ->. rewrite H. cbv zeta. cbn.
    pose proof (JsMapFacts.has_delete_eq id (runningBots w)) as Hd.
    repeat split; auto. now apply (registry_changed id).
  - intros H ->. rewrite H. cbv zeta. cbn.
    pose proof (JsMapFacts.has_delete_eq id (deployedWebsites w)) as Hd.
    repeat split; auto. now apply (registry_changed id).
Qed.

Lemma stop_not_atomic_witness :
  (let (w', o) := run (stopBot 5)
                      (sample_world [(5, handle5)] [] [bot5] [] [0%nat]) in
   o = Returned false /\ runningBots w' = [] /\ bots w' = [bot5])
  /\ (let (w', o) := run (undeployWebsite 5)
                         (sample_world [] [(5, deployed5)] [] [site5] [0%nat]) in
      o = Returned false /\ deployedWebsites w' = [] /\ websites w' = [site5]).
Proof.
  destruct (stop_not_atomic (sample_world [(5, handle5)] [] [bot5] [] [0%nat]) 5)
    as (H1 & _).
  destruct (stop_not_atomic
              (sample_world [] [(5, deployed5)] [] [site5] [0%nat]) 5)
    as (_ & H2).
  specialize (H1 eq_refl eq_refl). specialize (H2 eq_refl eq_refl).
  split.
  - destruct (run (stopBot 5) _) as [w' o] eqn:E.
    destruct H1 as (Ho & _ & _ & Hb).
    repeat split; auto.
    apply (f_equal (fun p => runningBots (fst p))) in E. exact (eq_sym E).
  - destruct (run (undeployWebsite 5) _) as [w' o] eqn:E.
    destruct H2 as (Ho & _ & _ & Hb).
    repeat split; auto.
    apply (f_equal (fun p => deployedWebsites (fst p))) in E. exact (eq_sym E).
Defined.

(** C3, as stated, fails: bot 5 has no handle and the write persisting
    [running] is rejected; the call returns false and the record is marked
    [error], but the registry is not left as it was. *)
Lemma start_failure_leaves_handle :
  ~ (JsMap.has 5 (runningBots (sample_world [] [] [bot5] [] [0%nat])) = false ->
     db_fault (sample_world [] [] [bot5] [] [0%nat])
              (db_calls (sample_world [] [] [bot5] [] [0%nat])) = true ->
     let (w', o) := run (startBot 5 "uploads/bots/5.zip" (ConfigColumn None))
                        (sample_world [] [] [bot5] [] [0%nat]) in
     o = Returned false
     /\ Forall (fun r => bot_id r = 5 -> bot_status r = "error") (bots w')
     /\ JsMap.has 5 (runningBots w') = false
     /\ runningBots w' = runningBots (sample_world [] [] [bot5] [] [0%nat])).
Proof.
  intros H. specialize (H eq_refl eq_refl).
  vm_compute in H. destruct H as (_ & _ & H & _). discriminate H.
Qed.

(** C3, amended.  When the id has no handle, the write persisting the
    active status is rejected and the following write is accepted, [start]
    returns false (no deployment for a website) and every record of the id
    is marked [error]; the handle appended before the first write stays in
    the registry. *)
Theorem start_store_failure (w : World) (id : Z) (filePath : string)
    (config : botConfig) (domain : option string) :
  (JsMap.has id (runningBots w) = false ->
   db_fault w (db_calls w) = true ->
   db_fault w (S (db_calls w)) = false ->
   let (w', o) := run (startBot id filePath config) w in
   o = Returned false
   /\ bots w' = sql_update_bot "error" id (clock w) (bots w)
   /\ Forall (fun r => bot_id r = id -> bot_status r = "error") (bots w')
   /\ runningBots w' = (runningBots w ++ [(id, new_botProcess id w)])%list
   /\ JsMap.get id (runningBots w') = Some (new_botProcess id w))
  /\ (JsMap.has id (deployedWebsites w) = false ->
      db_fault w (db_calls w) = true ->
      db_fault w (S (db_calls w)) = false ->
      let (w', o) := run (deployWebsite id filePath domain) w in
      o = Returned None
      /\ websites w' = sql_update_website "error" id (clock w) (websites w)
      /\ Forall (fun r => website_id r = id -> website_status r = "error")
                (websites w')
      /\ deployedWebsites w'
         = (deployedWebsites w ++ [(id, new_deployment id domain w)])%list
      /\ JsMap.get id (deployedWebsites w') = Some (new_deployment id domain w)).
Proof.
  rewrite run_startBot, run_deployWebsite. split.
  - intros H -> ->. rewrite H. cbv zeta. cbn.
    rewrite (JsMapFacts.set_fresh _ _ _ H).
    repeat split; [apply sql_update_bot_status|now apply get_after_insert].
  - intros H -> ->. rewrite H. cbv zeta. cbn.
    rewrite (JsMapFacts.set_fresh _ _ _ H).
    repeat split; [apply sql_update_website_status|now apply get_after_insert].
Qed.

Lemma start_store_failure_witness :
  (let (w', o) := run (startBot 5 "uploads/bots/5.zip" (ConfigColumn None))
                      (sample_world [] [] [bot5] [] [0%nat]) in
   o = Returned false
   /\ Forall (fun r => bot_id r = 5 -> bot_status r = "error") (bots w')
   /\ JsMap.has 5 (runningBots w') = true)
  /\ (let (w', o) := run (deployWebsite 5 "uploads/websites/5.zip" None)
                         (sample_world [] [] [] [site5] [0%nat]) in
      o = Returned None
      /\ Forall (fun r => website_id r = 5 -> website_status r = "error")
                (websites w')
      /\ JsMap.has 5 (deployedWebsites w') = true).
Proof.
  destruct (start_store_failure (sample_world [] [] [bot5] [] [0%nat]) 5
              "uploads/bots/5.zip" (ConfigColumn None) None) as (H1 & _).
  destruct (start_store_failure (sample_world [] [] [] [site5] [0%nat]) 5
              "uploads/websites/5.zip" (ConfigColumn None) None) as (_ & H2).
  specialize (H1 eq_refl eq_refl eq_refl).
  specialize (H2 eq_refl eq_refl eq_refl).
  split.
  - destruct (run (startBot 5 _ _) _) as [w' o].
    destruct H1 as (Ho & _ & Hf & _ & Hg).
    repeat split; auto. now rewrite JsMapFacts.has_get, Hg.
  - destruct (run (deployWebsite 5 _ _) _) as [w' o].
    destruct H2 as (Ho & _ & Hf & _ & Hg).
    repeat split; auto. now rewrite JsMapFacts.has_get, Hg.
Defined.

(** ** restart *)

Lemma run_setTimeout_promise (ms : Z) (w : World) :
  0 <= ms ->
  run (await (setTimeout_promise ms)) w = (with_clock (clock w + ms) w, Returned tt).
Proof.
  intros H. rewrite run_await. unfold setTimeout_promise. cbn.
  now rewrite Z.max_r by lia.
Qed.

Lemma stopBot_returns (id : Z) (w : World) :
  exists b, snd (run (stopBot id) w) = Returned b.
Proof.
  rewrite run_stopBot.
  destruct (JsMap.has id (runningBots w)); cbv zeta;
    [destruct (db_fault w (db_calls w))|]; cbn; eauto.
Qed.

Lemma run_restartBot (id : Z) (filePath : string) (config : botConfig)
    (w : World) :
  run (restartBot id filePath config) w
  = run (startBot id filePath config)
        (with_clock (clock (fst (run (stopBot id) w)) + 2000)
                    (fst (run (stopBot id) w))).
Proof.
  unfold restartBot. rewrite run_bind, run_await.
  destruct (stopBot_returns id w) as [b Hb].
  destruct (run (stopBot id) w) as [w1 o]. cbn [fst snd] in *. subst o.
  rewrite run_bind, run_setTimeout_promise by lia.
  now rewrite run_await.
Qed.

(** C7.  [restart] is [stop], then a delay of 2000 ms, then [start], and
    its result is the result of that [start]; [stop] cannot make it fail.
    When there is no handle to stop, [stop] returns false and changes
    nothing, and [start] is attempted all the same: a handle for the id is
    registered afterwards. *)
Theorem restart_stop_delay_start (w : World) (id : Z) (filePath : string)
    (config : botConfig) :
  let (w1, stopped) := run (stopBot id) w in
  (exists b, stopped = Returned b)
  /\ run (restartBot id filePath config) w
     = run (startBot id filePath config) (with_clock (clock w1 + 2000) w1)
  /\ (JsMap.has id (runningBots w) = false ->
      stopped = Returned false
      /\ w1 = w
      /\ let (w', o) := run (restartBot id filePath config) w in
         JsMap.get id (runningBots w')
         = Some (new_botProcess id (with_clock (clock w + 2000) w))
         /\ (db_fault w (db_calls w) = false -> o = Returned true)).
Proof.
  pose proof (stopBot_returns id w) as Hret.
  pose proof (run_restartBot id filePath config w) as Hre.
  pose proof (run_stopBot id w) as Hstop.
  destruct (run (stopBot id) w) as [w1 stopped]. cbn [fst snd] in *.
  split; [exact Hret|]. split; [exact Hre|].
  intros H. rewrite H in Hstop. injection Hstop as -> ->.
  split; [reflexivity|]. split; [reflexivity|].
  rewrite Hre, run_startBot. cbn [runningBots with_clock]. rewrite H. cbv zeta.
  cbn [db_fault db_calls with_clock].
  destruct (db_fault w (db_calls w));
    [destruct (db_fault w (S (db_calls w)))|]; cbn;
    (split; [apply JsMapFacts.get_set_eq|]); intros; congruence.
Qed.

Lemma restart_stop_delay_start_witness :
  let (w', o) := run (restartBot 5 "" ConfigEmptyObject)
                     (sample_world [] [] [bot5] [] []) in
  JsMap.get 5 (runningBots w') = Some (BotProcess 5 3000 "running" 5000)
  /\ o = Returned true.
Proof.
  pose proof (restart_stop_delay_start (sample_world [] [] [bot5] [] []) 5 ""
                ConfigEmptyObject) as H.
  destruct (run (stopBot 5) _) as [w1 stopped].
  destruct H as (_ & _ & H). specialize (H eq_refl).
  destruct H as (_ & _ & H).
  destruct (run (restartBot 5 "" ConfigEmptyObject) _) as [w' o].
  destruct H as (Hg & Ho). split; [exact Hg|]. apply Ho. reflexivity.
Defined.

(** ** The deployment status check *)

Arguments restartBot : simpl never.

Lemma run_db_all {R} (select : World -> list R)
    (callback : Error + list R -> Async unit) (w : World) :
  run (db_all select callback) w =
  if db_fault w (db_calls w)
  then run (callback (inl (DbError (db_calls w)))) (next_db_call w)
  else run (callback (inr (select w))) (next_db_call w).
Proof. unfold db_all. cbn. now destruct (db_fault w (db_calls w)). Qed.

Lemma run_discard {A} (m : Async A) (w : World) :
  run (await m;; mret tt) w =
  (fst (run m w),
   match snd (run m w) with
   | Returned _ => Returned tt
   | Thrown e => Thrown e
   end).
Proof.
  rewrite run_bind, run_await. now destruct (run m w) as [w1 [a|e]].
Qed.

Lemma run_heal_bot (bot : botRow) (w : World) :
  run (heal_bot bot) w
  = run (await (startBot (bot_id bot) (bot_file_path bot)
                         (ConfigColumn (bot_config bot)));; mret tt) w.
Proof.
  unfold heal_bot. rewrite run_bind, run_ask, run_discard.
  destruct (JsMap.has (bot_id bot) (runningBots w)) eqn:H; cbn [negb].
  - now rewrite startBot_present.
  - now rewrite run_discard.
Qed.

Lemma run_heal_website (website : websiteRow) (w : World) :
  run (heal_website website) w
  = run (await (deployWebsite (website_id website) (website_file_path website)
                              (website_domain website));; mret tt) w.
Proof.
  unfold heal_website. rewrite run_bind, run_ask, run_discard.
  destruct (JsMap.has (website_id website) (deployedWebsites w)) eqn:H;
    cbn [negb].
  - now rewrite deployWebsite_present.
  - now rewrite run_discard.
Qed.

Lemma run_for_of_ext {X} (l : list X) (f g : X -> Async unit) (w : World) :
  (forall x w, run (f x) w = run (g x) w) ->
  run (for_of l f) w = run (for_of l g) w.
Proof.
  intros H. revert w. induction l as [|x l IH]; intros w; [reflexivity|].
  cbn [for_of]. rewrite !run_bind, H.
  destruct (run (g x) w) as [w1 [[]|e]]; auto.
Qed.

Lemma startBot_keeps (w : World) (id : Z) (p : string) (c : botConfig)
    (k : Z) (h : botProcess) :
  JsMap.get k (runningBots w) = Some h ->
  JsMap.get k (runningBots (fst (run (startBot id p c) w))) = Some h.
Proof.
  intros Hk. destruct (JsMap.has id (runningBots w)) eqn:H.
  - now rewrite startBot_present.
  - rewrite startBot_registry by auto.
    rewrite <- (JsMapFacts.set_fresh id (new_botProcess id w)) by auto.
    rewrite JsMapFacts.get_set_ne; auto.
    intros ->. rewrite JsMapFacts.has_get, Hk in H. discriminate.
Qed.

Lemma deployWebsite_keeps (w : World) (id : Z) (p : string)
    (d : option string) (k : Z) (h : deployment) :
  JsMap.get k (deployedWebsites w) = Some h ->
  JsMap.get k (deployedWebsites (fst (run (deployWebsite id p d) w))) = Some h.
Proof.
  intros Hk. destruct (JsMap.has id (deployedWebsites w)) eqn:H.
  - now rewrite deployWebsite_present.
  - rewrite deployWebsite_registry by auto.
    rewrite <- (JsMapFacts.set_fresh id (new_deployment id d w)) by auto.
    rewrite JsMapFacts.get_set_ne; auto.
    intros ->. rewrite JsMapFacts.has_get, Hk in H. discriminate.
Qed.

(** [startBot] touches neither the website registry nor its table, and
    [deployWebsite] neither the bot registry nor its table. *)
Lemma startBot_frame (w : World) (id : Z) (p : string) (c : botConfig) :
  deployedWebsites (fst (run (startBot id p c) w)) = deployedWebsites w
  /\ websites (fst (run (startBot id p c) w)) = websites w
  /\ db_fault (fst (run (startBot id p c) w)) = db_fault w
  /\ (db_calls w <= db_calls (fst (run (startBot id p c) w)))%nat.
Proof.
  rewrite run_startBot. destruct (JsMap.has id (runningBots w)); cbv zeta;
    [|destruct (db_fault w (db_calls w));
      [destruct (db_fault w (S (db_calls w)))|]]; cbn; auto with lia.
Qed.

Lemma deployWebsite_frame (w : World) (id : Z) (p : string) (d : option string) :
  runningBots (fst (run (deployWebsite id p d) w)) = runningBots w
  /\ bots (fst (run (deployWebsite id p d) w)) = bots w
  /\ db_fault (fst (run (deployWebsite id p d) w)) = db_fault w
  /\ (db_calls w <= db_calls (fst (run (deployWebsite id p d) w)))%nat.
Proof.
  rewrite run_deployWebsite. destruct (JsMap.has id (deployedWebsites w));
    cbv zeta;
    [|destruct (db_fault w (db_calls w));
      [destruct (db_fault w (S (db_calls w)))|]]; cbn; auto with lia.
Qed.

Lemma db_healthy_later (w w' : World) :
  db_fault w' = db_fault w -> (db_calls w <= db_calls w')%nat ->
  db_healthy w -> db_healthy w'.
Proof.
  unfold db_healthy. intros Hf Hc H n Hn. rewrite Hf. apply H. lia.
Qed.

Lemma startBot_healthy (w : World) (id : Z) (p : string) (c : botConfig) :
  db_healthy w -> exists b, snd (run (startBot id p c) w) = Returned b.
Proof.
  intros H. rewrite run_startBot.
  destruct (JsMap.has id (runningBots w)); cbv zeta; [cbn; eauto|].
  rewrite (H (db_calls w)) by lia. cbn; eauto.
Qed.

Lemma deployWebsite_healthy (w : World) (id : Z) (p : string)
    (d : option string) :
  db_healthy w -> exists b, snd (run (deployWebsite id p d) w) = Returned b.
Proof.
  intros H. rewrite run_deployWebsite.
  destruct (JsMap.has id (deployedWebsites w)); cbv zeta; [cbn; eauto|].
  rewrite (H (db_calls w)) by lia. cbn; eauto.
Qed.

Lemma has_of_get {V} (k : Z) (m : JsMap.t V) :
  JsMap.has k m = true <-> exists h, JsMap.get k m = Some h.
Proof.
  rewrite JsMapFacts.has_get. destruct (JsMap.get k m) as [v|].
  - split; eauto.
  - split; [discriminate|]. intros [h Hh]. discriminate.
Qed.

Lemma startBot_only (w : World) (id : Z) (p : string) (c : botConfig) (k : Z) :
  JsMap.has k (runningBots (fst (run (startBot id p c) w))) = true ->
  JsMap.has k (runningBots w) = true \/ k = id.
Proof.
  destruct (JsMap.has id (runningBots w)) eqn:H.
  - rewrite startBot_present by auto. auto.
  - rewrite startBot_registry by auto.
    rewrite <- (JsMapFacts.set_fresh id (new_botProcess id w)) by auto.
    destruct (Z.eq_dec id k) as [->|Hne]; [auto|].
    rewrite JsMapFacts.has_set_ne by auto. auto.
Qed.

Lemma deployWebsite_only (w : World) (id : Z) (p : string) (d : option string)
    (k : Z) :
  JsMap.has k (deployedWebsites (fst (run (deployWebsite id p d) w))) = true ->
  JsMap.has k (deployedWebsites w) = true \/ k = id.
Proof.
  destruct (JsMap.has id (deployedWebsites w)) eqn:H.
  - rewrite deployWebsite_present by auto. auto.
  - rewrite deployWebsite_registry by auto.
    rewrite <- (JsMapFacts.set_fresh id (new_deployment id d w)) by auto.
    destruct (Z.eq_dec id k) as [->|Hne]; [auto|].
    rewrite JsMapFacts.has_set_ne by auto. auto.
Qed.

(** The loop over the selected bots, whatever the database does. *)
Lemma heal_bots_keeps (rows : list botRow) (w : World) :
  let w' := fst (run (for_of rows heal_bot) w) in
  (forall k h, JsMap.get k (runningBots w) = Some h ->
               JsMap.get k (runningBots w') = Some h)
  /\ deployedWebsites w' = deployedWebsites w
  /\ websites w' = websites w
  /\ db_fault w' = db_fault w
  /\ (db_calls w <= db_calls w')%nat.
Proof.
  revert w. induction rows as [|r rows IH]; intros w; cbn [for_of].
  - cbn. auto.
  - rewrite run_bind, run_heal_bot, run_discard.
    pose proof (startBot_keeps w (bot_id r) (bot_file_path r)
                  (ConfigColumn (bot_config r))) as Hk.
    destruct (startBot_frame w (bot_id r) (bot_file_path r)
                (ConfigColumn (bot_config r))) as (F1 & F2 & F3 & F4).
    destruct (run (startBot _ _ _) w) as [w1 [b|e]]; cbn [fst snd] in *.
    + destruct (IH w1) as (I1 & I2 & I3 & I4 & I5).
      repeat split; try congruence; try lia. intros k h Hg. auto.
    + repeat split; auto.
Qed.

Lemma heal_websites_keeps (rows : list websiteRow) (w : World) :
  let w' := fst (run (for_of rows heal_website) w) in
  (forall k h, JsMap.get k (deployedWebsites w) = Some h ->
               JsMap.get k (deployedWebsites w') = Some h)
  /\ runningBots w' = runningBots w
  /\ bots w' = bots w
  /\ db_fault w' = db_fault w
  /\ (db_calls w <= db_calls w')%nat.
Proof.
  revert w. induction rows as [|r rows IH]; intros w; cbn [for_of].
  - cbn. auto.
  - rewrite run_bind, run_heal_website, run_discard.
    pose proof (deployWebsite_keeps w (website_id r) (website_file_path r)
                  (website_domain r)) as Hk.
    destruct (deployWebsite_frame w (website_id r) (website_file_path r)
                (website_domain r)) as (F1 & F2 & F3 & F4).
    destruct (run (deployWebsite _ _ _) w) as [w1 [b|e]]; cbn [fst snd] in *.
    + destruct (IH w1) as (I1 & I2 & I3 & I4 & I5).
      repeat split; try congruence; try lia. intros k h Hg. auto.
    + repeat split; auto.
Qed.

(** The loop over the selected bots when the database is healthy. *)
Lemma heal_bots_heals (rows : list botRow) (w : World) :
  db_healthy w ->
  let (w', o) := run (for_of rows heal_bot) w in
  o = Returned tt
  /\ (forall r, In r rows -> JsMap.has (bot_id r) (runningBots w') = true)
  /\ (forall k, JsMap.has k (runningBots w') = true ->
                JsMap.has k (runningBots w) = true
                \/ exists r, In r rows /\ bot_id r = k).
Proof.
  revert w. induction rows as [|r rows IH]; intros w Hw; cbn [for_of].
  - cbn. repeat split; auto; try (intros ? []); contradiction.
  - rewrite run_bind, run_heal_bot, run_discard.
    pose proof (startBot_has w (bot_id r) (bot_file_path r)
                  (ConfigColumn (bot_config r))) as Hhas.
    pose proof (startBot_only w (bot_id r) (bot_file_path r)
                  (ConfigColumn (bot_config r))) as Honly.
    destruct (startBot_frame w (bot_id r) (bot_file_path r)
                (ConfigColumn (bot_config r))) as (_ & _ & F3 & F4).
    destruct (startBot_healthy w (bot_id r) (bot_file_path r)
                (ConfigColumn (bot_config r)) Hw) as [b Hb].
    destruct (run (startBot _ _ _) w) as [w1 o1]; cbn [fst snd] in *.
    subst o1. specialize (IH w1 (db_healthy_later _ _ F3 F4 Hw)).
    destruct (heal_bots_keeps rows w1) as (K & _).
    destruct (run (for_of rows heal_bot) w1) as [w' o]. cbn [fst] in K.
    destruct IH as (Ho & Hall & Hone). split; [exact Ho|]. split.
    + intros r' [<-|Hin]; [|auto].
      apply has_of_get in Hhas as [h Hh]. apply has_of_get. eauto.
    + intros k Hk. destruct (Hone k Hk) as [H1|[r' [Hin Hr']]].
      * destruct (Honly k H1) as [H0| ->]; [auto|].
        right. exists r. split; [now left|reflexivity].
      * right. exists r'. split; [now right|assumption].
Qed.

Lemma heal_websites_heals (rows : list websiteRow) (w : World) :
  db_healthy w ->
  let (w', o) := run (for_of rows heal_website) w in
  o = Returned tt
  /\ (forall r, In r rows -> JsMap.has (website_id r) (deployedWebsites w') = true)
  /\ (forall k, JsMap.has k (deployedWebsites w') = true ->
                JsMap.has k (deployedWebsites w) = true
                \/ exists r, In r rows /\ website_id r = k).
Proof.
  revert w. induction rows as [|r rows IH]; intros w Hw; cbn [for_of].
  - cbn. repeat split; auto; try (intros ? []); contradiction.
  - rewrite run_bind, run_heal_website, run_discard.
    pose proof (deployWebsite_has w (website_id r) (website_file_path r)
                  (website_domain r)) as Hhas.
    pose proof (deployWebsite_only w (website_id r) (website_file_path r)
                  (website_domain r)) as Honly.
    destruct (deployWebsite_frame w (website_id r) (website_file_path r)
                (website_domain r)) as (_ & _ & F3 & F4).
    destruct (deployWebsite_healthy w (website_id r) (website_file_path r)
                (website_domain r) Hw) as [b Hb].
    destruct (run (deployWebsite _ _ _) w) as [w1 o1]; cbn [fst snd] in *.
    subst o1. specialize (IH w1 (db_healthy_later _ _ F3 F4 Hw)).
    destruct (heal_websites_keeps rows w1) as (K & _).
    destruct (run (for_of rows heal_website) w1) as [w' o]. cbn [fst] in K.
    destruct IH as (Ho & Hall & Hone). split; [exact Ho|]. split.
    + intros r' [<-|Hin]; [|auto].
      apply has_of_get in Hhas as [h Hh]. apply has_of_get. eauto.
    + intros k Hk. destruct (Hone k Hk) as [H1|[r' [Hin Hr']]].
      * destruct (Honly k H1) as [H0| ->]; [auto|].
        right. exists r. split; [now left|reflexivity].
      * right. exists r'. split; [now right|assumption].
Qed.

Lemma run_checkRunningBots (w : World) :
  run checkRunningBots w =
  if db_fault w (db_calls w) then (next_db_call w, Returned tt)
  else run (for_of (sql_select_bots "running" (bots w)) heal_bot)
           (next_db_call w).
Proof. unfold checkRunningBots. now rewrite run_db_all. Qed.

Lemma run_checkActiveWebsites (w : World) :
  run checkActiveWebsites w =
  if db_fault w (db_calls w) then (next_db_call w, Returned tt)
  else run (for_of (sql_select_websites "active" (websites w)) heal_website)
           (next_db_call w).
Proof. unfold checkActiveWebsites. now rewrite run_db_all. Qed.

Lemma In_sql_select_bots (status : string) (t : list botRow) (r : botRow) :
  In r (sql_select_bots status t) <-> In r t /\ bot_status r = status.
Proof.
  unfold sql_select_bots. rewrite filter_In, String.eqb_eq. tauto.
Qed.

Lemma In_sql_select_websites (status : string) (t : list websiteRow)
    (r : websiteRow) :
  In r (sql_select_websites status t) <-> In r t /\ website_status r = status.
Proof.
  unfold sql_select_websites. rewrite filter_In, String.eqb_eq. tauto.
Qed.

Lemma db_healthy_next (w : World) : db_healthy w -> db_healthy (next_db_call w).
Proof. apply db_healthy_later; cbn; auto. Qed.

Lemma checkRunningBots_keeps (w : World) :
  let w' := fst (run checkRunningBots w) in
  (forall k h, JsMap.get k (runningBots w) = Some h ->
               JsMap.get k (runningBots w') = Some h)
  /\ deployedWebsites w' = deployedWebsites w
  /\ websites w' = websites w
  /\ db_fault w' = db_fault w
  /\ (db_calls w <= db_calls w')%nat.
Proof.
  rewrite run_checkRunningBots. destruct (db_fault w (db_calls w)).
  - cbn [fst next_db_call runningBots deployedWebsites websites db_fault
         db_calls]. repeat split; auto.
  - destruct (heal_bots_keeps (sql_select_bots "running" (bots w))
                (next_db_call w)) as (K1 & K2 & K3 & K4 & K5).
    cbn in K5. repeat split; auto. lia.
Qed.

Lemma checkActiveWebsites_keeps (w : World) :
  let w' := fst (run checkActiveWebsites w) in
  (forall k h, JsMap.get k (deployedWebsites w) = Some h ->
               JsMap.get k (deployedWebsites w') = Some h)
  /\ runningBots w' = runningBots w
  /\ bots w' = bots w.
Proof.
  rewrite run_checkActiveWebsites. destruct (db_fault w (db_calls w)).
  - cbn [fst next_db_call runningBots deployedWebsites bots]. auto.
  - destruct (heal_websites_keeps (sql_select_websites "active" (websites w))
                (next_db_call w)) as (K1 & K2 & K3 & _).
    repeat split; auto.
Qed.

(** C4.  The deployment status check selects the bots whose status is
    [running] and the websites whose status is [active] and goes through
    them in order, each iteration amounting to a [start] call with the id,
    file path and config (domain for a website) of the record.  It never
    removes or replaces a handle that was registered before.  When the
    database is healthy during the cycle, both callbacks complete, every
    selected record has a handle afterwards, and a handle is registered
    only for an id that had one or belongs to a selected record. *)
Theorem reconciliation_heals (w : World) :
  run checkRunningBots w
  = run (db_all (fun w => sql_select_bots "running" (bots w)) (fun res =>
           match res with
           | inl err => mret tt
           | inr rows =>
             for_of rows (fun r =>
               await (startBot (bot_id r) (bot_file_path r)
                               (ConfigColumn (bot_config r)));; mret tt)
           end)) w
  /\ run checkActiveWebsites w
     = run (db_all (fun w => sql_select_websites "active" (websites w))
              (fun res =>
                 match res with
                 | inl err => mret tt
                 | inr rows =>
                   for_of rows (fun r =>
                     await (deployWebsite (website_id r) (website_file_path r)
                                          (website_domain r));; mret tt)
                 end)) w
  /\ let (w', outs) := run_detached cron_deployment_status_check w in
     (forall k h, JsMap.get k (runningBots w) = Some h ->
                  JsMap.get k (runningBots w') = Some h)
     /\ (forall k h, JsMap.get k (deployedWebsites w) = Some h ->
                     JsMap.get k (deployedWebsites w') = Some h)
     /\ (db_healthy w ->
         outs = [Returned tt; Returned tt]
         /\ (forall r, In r (bots w) -> bot_status r = "running" ->
                       JsMap.has (bot_id r) (runningBots w') = true)
         /\ (forall r, In r (websites w) -> website_status r = "active" ->
                       JsMap.has (website_id r) (deployedWebsites w') = true)
         /\ (forall k, JsMap.has k (runningBots w') = true ->
                       JsMap.has k (runningBots w) = true
                       \/ exists r, In r (bots w) /\ bot_status r = "running"
                                    /\ bot_id r = k)
         /\ (forall k, JsMap.has k (deployedWebsites w') = true ->
                       JsMap.has k (deployedWebsites w) = true
                       \/ exists r, In r (websites w)
                                    /\ website_status r = "active"
                                    /\ website_id r = k)).
Proof.
  split; [|split].
  - rewrite run_checkRunningBots, run_db_all.
    destruct (db_fault w (db_calls w)); [reflexivity|].
    apply run_for_of_ext. intros; apply run_heal_bot.
  - rewrite run_checkActiveWebsites, run_db_all.
    destruct (db_fault w (db_calls w)); [reflexivity|].
    apply run_for_of_ext. intros; apply run_heal_website.
  - unfold cron_deployment_status_check. cbn [run_detached].
    destruct (checkRunningBots_keeps w) as (B1 & B2 & B3 & B4 & B5).
    pose proof (run_checkRunningBots w) as Rb.
    destruct (run checkRunningBots w) as [w1 o1]. cbn [fst] in *.
    destruct (checkActiveWebsites_keeps w1) as (S1 & S2 & S3).
    pose proof (run_checkActiveWebsites w1) as Rs.
    destruct (run checkActiveWebsites w1) as [w2 o2]. cbn [fst] in *.
    split; [intros k h Hg; rewrite S2; auto|].
    split; [intros k h Hg; apply S1; rewrite B2; auto|].
    intros Hw.
    pose proof (db_healthy_later _ _ B4 B5 Hw) as Hw1.
    rewrite (Hw (db_calls w)) in Rb by lia.
    rewrite (Hw1 (db_calls w1)) in Rs by lia.
    pose proof (heal_bots_heals (sql_select_bots "running" (bots w))
                  (next_db_call w) (db_healthy_next _ Hw)) as Hb.
    rewrite <- Rb in Hb. destruct Hb as (-> & Hb1 & Hb2).
    pose proof (heal_websites_heals (sql_select_websites "active" (websites w1))
                  (next_db_call w1) (db_healthy_next _ Hw1)) as Hs.
    rewrite <- Rs in Hs. destruct Hs as (-> & Hs1 & Hs2).
    split; [reflexivity|]. rewrite S2. rewrite B3 in Hs1, Hs2.
    repeat split.
    + intros r Hin Hst. apply Hb1, In_sql_select_bots. auto.
    + intros r Hin Hst. apply Hs1, In_sql_select_websites. auto.
    + intros k Hk. destruct (Hb2 k Hk) as [H|[r [Hin Hr]]]; [now left|].
      apply In_sql_select_bots in Hin as [Hin Hst]. right. eauto.
    + intros k Hk. destruct (Hs2 k Hk) as [H|[r [Hin Hr]]].
      * left. cbn in H. now rewrite B2 in H.
      * apply In_sql_select_websites in Hin as [Hin Hst]. right. eauto.
Qed.

Lemma sample_world_healthy (rb : JsMap.t botProcess) (dw : JsMap.t deployment)
    (tb : list botRow) (tw : list websiteRow) :
  db_healthy (sample_world rb dw tb tw []).
Proof. intros n _. reflexivity. Qed.

Lemma reconciliation_heals_witness :
  let (w', outs) :=
    run_detached cron_deployment_status_check
      (sample_world [] [] [BotRow 5 "uploads/bots/5.zip" "running" None 0]
                    [] []) in
  JsMap.has 5 (runningBots w') = true /\ outs = [Returned tt; Returned tt].
Proof.
  pose proof (reconciliation_heals
                (sample_world [] []
                   [BotRow 5 "uploads/bots/5.zip" "running" None 0] [] []))
    as (_ & _ & H).
  destruct (run_detached cron_deployment_status_check _) as [w' outs].
  destruct H as (_ & _ & H).
  destruct (H (sample_world_healthy _ _ _ _)) as (Ho & Hb & _).
  split; [|exact Ho].
  apply (Hb (BotRow 5 "uploads/bots/5.zip" "running" None 0)).
  - left. reflexivity.
  - reflexivity.
Defined.

(** ** Failures during the sweeps *)

Lemma run_for_of_total {X} (l : list X) (body : X -> Async unit) :
  (forall x w, snd (run (body x) w) = Returned tt) ->
  forall w, snd (run (for_of l body) w) = Returned tt.
Proof.
  intros H. induction l as [|x l IH]; intros w; [reflexivity|].
  cbn [for_of]. rewrite run_bind. specialize (H x w).
  destruct (run (body x) w) as [w1 o]. cbn [snd] in H. subst o. apply IH.
Qed.

(** The health check isolates every entry: whatever the database and the
    random source do, the sweep goes through the whole snapshot and
    completes normally. *)
Lemma healthCheck_completes (w : World) :
  snd (run healthCheck w) = Returned tt.
Proof.
  unfold healthCheck. rewrite run_bind. unfold getRunningBots.
  rewrite run_ask. apply run_for_of_total. clear w. intros bot w.
  rewrite run_try_catch.
  destruct (run (_ ≫= _) w) as [w1 [[]|e]]; [reflexivity|].
  rewrite run_discard.
  destruct (stopBot_returns (bp_id bot) w1) as [b Hb]. cbn [snd]. now rewrite Hb.
Qed.

Lemma cron_health_check_completes (w : World) :
  snd (run cron_health_check w) = Returned tt.
Proof.
  unfold cron_health_check. rewrite run_discard.
  now rewrite healthCheck_completes.
Qed.

(** C8 at the failing input.  Bots 5 and 6 are both recorded as running
    and neither has a handle; the SELECT succeeds, the write persisting
    [running] for bot 5 fails and so does the write marking it [error]:
    [startBot] throws out of its own catch block, the loop of the
    deployment status check is abandoned with an unhandled rejection, and
    bot 6 is never started. *)
Theorem reconciliation_abandoned :
  let (w', outs) :=
    run_detached cron_deployment_status_check
      (sample_world [] []
         [BotRow 5 "uploads/bots/5.zip" "running" None 0;
          BotRow 6 "uploads/bots/6.zip" "running" None 0]
         [] [1%nat; 2%nat]) in
  outs = [Thrown (DbError 2); Returned tt]
  /\ JsMap.has 5 (runningBots w') = true
  /\ JsMap.has 6 (runningBots w') = false.
Proof. vm_compute. repeat split. Qed.

(** ** Shutdown *)

(** [keyed_by_id] holds of the empty registry and is kept by [startBot]
    and [stopBot]: it holds of every registry the worker builds. *)
Lemma keyed_by_id_nil : keyed_by_id [].
Proof. constructor. Qed.

Lemma startBot_keyed (w : World) (id : Z) (p : string) (c : botConfig) :
  keyed_by_id (runningBots w) ->
  keyed_by_id (runningBots (fst (run (startBot id p c) w))).
Proof.
  intros H. destruct (JsMap.has id (runningBots w)) eqn:E.
  - now rewrite startBot_present.
  - rewrite startBot_registry by auto. apply Forall_app. split; [exact H|].
    now constructor.
Qed.

Lemma stopBot_keyed (w : World) (id : Z) :
  keyed_by_id (runningBots w) ->
  keyed_by_id (runningBots (fst (run (stopBot id) w))).
Proof.
  intros H. rewrite run_stopBot.
  destruct (JsMap.has id (runningBots w)); cbv zeta; [|exact H].
  assert (keyed_by_id (JsMap.delete id (runningBots w))) as Hd.
  { unfold keyed_by_id, JsMap.delete in *. rewrite Forall_forall in *.
    intros e He. apply H. apply list_elem_of_In in He.
    apply filter_In in He as [He _]. now apply list_elem_of_In. }
  destruct (db_fault w (db_calls w)); exact Hd.
Qed.

Lemma segment_stopBot (id : Z) (w : World) :
  (JsMap.has id (runningBots w) = false /\
   segment (stopBot id) w = (w, Finished (Returned false)))
  \/ (JsMap.has id (runningBots w) = true /\
      exists k, segment (stopBot id) w = (unregister_bot id w, Suspended k)
                /\ stop_pending id k).
Proof.
  unfold stopBot. cbn. rewrite JsMapFacts.has_get.
  destruct (JsMap.get id (runningBots w)); cbn.
  - right. split; [reflexivity|]. eexists. split; [reflexivity|].
    intros w2. cbn. destruct (db_fault w2 (db_calls w2)); reflexivity.
  - left. auto.
Qed.

Lemma delete_all_keys (ids : list Z) (m : JsMap.t botProcess) :
  (forall k, In k (JsMap.keys m) -> In k ids) -> delete_all ids m = [].
Proof.
  revert m. induction ids as [|id ids IH]; intros m H; cbn.
  - destruct m as [|e m]; [reflexivity|]. destruct (H (fst e)). now left.
  - apply IH. intros k Hk. rewrite JsMapFacts.keys_delete in Hk.
    apply filter_In in Hk as [Hk Hne].
    destruct (H k Hk) as [->|]; [|assumption].
    rewrite Z.eqb_refl in Hne. discriminate.
Qed.

Lemma keyed_keys (m : JsMap.t botProcess) :
  keyed_by_id m -> List.map bp_id (JsMap.values m) = JsMap.keys m.
Proof.
  unfold keyed_by_id, JsMap.values, JsMap.keys.
  induction 1 as [|e m He _ IH]; cbn; [reflexivity|]. now rewrite He, IH.
Qed.

(** The calls made by [runningBots.map(bot => botManager.stopBot(bot.id))]:
    every handle of a listed id is deleted at once, and each call that
    found a handle leaves its status write pending. *)
Lemma run_map_call_stopBot (l : list botProcess) (w : World) :
  exists w1 ps,
    run (map_call (fun bot => stopBot (bp_id bot)) l) w = (w1, Returned ps)
    /\ runningBots w1 = delete_all (List.map bp_id l) (runningBots w)
    /\ deployedWebsites w1 = deployedWebsites w
    /\ websites w1 = websites w
    /\ bots w1 = bots w
    /\ db_fault w1 = db_fault w
    /\ db_calls w1 = db_calls w
    /\ Forall stop_promise ps
    /\ (forall id, In id (List.map bp_id l) ->
                   JsMap.has id (runningBots w) = true ->
                   exists k, In (Suspended k) ps /\ stop_pending id k).
Proof.
  revert w. induction l as [|bot l IH]; intros w.
  - exists w, []. cbn. repeat split; auto. intros id [].
  - cbn [map_call List.map]. rewrite run_call.
    destruct (segment_stopBot (bp_id bot) w) as [[Hno ->]|[Hyes (k & -> & Hk)]].
    + destruct (IH w) as (w1 & ps & Hrun & R & D & W & B & F & C & P & Q).
      exists w1, (Finished (Returned false) :: ps).
      rewrite run_bind, Hrun. cbn [delete_all fold_left].
      rewrite JsMapFacts.delete_absent by auto.
      repeat split; auto.
      * constructor; [now left|assumption].
      * intros id [<-|Hin] Hhas; [congruence|].
        destruct (Q id Hin Hhas) as (k & Hk & Hp). exists k. split; [now right|auto].
    + destruct (IH (unregister_bot (bp_id bot) w))
        as (w1 & ps & Hrun & R & D & W & B & F & C & P & Q).
      exists w1, (Suspended k :: ps).
      rewrite run_bind, Hrun. cbn [delete_all fold_left].
      repeat split; auto.
      * constructor; [right; eauto|assumption].
      * intros id Hin Hhas. destruct (Z.eq_dec (bp_id bot) id) as [<-|Hne].
        { exists k. split; [now left|assumption]. }
        destruct Hin as [?|Hin]; [contradiction|].
        destruct (Q id Hin) as (k' & Hk' & Hp).
        { unfold unregister_bot. cbn [runningBots with_runningBots].
          now rewrite JsMapFacts.has_delete_ne. }
        exists k'. split; [now right|auto].
Qed.

Lemma stopped_at_write (id id0 : Z) (w : World) :
  stopped_at id w -> stopped_at id (write_bot_status "stopped" id0 w).
Proof.
  unfold stopped_at, write_bot_status, sql_update_bot. cbn.
  induction 1 as [|r t Hr _ IH]; cbn; constructor; auto.
  destruct (Z.eqb (bot_id r) id0); cbn; auto.
Qed.

Lemma stopped_at_written (id : Z) (w : World) :
  stopped_at id (write_bot_status "stopped" id w).
Proof. apply sql_update_bot_status. Qed.

(** Settling the promises of the [stopBot] calls: none rejects, the
    registries are not touched, and a record that was stopped stays
    stopped; with a healthy database every pending write takes effect. *)
Lemma run_Promise_all_stop (ps : list (progress bool)) (w : World) :
  Forall stop_promise ps ->
  exists w' bs,
    run (Promise_all ps) w = (w', Returned bs)
    /\ runningBots w' = runningBots w
    /\ deployedWebsites w' = deployedWebsites w
    /\ websites w' = websites w
    /\ (forall id, stopped_at id w -> stopped_at id w')
    /\ (db_healthy w ->
        forall id k, In (Suspended k) ps -> stop_pending id k ->
                     stopped_at id w').
Proof.
  intros H. revert w. induction H as [|p ps Hp _ IH]; intros w.
  - exists w, []. cbn. repeat split; auto. intros _ id k [].
  - cbn [Promise_all]. rewrite run_bind.
    destruct Hp as [->|(id0 & k0 & -> & Hk0)]; cbn [settle].
    + cbn [run]. destruct (IH w) as (w' & bs & Hrun & R & D & W & S1 & S2).
      exists w', (false :: bs). rewrite run_bind, Hrun. cbn.
      repeat split; auto. intros Hw id k [Hin|Hin]; [discriminate|]. eauto.
    + rewrite Hk0. destruct (db_fault w (db_calls w)) eqn:Hf.
      * destruct (IH (next_db_call w)) as (w' & bs & Hrun & R & D & W & S1 & S2).
        exists w', (false :: bs). rewrite run_bind, Hrun. cbn.
        repeat split; auto. intros Hw. rewrite (Hw (db_calls w)) in Hf by lia.
        discriminate.
      * destruct (IH (write_bot_status "stopped" id0 w))
          as (w' & bs & Hrun & R & D & W & S1 & S2).
        exists w', (true :: bs). rewrite run_bind, Hrun. cbn.
        repeat split; auto.
        { intros id Hid. now apply S1, stopped_at_write. }
        intros Hw id k [Hin|Hin] Hk.
        { injection Hin as <-. apply S1.
          pose proof (Hk w) as E. rewrite Hk0, Hf in E.
          apply (f_equal fst) in E. cbn [fst] in E. rewrite E.
          apply stopped_at_written. }
        assert (db_healthy (write_bot_status "stopped" id0 w)) as Hw2.
        { apply (db_healthy_later w); [reflexivity|cbn; lia|exact Hw]. }
        apply (S2 Hw2 id k); auto.
Qed.

(** C5, as stated, fails: with bot 5 running and website 5 deployed, the
    SIGTERM handler exits with code 0 and leaves the website registry and
    the website's record as they were. *)
Lemma sigterm_leaves_websites :
  ~ (let (w', o) :=
       run on_SIGTERM
           (sample_world [(5, handle5)] [(5, deployed5)]
              [BotRow 5 "uploads/bots/5.zip" "running" None 0]
              [WebsiteRow 5 None "uploads/websites/5.zip" "active" 0] []) in
     o = Returned 0
     /\ runningBots w' = []
     /\ deployedWebsites w' = []
     /\ Forall (fun r => bot_status r = "stopped") (bots w')
     /\ Forall (fun r => website_status r = "inactive") (websites w')).
Proof.
  vm_compute. intros (_ & _ & H & _). discriminate H.
Qed.

(** The SIGINT handler exits at once: nothing is stopped. *)
Lemma sigint_stops_nothing (w : World) : run on_SIGINT w = (w, Returned 0).
Proof. reflexivity. Qed.

(** C5, amended.  On SIGTERM the handler takes the handles of the bot
    registry and calls [stopBot] on each; no call can reject, so the drain
    is never cut short and the process exits with code 0 after all of them
    have settled.  Afterwards the bot registry is empty, a record that was
    stopped is still stopped, and, when the database is healthy, every
    record of a drained bot is persisted as stopped.  Deployed websites
    and their records are left as they were. *)
Theorem sigterm_drains_bots (w : World) :
  keyed_by_id (runningBots w) ->
  let (w', o) := run on_SIGTERM w in
  o = Returned 0
  /\ runningBots w' = []
  /\ deployedWebsites w' = deployedWebsites w
  /\ websites w' = websites w
  /\ (forall id, stopped_at id w -> stopped_at id w')
  /\ (db_healthy w ->
      forall r, In r (bots w') -> In (bot_id r) (JsMap.keys (runningBots w)) ->
                bot_status r = "stopped").
Proof.
  intros Hkeyed. unfold on_SIGTERM, getRunningBots.
  rewrite run_bind, run_ask, run_bind.
  destruct (run_map_call_stopBot (JsMap.values (runningBots w)) w)
    as (w1 & ps & -> & R1 & D1 & W1 & B1 & F1 & C1 & P & Q).
  rewrite run_try_catch, run_bind.
  destruct (run_Promise_all_stop ps w1 P)
    as (w' & bs & -> & R2 & D2 & W2 & S1 & S2).
  cbn [run mret Async_ret]. rewrite keyed_keys in R1, Q by assumption.
  repeat split.
  - rewrite R2, R1. apply delete_all_keys. auto.
  - congruence.
  - congruence.
  - intros id Hid. apply S1. unfold stopped_at in *. now rewrite B1.
  - intros Hw r Hr Hin.
    destruct (Q (bot_id r) Hin) as (k & Hk & Hp).
    { now apply JsMapFacts.has_In. }
    assert (db_healthy w1) as Hw1.
    { apply (db_healthy_later w); auto. lia. }
    pose proof (S2 Hw1 (bot_id r) k Hk Hp) as Hs.
    unfold stopped_at in Hs. rewrite Forall_forall in Hs.
    apply Hs; [now apply list_elem_of_In|reflexivity].
Qed.

Lemma sigterm_drains_bots_witness :
  let (w', o) :=
    run on_SIGTERM
        (sample_world [(5, handle5); (6, BotProcess 6 20 "running" 77)] []
           [BotRow 5 "uploads/bots/5.zip" "running" None 0;
            BotRow 6 "uploads/bots/6.zip" "running" None 0] [] []) in
  o = Returned 0
  /\ runningBots w' = []
  /\ Forall (fun r => bot_status r = "stopped") (bots w').
Proof.
  pose proof (sigterm_drains_bots
                (sample_world [(5, handle5); (6, BotProcess 6 20 "running" 77)]
                   []
                   [BotRow 5 "uploads/bots/5.zip" "running" None 0;
                    BotRow 6 "uploads/bots/6.zip" "running" None 0] [] []))
    as H.
  assert (keyed_by_id [(5, handle5); (6, BotProcess 6 20 "running" 77)]) as K.
  { repeat constructor. }
  specialize (H K).
  destruct (run on_SIGTERM _) as [w' o] eqn:E.
  destruct H as (Ho & Hr & _ & _ & _ & Hs).
  split; [exact Ho|]. split; [exact Hr|].
  specialize (Hs (sample_world_healthy _ _ _ _)).
  assert (List.map bot_id (bots w') = [5; 6]) as Hids.
  { apply (f_equal (fun p => List.map bot_id (bots (fst p)))) in E.
    symmetry. exact E. }
  apply Forall_forall. intros r Hr'. apply list_elem_of_In in Hr'.
  apply Hs; [exact Hr'|].
  apply (in_map bot_id) in Hr'. rewrite Hids in Hr'. exact Hr'.
Defined.

(** ** Backup names are ordered as their timestamps *)

Module BackupNames.
Import Backup.

Lemma ascii_compare_refl (c : ascii) : Ascii.compare c c = Eq.
Proof. unfold Ascii.compare. apply N.compare_refl. Qed.

Lemma append_cons (c : ascii) (p a : string) :
  String c p +:+ a = String c (p +:+ a).
Proof. reflexivity. Qed.

Lemma append_nil (a : string) : "" +:+ a = a.
Proof. reflexivity. Qed.

Lemma compare_cons (c c' : ascii) (a b : string) :
  String.compare (String c a) (String c' b)
  = lex (Ascii.compare c c') (String.compare a b).
Proof. cbn -[Ascii.compare]. now destruct (Ascii.compare c c'). Qed.

Lemma string_compare_refl (s : string) : String.compare s s = Eq.
Proof.
  induction s as [|c s IH]; [reflexivity|].
  now rewrite compare_cons, ascii_compare_refl.
Qed.

Lemma compare_append_prefix (p a b : string) :
  String.compare (p +:+ a) (p +:+ b) = String.compare a b.
Proof.
  induction p as [|c p IH]; [reflexivity|].
  now rewrite !append_cons, compare_cons, ascii_compare_refl.
Qed.

Lemma compare_append_fields (a b x y : string) :
  String.length a = String.length b ->
  String.compare (a +:+ x) (b +:+ y)
  = lex (String.compare a b) (String.compare x y).
Proof.
  revert b. induction a as [|c a IH]; intros [|c' b] H; try discriminate.
  - reflexivity.
  - rewrite !append_cons, !compare_cons. cbn in H.
    rewrite IH by congruence. now destruct (Ascii.compare c c').
Qed.

Lemma length_append (a b : string) :
  String.length (a +:+ b) = (String.length a + String.length b)%nat.
Proof.
  induction a as [|c a IH]; [reflexivity|].
  rewrite append_cons. cbn. now rewrite IH.
Qed.

Lemma length_pad (k : nat) (n : Z) : String.length (pad k n) = k.
Proof.
  revert n. induction k as [|k IH]; intros n; cbn [pad]; [reflexivity|].
  rewrite length_append, IH. cbn. lia.
Qed.

Lemma compare_digit (d e : Z) :
  0 <= d <= 9 -> 0 <= e <= 9 ->
  Ascii.compare (digit d) (digit e) = Z.compare d e.
Proof.
  intros Hd He. unfold Ascii.compare, digit.
  rewrite !N_ascii_embedding by lia.
  destruct (Z.compare_spec d e) as [H|H|H];
    [apply N.compare_eq_iff|apply N.compare_lt_iff|apply N.compare_gt_iff];
    lia.
Qed.

Lemma mod_10_digit (n : Z) : 0 <= n mod 10 <= 9.
Proof. pose proof (Z.mod_pos_bound n 10 ltac:(lia)). lia. Qed.

Lemma compare_div_mod (n m : Z) :
  Z.compare n m = lex (Z.compare (n / 10) (m / 10))
                      (Z.compare (n mod 10) (m mod 10)).
Proof.
  pose proof (Z.div_mod n 10 ltac:(lia)) as Hn.
  pose proof (Z.div_mod m 10 ltac:(lia)) as Hm.
  pose proof (Z.mod_pos_bound n 10 ltac:(lia)) as Bn.
  pose proof (Z.mod_pos_bound m 10 ltac:(lia)) as Bm.
  destruct (Z.compare_spec (n / 10) (m / 10)) as [H|H|H]; cbn [lex].
  - destruct (Z.compare_spec (n mod 10) (m mod 10)) as [H'|H'|H'];
      [apply Z.compare_eq_iff|apply Z.compare_lt_iff|apply Z.compare_gt_iff];
      lia.
  - apply Z.compare_lt_iff. lia.
  - apply Z.compare_gt_iff. lia.
Qed.

Lemma compare_pad (k : nat) (n m : Z) :
  0 <= n < 10 ^ Z.of_nat k -> 0 <= m < 10 ^ Z.of_nat k ->
  String.compare (pad k n) (pad k m) = Z.compare n m.
Proof.
  revert n m. induction k as [|k IH]; intros n m Hn Hm.
  - cbn in *. symmetry. apply Z.compare_eq_iff. lia.
  - cbn [pad]. rewrite compare_append_fields by now rewrite !length_pad.
    replace (Z.of_nat (S k)) with (Z.succ (Z.of_nat k)) in Hn, Hm by lia.
    rewrite Z.pow_succ_r in Hn, Hm by lia.
    rewrite IH.
    + rewrite compare_cons.
      rewrite compare_digit by apply mod_10_digit.
      rewrite (compare_div_mod n m).
      cbn. now destruct (n mod 10 ?= m mod 10)%Z.
    + split; [apply Z.div_pos; lia|apply Z.div_lt_upper_bound; lia].
    + split; [apply Z.div_pos; lia|apply Z.div_lt_upper_bound; lia].
Qed.

Lemma replace_append (a b : string) :
  replace_colon_dot (a +:+ b) = replace_colon_dot a +:+ replace_colon_dot b.
Proof.
  induction a as [|c a IH]; [reflexivity|].
  rewrite append_cons. cbn [replace_colon_dot]. now rewrite IH, append_cons.
Qed.

Lemma replace_digit (d : Z) :
  0 <= d <= 9 ->
  (if Ascii.eqb (digit d) ":" || Ascii.eqb (digit d) "." then "-"%char
   else digit d) = digit d.
Proof.
  intros H.
  assert (d = 0 \/ d = 1 \/ d = 2 \/ d = 3 \/ d = 4 \/ d = 5 \/ d = 6
          \/ d = 7 \/ d = 8 \/ d = 9) as Hd by lia.
  repeat (destruct Hd as [->|Hd]; [reflexivity|]). now subst.
Qed.

Lemma replace_pad (k : nat) (n : Z) : replace_colon_dot (pad k n) = pad k n.
Proof.
  revert n. induction k as [|k IH]; intros n; cbn [pad]; [reflexivity|].
  rewrite replace_append, IH. cbn [replace_colon_dot].
  now rewrite replace_digit by apply mod_10_digit.
Qed.

Lemma backup_name_stamp (d : Date) :
  valid d -> backup_name d = "database-backup-" +:+ stamp d +:+ ".sqlite".
Proof.
  intros (Hy & _). unfold backup_name, toISOString, stamp.
  destruct (Z.leb_spec 0 (year d)); [|lia].
  destruct (Z.leb_spec (year d) 9999); [|lia]. cbn [andb].
  now rewrite !replace_append, !replace_pad.
Qed.

Lemma lex_assoc (a b c : comparison) : lex (lex a b) c = lex a (lex b c).
Proof. now destruct a. Qed.

Lemma compare_stamp (a b : Date) :
  valid a -> valid b -> String.compare (stamp a) (stamp b) = Date_compare a b.
Proof.
  intros (Ay & Am & Ad & Ah & Ai & As & Al) (By & Bm & Bd & Bh & Bi & Bs & Bl).
  unfold stamp, Date_compare.
  repeat first
    [ rewrite compare_append_fields by now rewrite !length_pad
    | rewrite (compare_append_prefix "-")
    | rewrite (compare_append_prefix "T") ].
  rewrite !compare_pad by (cbn; lia).
  f_equal. f_equal. f_equal. f_equal. f_equal. f_equal.
  now destruct (milliseconds a ?= milliseconds b)%Z.
Qed.

Lemma compare_backup_name (a b : Date) :
  valid a -> valid b ->
  String.compare (backup_name a) (backup_name b) = Date_compare a b.
Proof.
  intros Ha Hb. rewrite !backup_name_stamp by assumption.
  rewrite compare_append_prefix.
  rewrite compare_append_fields.
  - rewrite compare_stamp by assumption. now destruct (Date_compare a b).
  - unfold stamp. now rewrite !length_append, !length_pad.
Qed.

Lemma is_backup_name (d : Date) : is_backup (backup_name d) = true.
Proof.
  unfold is_backup, backup_name.
  generalize (replace_colon_dot (toISOString d) +:+ ".sqlite").
  intros rest. now destruct rest.
Qed.

Lemma Date_compare_eq (a b : Date) : Date_compare a b = Eq -> a = b.
Proof.
  destruct a, b. unfold Date_compare. cbn.
  repeat match goal with
         | |- lex (?x ?= ?y)%Z _ = Eq -> _ =>
           destruct (Z.compare_spec x y); cbn [lex]; try discriminate
         | |- (?x ?= ?y)%Z = Eq -> _ =>
           destruct (Z.compare_spec x y); try discriminate
         end.
  intros _. congruence.
Qed.

Lemma Date_compare_refl (a : Date) : Date_compare a a = Eq.
Proof. unfold Date_compare. now rewrite !Z.compare_refl. Qed.

Lemma backup_name_inj (a b : Date) :
  valid a -> valid b -> backup_name a = backup_name b -> a = b.
Proof.
  intros Ha Hb H. apply Date_compare_eq.
  rewrite <- compare_backup_name by assumption.
  rewrite H. apply string_compare_refl.
Qed.

End BackupNames.

(** ** The order used by [sort()] *)

Module BackupOrder.
Import Backup BackupNames.

Lemma leb_compare (a b : string) :
  String.leb a b = true <-> String.compare a b <> Gt.
Proof.
  unfold String.leb. destruct (String.compare a b); split; congruence.
Qed.

Lemma ascii_compare_N (c d : ascii) :
  Ascii.compare c d = N.compare (N_of_ascii c) (N_of_ascii d).
Proof. reflexivity. Qed.

Lemma ascii_compare_eq (c d : ascii) : Ascii.compare c d = Eq -> c = d.
Proof. apply Ascii.compare_eq_iff. Qed.

Lemma string_compare_trans (a b c : string) :
  String.compare a b <> Gt -> String.compare b c <> Gt ->
  String.compare a c <> Gt.
Proof.
  revert b c. induction a as [|x a IH]; intros [|y b] [|z c];
    try (cbn; congruence).
  rewrite !compare_cons, !ascii_compare_N.
  destruct (N.compare_spec (N_of_ascii x) (N_of_ascii y)) as [E1|L1|G1];
    destruct (N.compare_spec (N_of_ascii y) (N_of_ascii z)) as [E2|L2|G2];
    cbn [lex]; try congruence.
  - rewrite E1, E2, N.compare_refl. cbn [lex]. apply IH.
  - intros _ _. rewrite E1. apply N.compare_lt_iff in L2. now rewrite L2.
  - intros _ _. rewrite <- E2. apply N.compare_lt_iff in L1. now rewrite L1.
  - intros _ _. assert (N_of_ascii x < N_of_ascii z)%N as L by lia.
    apply N.compare_lt_iff in L. now rewrite L.
Qed.

#[global] Instance string_le_total : Total string_le.
Proof. intros a b. apply String.leb_total. Qed.

#[global] Instance string_le_trans : Transitive string_le.
Proof.
  intros a b c. unfold string_le. rewrite !leb_compare.
  apply string_compare_trans.
Qed.

Lemma js_sort_perm (l : list string) : js_sort l ≡ₚ l.
Proof. apply merge_sort_Permutation. Qed.

Lemma js_sort_sorted (l : list string) : StronglySorted string_le (js_sort l).
Proof. apply StronglySorted_merge_sort; apply _. Qed.

(** In a sorted array, what [slice(0, n)] takes is below what it leaves. *)
Lemma js_sort_split (l : list string) (n : nat) (a b : string) :
  a ∈ take n (js_sort l) -> b ∈ drop n (js_sort l) -> string_le a b.
Proof.
  intros Ha Hb. pose proof (js_sort_sorted l) as H.
  rewrite <- (take_drop n (js_sort l)) in H.
  exact (StronglySorted_app_1_elem_of _ _ _ _ _ H Ha Hb).
Qed.

Lemma filter_perm {X} (f : X -> bool) (l l' : list X) :
  l ≡ₚ l' -> List.filter f l ≡ₚ List.filter f l'.
Proof.
  induction 1 as [|x l l' _ IH|x y l|l l' l'' _ IH1 _ IH2]; cbn.
  - constructor.
  - destruct (f x); [now constructor|assumption].
  - destruct (f x), (f y); try reflexivity. constructor.
  - now transitivity (List.filter f l').
Qed.

Lemma earlier_irrefl (d : Date) : ~ earlier d d.
Proof. unfold earlier. now rewrite Date_compare_refl. Qed.

Lemma Date_compare_antisym (a b : Date) :
  valid a -> valid b -> Date_compare b a = CompOpp (Date_compare a b).
Proof.
  intros Ha Hb. rewrite <- !compare_backup_name by assumption.
  apply String.compare_antisym.
Qed.

(** Below in the order of names, and different: earlier in time. *)
Lemma string_le_earlier (a b : Date) :
  valid a -> valid b -> a <> b ->
  string_le (backup_name a) (backup_name b) -> earlier a b.
Proof.
  intros Ha Hb Hne H. unfold string_le in H. apply leb_compare in H.
  rewrite compare_backup_name in H by assumption. unfold earlier.
  destruct (Date_compare a b) eqn:E; try congruence.
  apply Date_compare_eq in E. contradiction.
Qed.

End BackupOrder.

(** ** Running the backup task *)

Module BackupRun.
Import Backup BackupNames BackupOrder.

Lemma unlinkSync_present (x : string) (fs : FileSystem) :
  x ∈ backups fs ->
  unlinkSync x fs
  = (mkFS (database_exists fs) (backups_exists fs)
          (List.filter (fun f => negb (String.eqb f x)) (backups fs))
          (listing fs),
     Returned tt).
Proof. intros H. unfold unlinkSync. now rewrite bool_decide_eq_true_2. Qed.

Lemma elem_of_unlinked (x f : string) (l : list string) :
  f ∈ List.filter (fun g => negb (String.eqb g x)) l <-> f ∈ l /\ f <> x.
Proof.
  rewrite !list_elem_of_In, filter_In, negb_true_iff, String.eqb_neq. tauto.
Qed.

(** Deleting a list of distinct entries that are all there. *)
Lemma forEach_unlinkSync (l : list string) (fs : FileSystem) :
  NoDup l -> (forall f, f ∈ l -> f ∈ backups fs) ->
  exists fs',
    forEach l unlinkSync fs = (fs', Returned tt)
    /\ (forall f, f ∈ backups fs' <-> f ∈ backups fs /\ f ∉ l)
    /\ (NoDup (backups fs) -> NoDup (backups fs')).
Proof.
  revert fs. induction l as [|x l IH]; intros fs Hnd Hin.
  - exists fs. split; [reflexivity|]. split; [|auto].
    intros f. split; [|tauto]. intros Hf. split; [exact Hf|].
    apply not_elem_of_nil.
  - apply NoDup_cons in Hnd as [Hx Hnd].
    cbn [forEach]. unfold mbind, Sync_bind.
    rewrite unlinkSync_present by (apply Hin; left).
    set (fs1 := mkFS (database_exists fs) (backups_exists fs)
                     (List.filter (fun f => negb (String.eqb f x)) (backups fs))
                     (listing fs)).
    destruct (IH fs1 Hnd) as (fs' & -> & Hmem & Hnd').
    { intros f Hf. cbn [backups]. apply elem_of_unlinked. split.
      - apply Hin. now right.
      - intros ->. contradiction. }
    exists fs'. split; [reflexivity|]. split.
    + intros f. rewrite Hmem. unfold fs1. cbn [backups].
      rewrite elem_of_unlinked.
      rewrite elem_of_cons. tauto.
    + intros H. apply Hnd'. unfold fs1. cbn [backups].
      apply NoDup_ListNoDup, List.NoDup_filter, NoDup_ListNoDup, H.
Qed.

Lemma cron_backup_run (now : Date) (fs : FileSystem) :
  database_exists fs = true ->
  let dir2 := if bool_decide (backup_name now ∈ backups fs) then backups fs
              else (backups fs ++ [backup_name now])%list in
  let fs2 := mkFS true true dir2 (listing fs) in
  let sorted := js_sort (List.filter is_backup (listing fs dir2)) in
  cron_backup now fs =
  if (7 <? length (List.filter is_backup (listing fs dir2)))%nat
  then try_catch (forEach (slice0 (length sorted - 7) sorted) unlinkSync)
                 (fun _ => mret tt) fs2
  else (fs2, Returned tt).
Proof.
  intros Hdb. cbv zeta. destruct fs as [db be dir lst].
  cbn [database_exists] in Hdb. subst db.
  unfold cron_backup, try_catch, mbind, Sync_bind.
  unfold existsSync_backups, mkdirSync_backups, copyFileSync_database,
    readdirSync_backups, backup_name.
  destruct be;
    cbn [negb mret Sync_ret backups backups_exists database_exists listing
         andb];
    destruct (7 <? _)%nat; reflexivity.
Qed.

Lemma earlierb_earlier (a b : Date) : earlierb a b = true <-> earlier a b.
Proof.
  unfold earlierb, earlier. destruct (Date_compare a b); split; congruence.
Qed.

Lemma earlier_asym (a b : Date) :
  valid a -> valid b -> earlier a b -> ~ earlier b a.
Proof.
  unfold earlier. intros Ha Hb H. rewrite (Date_compare_antisym a b), H by auto.
  discriminate.
Qed.

Lemma elem_of_filter_bool {X} (f : X -> bool) (l : list X) (x : X) :
  x ∈ List.filter f l <-> x ∈ l /\ f x = true.
Proof. rewrite !list_elem_of_In. apply filter_In. Qed.

Lemma NoDup_filter_bool {X} (f : X -> bool) (l : list X) :
  NoDup l -> NoDup (List.filter f l).
Proof. rewrite !NoDup_ListNoDup. apply List.NoDup_filter. Qed.

Lemma backup_names_NoDup (l : list Date) :
  Forall valid l -> NoDup l -> NoDup (backup_name <$> l).
Proof.
  intros Hv. apply NoDup_fmap_2_strong. intros a b Ha Hb.
  rewrite Forall_forall in Hv. apply backup_name_inj; auto.
Qed.

Lemma new_backup_fresh (now : Date) (old : list Date) (dir : list string) :
  valid now -> Forall valid old -> Forall (fun d => earlier d now) old ->
  List.filter is_backup dir ≡ₚ backup_name <$> old ->
  backup_name now ∉ dir.
Proof.
  intros Hn Hv He Hp Hin.
  assert (backup_name now ∈ List.filter is_backup dir) as H.
  { apply elem_of_filter_bool. split; [exact Hin|apply is_backup_name]. }
  rewrite Hp in H. apply list_elem_of_fmap in H as (d & Hd & Hdin).
  rewrite Forall_forall in Hv, He.
  apply backup_name_inj in Hd; auto. subst d.
  exact (earlier_irrefl now (He now Hdin)).
Qed.

End BackupRun.

(** ** Retention *)

Module BackupRetention.
Import Backup BackupNames BackupOrder BackupRun.

(** The sorted array of backup files, as dates. *)
Lemma sorted_dates (bf : list string) (all : list Date) :
  bf ≡ₚ backup_name <$> all ->
  exists sd, js_sort bf = backup_name <$> sd /\ all ≡ₚ sd.
Proof.
  intros H. apply (Permutation_map_inv backup_name).
  now rewrite js_sort_perm.
Qed.

(** C6.  The directory holds nine backup snapshots, taken at nine distinct
    moments before [now], among files of other names, and the database
    file is there to be copied.  The task adds the snapshot of [now] and
    then deletes three snapshots and keeps seven: every deleted one is
    earlier than every kept one, the new snapshot is kept, the two oldest
    are among the deleted, and the other files are left alone; this holds
    whatever order the file system lists the directory in. *)
Theorem backup_keeps_seven_newest (now : Date) (old : list Date)
    (fs : FileSystem) :
  valid now -> Forall valid old -> NoDup old ->
  Forall (fun d => earlier d now) old ->
  length old = 9%nat ->
  database_exists fs = true ->
  NoDup (backups fs) ->
  List.filter is_backup (backups fs) ≡ₚ backup_name <$> old ->
  (forall l, listing fs l ≡ₚ l) ->
  let (fs', o) := cron_backup now fs in
  o = Returned tt
  /\ length (List.filter is_backup (backups fs')) = 7%nat
  /\ (forall d, d ∈ old ->
        (length (List.filter (fun d' => earlierb d' d) old) < 2)%nat ->
        backup_name d ∉ backups fs')
  /\ (forall f, is_backup f = false -> f ∈ backups fs' <-> f ∈ backups fs)
  /\ exists deleted kept : list Date,
       now :: old ≡ₚ (deleted ++ kept)%list
       /\ length deleted = 3%nat
       /\ length kept = 7%nat
       /\ (forall a b, a ∈ deleted -> b ∈ kept -> earlier a b)
       /\ now ∈ kept
       /\ (forall d, d ∈ deleted -> backup_name d ∉ backups fs')
       /\ List.filter is_backup (backups fs') ≡ₚ backup_name <$> kept.
Proof.
  intros Hnow Hold Hnd Hearlier Hlen Hdb Hdir Hsnap Hlist.
  pose proof (new_backup_fresh now old (backups fs) Hnow Hold Hearlier Hsnap)
    as Hfresh.
  rewrite cron_backup_run by assumption. cbv zeta.
  rewrite bool_decide_eq_false_2 by assumption.
  set (dir2 := (backups fs ++ [backup_name now])%list).
  set (bf := List.filter is_backup (listing fs dir2)).
  assert (bf ≡ₚ backup_name <$> (now :: old)) as Hbf.
  { unfold bf. rewrite (filter_perm _ _ _ (Hlist dir2)). unfold dir2.
    rewrite List.filter_app, Hsnap. cbn [List.filter].
    rewrite is_backup_name. rewrite fmap_cons.
    now rewrite <- Permutation_cons_append. }
  assert (length bf = 10%nat) as Hbflen.
  { rewrite Hbf, length_fmap. cbn. now rewrite Hlen. }
  rewrite Hbflen. cbn [Nat.ltb Nat.leb].
  destruct (sorted_dates bf (now :: old) Hbf) as (sd & Hsorted & Hsd).
  assert (length (js_sort bf) = 10%nat) as Hslen.
  { now rewrite js_sort_perm. }
  rewrite Hslen. change (10 - 7)%nat with 3%nat.
  unfold slice0. rewrite Hsorted, <- fmap_take.
  assert (Forall valid sd) as Hvsd.
  { rewrite <- Hsd. now constructor. }
  assert (NoDup sd) as Hndsd.
  { rewrite <- Hsd. constructor; [|assumption].
    intros Hin. rewrite Forall_forall in Hearlier.
    exact (earlier_irrefl now (Hearlier now Hin)). }
  assert (length sd = 10%nat) as Hsdlen.
  { rewrite <- Hsd. cbn. now rewrite Hlen. }
  pose proof (take_drop 3 sd) as Hsplit.
  set (deleted := take 3 sd) in *. set (kept := drop 3 sd) in *.
  assert (NoDup (deleted ++ kept)%list) as Hnd2 by now rewrite Hsplit.
  apply NoDup_app in Hnd2 as (Hndd & Hdisj & Hndk).
  assert (Forall valid deleted /\ Forall valid kept) as [Hvd Hvk].
  { rewrite <- Hsplit in Hvsd. now apply Forall_app in Hvsd. }
  set (fs2 := mkFS true true dir2 (listing fs)).
  destruct (forEach_unlinkSync (backup_name <$> deleted) fs2)
    as (fs' & Hrun & Hmem & Hndfs').
  { now apply backup_names_NoDup. }
  { intros f Hf. cbn [backups fs2].
    assert (f ∈ backup_name <$> sd) as Hf'.
    { rewrite <- Hsplit, fmap_app. apply elem_of_app. now left. }
    rewrite <- Hsorted, js_sort_perm in Hf'. unfold bf in Hf'.
    apply elem_of_filter_bool in Hf' as [Hf' _].
    now rewrite (Hlist dir2) in Hf'. }
  unfold try_catch. rewrite Hrun.
  assert (forall f, f ∈ List.filter is_backup (backups fs')
                    <-> f ∈ backup_name <$> kept) as Hkept.
  { intros f. rewrite elem_of_filter_bool, Hmem. cbn [backups fs2].
    split.
    - intros [[Hin Hnot] Hb].
      assert (f ∈ backup_name <$> sd) as Hf'.
      { rewrite <- Hsorted, js_sort_perm. unfold bf.
        apply elem_of_filter_bool. split; [|exact Hb].
        now rewrite (Hlist dir2). }
      rewrite <- Hsplit, fmap_app in Hf'.
      apply elem_of_app in Hf' as [?|?]; [contradiction|assumption].
    - intros Hf.
      assert (f ∈ backup_name <$> sd) as Hf'.
      { rewrite <- Hsplit, fmap_app. apply elem_of_app. now right. }
      rewrite <- Hsorted, js_sort_perm in Hf'. unfold bf in Hf'.
      apply elem_of_filter_bool in Hf' as [Hf' Hb].
      rewrite (Hlist dir2) in Hf'. repeat split; auto.
      intros Hdel. apply list_elem_of_fmap in Hf as (b & -> & Hb').
      apply list_elem_of_fmap in Hdel as (a & Hab & Ha').
      rewrite Forall_forall in Hvd, Hvk.
      apply backup_name_inj in Hab; auto. subst b.
      exact (Hdisj a Ha' Hb'). }
  assert (List.filter is_backup (backups fs') ≡ₚ backup_name <$> kept)
    as Hperm.
  { apply NoDup_Permutation; auto.
    - apply NoDup_filter_bool, Hndfs'. cbn [backups fs2]. unfold dir2.
      apply NoDup_app. repeat split; auto.
      + intros x Hx Hx'. apply list_elem_of_singleton in Hx'. now subst x.
      + apply NoDup_singleton.
    - now apply backup_names_NoDup. }
  assert (forall a b, a ∈ deleted -> b ∈ kept -> earlier a b) as Horder.
  { intros a b Ha Hb. rewrite Forall_forall in Hvd, Hvk.
    apply string_le_earlier; auto.
    - intros ->. exact (Hdisj b Ha Hb).
    - apply (js_sort_split bf 3); rewrite Hsorted.
      + rewrite <- fmap_take. now apply list_elem_of_fmap_2.
      + rewrite <- fmap_drop. now apply list_elem_of_fmap_2. }
  assert (length deleted = 3%nat) as Hdl.
  { unfold deleted. rewrite length_take. lia. }
  assert (length kept = 7%nat) as Hkl.
  { unfold kept. rewrite length_drop. lia. }
  assert (forall d, d ∈ sd -> d = now \/ d ∈ old) as Hsdold.
  { intros d Hd. rewrite <- Hsd in Hd. now apply elem_of_cons in Hd. }
  assert (now ∈ kept) as Hnowkept.
  { assert (now ∈ sd) as Hin by (rewrite <- Hsd; left).
    rewrite <- Hsplit in Hin. apply elem_of_app in Hin as [Hin|Hin]; [|exact Hin].
    exfalso. destruct kept as [|b kept'] eqn:Ek; [discriminate|].
    assert (b ∈ b :: kept') as Hb by left.
    pose proof (Horder now b Hin Hb) as Hnb.
    assert (b ∈ sd) as Hbsd.
    { rewrite <- Hsplit. apply elem_of_app. now right. }
    destruct (Hsdold b Hbsd) as [-> |Hbold].
    - exact (earlier_irrefl now Hnb).
    - rewrite Forall_forall in Hearlier, Hold.
      exact (earlier_asym now b Hnow (Hold b Hbold) Hnb (Hearlier b Hbold)). }
  assert (forall d, d ∈ deleted -> backup_name d ∉ backups fs') as Hgone.
  { intros d Hd Hin. apply Hmem in Hin as [_ Hnot]. apply Hnot.
    now apply list_elem_of_fmap_2. }
  split; [reflexivity|]. split; [now rewrite Hperm, length_fmap|].
  split; [|split].
  - intros d Hd Hfew.
    assert (d ∈ sd) as Hdsd by (rewrite <- Hsd; now right).
    rewrite <- Hsplit in Hdsd.
    apply elem_of_app in Hdsd as [Hdel|Hkeep]; [now apply Hgone|].
    exfalso.
    assert (length deleted <= length (List.filter (fun d' => earlierb d' d) old))%nat
      as Hle; [|lia].
    apply submseteq_length, NoDup_submseteq; [assumption|].
    intros a Ha. apply elem_of_filter_bool.
    pose proof (Horder a d Ha Hkeep) as Had.
    split; [|now apply earlierb_earlier].
    assert (a ∈ sd) as Hasd.
    { rewrite <- Hsplit. apply elem_of_app. now left. }
    destruct (Hsdold a Hasd) as [-> |Hin]; [|exact Hin].
    exfalso. exact (Hdisj now Ha Hnowkept).
  - intros f Hf. rewrite Hmem. cbn [backups fs2]. unfold dir2.
    rewrite elem_of_app, list_elem_of_singleton. split.
    + intros [[Hin| ->] _]; [exact Hin|].
      rewrite is_backup_name in Hf. discriminate.
    + intros Hin. split; [now left|].
      intros Hdel. apply list_elem_of_fmap in Hdel as (a & -> & _).
      rewrite is_backup_name in Hf. discriminate.
  - exists deleted, kept. rewrite Hsplit. repeat split; auto.
Qed.

Lemma backup_keeps_seven_newest_witness :
  let (fs', o) := cron_backup sample_now sample_fs in
  o = Returned tt
  /\ length (List.filter is_backup (backups fs')) = 7%nat
  /\ (backup_name (mkDate 2024 1 1 4 0 0 7) ∉ backups fs')
  /\ (backup_name (mkDate 2024 1 2 4 0 0 14) ∉ backups fs')
  /\ ("notes.txt" ∈ backups fs').
Proof.
  assert (valid sample_now) as Hnow by (unfold valid; cbn; lia).
  assert (Forall valid sample_old) as Hold
    by (repeat constructor; cbn; lia).
  assert (NoDup sample_old) as Hnd.
  { apply (NoDup_fmap_1 day). compute_done. }
  assert (Forall (fun d => earlier d sample_now) sample_old) as Hearlier
    by (repeat constructor).
  assert (List.filter is_backup (backups sample_fs)
          ≡ₚ backup_name <$> sample_old) as Hsnap.
  { vm_compute. reflexivity. }
  assert (forall l, listing sample_fs l ≡ₚ l) as Hlist.
  { intros l. cbn. symmetry. apply Permutation_rev. }
  assert (NoDup (backups sample_fs)) as Hdir.
  { compute_done. }
  pose proof (backup_keeps_seven_newest sample_now sample_old sample_fs
                Hnow Hold Hnd Hearlier eq_refl eq_refl Hdir Hsnap Hlist) as H.
  destruct (cron_backup sample_now sample_fs) as [fs' o].
  destruct H as (Ho & Hseven & Holdest & Hother & _).
  split; [exact Ho|]. split; [exact Hseven|]. split; [|split].
  - apply Holdest; [|vm_compute; lia].
    apply list_elem_of_In. vm_compute. tauto.
  - apply Holdest; [|vm_compute; lia].
    apply list_elem_of_In. vm_compute. tauto.
  - apply Hother; [reflexivity|]. left.
Defined.

End BackupRetention.

(** ** Interleaved calls *)

Section confinement.
Variable P : World -> World -> Prop.
Hypothesis P_refl : forall w, P w w.
Hypothesis P_trans : forall w1 w2 w3, P w1 w2 -> P w2 w3 -> P w1 w3.

Lemma confined_bind {A B} (m : Async A) (g : A -> Async B) :
  confined P m -> (forall a, confined P (g a)) -> confined P (m ≫= g).
Proof.
  intros Hm Hg. change (m ≫= g) with (bind m g).
  induction Hm as [[a|e]|f k Hf _ IH|k _ IH]; cbn; try constructor; auto.
Qed.

Lemma confined_try_catch {A} (m : Async A) (h : Error -> Async A) :
  confined P m -> (forall e, confined P (h e)) -> confined P (try_catch m h).
Proof.
  intros Hm Hh.
  induction Hm as [[a|e]|f k Hf _ IH|k _ IH]; cbn; try constructor; auto.
Qed.

Lemma confined_await {A} (m : Async A) : confined P m -> confined P (await m).
Proof.
  intros Hm.
  induction Hm as [o|f k Hf _ IH|k _ IH]; cbn; repeat constructor; auto.
Qed.

Lemma confined_mret {A} (a : A) : confined P (mret a).
Proof. constructor. Qed.

Lemma confined_ask {X} (g : World -> X) : confined P (ask g).
Proof. constructor; [auto|]. intros w. constructor. Qed.

Lemma confined_tell (f : World -> World) :
  (forall w, P w (f w)) -> confined P (tell f).
Proof. intros H. constructor; [auto|]. intros w. constructor. Qed.

Lemma segment_confined (m : Async bool) (w : World) :
  confined P m ->
  P w (fst (segment m w)) /\ confined_promise P (snd (segment m w)).
Proof.
  intros Hm. revert w.
  induction Hm as [o|f k Hf _ IH|k Hk _]; intros w; cbn.
  - split; [apply P_refl|exact I].
  - destruct (IH w (f w)) as [H1 H2]. split; [|exact H2].
    exact (P_trans _ _ _ (Hf w) H1).
  - split; [apply P_refl|exact Hk].
Qed.

Lemma step_confined (e : event) (w : World) (pool : list (progress bool)) :
  confined_event P e -> Forall (confined_promise P) pool ->
  P w (fst (step e (w, pool)))
  /\ Forall (confined_promise P) (snd (step e (w, pool))).
Proof.
  intros He Hpool. destruct e as [m|i]; cbn [step].
  - destruct (segment_confined m w He) as [H1 H2].
    destruct (segment m w) as [w' p]. cbn [fst snd] in *. split; [exact H1|].
    apply Forall_app. split; [exact Hpool|]. now constructor.
  - destruct (pool !! i) as [[o|k]|] eqn:E; cbn [fst snd]; auto.
    assert (confined P k) as Hk.
    { rewrite Forall_forall in Hpool.
      exact (Hpool (Suspended k) (list_elem_of_lookup_2 _ _ _ E)). }
    destruct (segment_confined k w Hk) as [H1 H2].
    destruct (segment k w) as [w' p]. cbn [fst snd] in *. split; [exact H1|].
    now apply Forall_insert.
Qed.

Lemma fold_step_confined (schedule : list event) (w : World)
    (pool : list (progress bool)) :
  Forall (confined_event P) schedule -> Forall (confined_promise P) pool ->
  P w (fst (fold_left (fun st e => step e st) schedule (w, pool)))
  /\ Forall (confined_promise P)
            (snd (fold_left (fun st e => step e st) schedule (w, pool))).
Proof.
  intros Hs. revert w pool.
  induction Hs as [|e schedule He _ IH]; intros w pool Hpool; cbn [fold_left].
  - auto.
  - destruct (step_confined e w pool He Hpool) as [H1 H2].
    destruct (step e (w, pool)) as [w1 pool1]. cbn [fst snd] in *.
    destruct (IH w1 pool1 H2) as [H3 H4]. split; [|exact H4].
    exact (P_trans _ _ _ H1 H3).
Qed.

End confinement.

Lemma same_registry_refl (w : World) : same_registry w w.
Proof. reflexivity. Qed.

Lemma same_registry_trans (w1 w2 w3 : World) :
  same_registry w1 w2 -> same_registry w2 w3 -> same_registry w1 w3.
Proof. unfold same_registry. congruence. Qed.

Lemma same_elsewhere_refl (id : Z) (w : World) : same_elsewhere id w w.
Proof. intros k _. reflexivity. Qed.

Lemma same_elsewhere_trans (id : Z) (w1 w2 w3 : World) :
  same_elsewhere id w1 w2 -> same_elsewhere id w2 w3 -> same_elsewhere id w1 w3.
Proof. intros H1 H2 k Hk. rewrite H2, H1; auto. Qed.

Lemma same_registry_elsewhere (id : Z) (w w' : World) :
  same_registry w w' -> same_elsewhere id w w'.
Proof. intros H k _. now rewrite H. Qed.

Lemma confined_weaken (P Q : World -> World -> Prop) {A} (m : Async A) :
  (forall w w', P w w' -> Q w w') -> confined P m -> confined Q m.
Proof. intros H. induction 1; constructor; auto. Qed.

(** The status writes leave the bot registry alone. *)
Lemma updateBotStatus_quiet (botId : Z) (status : string) :
  confined same_registry (updateBotStatus botId status).
Proof.
  unfold updateBotStatus, db_run. constructor. constructor.
  - intros w. now destruct (db_fault w (db_calls w)).
  - intros w. destruct (db_fault w (db_calls w)); constructor.
Qed.

Lemma setTimeout_quiet (ms : Z) : confined same_registry (setTimeout_promise ms).
Proof.
  unfold setTimeout_promise. constructor; [reflexivity|]. intros w0.
  constructor. apply confined_tell. reflexivity.
Qed.

Lemma startBot_elsewhere (id : Z) (p : string) (c : botConfig) :
  confined (same_elsewhere id) (startBot id p c).
Proof.
  pose proof (same_elsewhere_refl id) as R.
  unfold startBot. apply confined_try_catch.
  - apply confined_bind; [now apply confined_ask|]. intros [|].
    + apply confined_mret.
    + apply confined_bind; [now apply confined_ask|]. intros startTime.
      apply confined_bind.
      { unfold Math_random. apply confined_act; [|intros w; constructor].
        intros w k _. reflexivity. }
      intros r. apply confined_bind.
      { apply confined_tell. intros w k Hk. cbn.
        apply JsMapFacts.get_set_ne. congruence. }
      intros _. apply confined_bind; [|intros; apply confined_mret].
      apply confined_await.
      apply (confined_weaken same_registry); [apply same_registry_elsewhere|].
      apply updateBotStatus_quiet.
  - intros e. apply confined_bind; [|intros; apply confined_mret].
    apply confined_await.
    apply (confined_weaken same_registry); [apply same_registry_elsewhere|].
    apply updateBotStatus_quiet.
Qed.

Lemma stopBot_elsewhere (id : Z) : confined (same_elsewhere id) (stopBot id).
Proof.
  pose proof (same_elsewhere_refl id) as R.
  unfold stopBot. apply confined_try_catch; [|intros; apply confined_mret].
  apply confined_bind; [now apply confined_ask|]. intros [h|].
  - apply confined_bind.
    { apply confined_tell. intros w k Hk. cbn.
      apply JsMapFacts.get_delete_ne. congruence. }
    intros _. apply confined_bind; [|intros; apply confined_mret].
    apply confined_await.
    apply (confined_weaken same_registry); [apply same_registry_elsewhere|].
    apply updateBotStatus_quiet.
  - apply confined_mret.
Qed.

Lemma restartBot_elsewhere (id : Z) (p : string) (c : botConfig) :
  confined (same_elsewhere id) (restartBot id p c).
Proof.
  unfold restartBot.
  apply confined_bind; [apply confined_await, stopBot_elsewhere|]. intros _.
  apply confined_bind.
  { apply confined_await.
    apply (confined_weaken same_registry); [apply same_registry_elsewhere|].
    apply setTimeout_quiet. }
  intros _. apply confined_await, startBot_elsewhere.
Qed.

(** Peels a computation given by its tree off into its atomic actions,
    each of which must leave the bot registry alone. *)
Ltac quiet_tree :=
  repeat first
    [ apply confined_ret
    | apply confined_yield
    | apply confined_act;
      [ let w := fresh "w" in
        intros w; unfold same_registry;
        try destruct (db_fault w (db_calls w)); reflexivity
      | let w := fresh "w" in
        intros w; try destruct (db_fault w (db_calls w)); cbn ] ].

(** The first segment of [startBot]: the membership test and the
    registration happen in it; what is left pending never touches the
    registry again. *)
Lemma segment_startBot (id : Z) (p : string) (c : botConfig) (w : World) :
  (JsMap.has id (runningBots w) = true /\
   segment (startBot id p c) w = (w, Finished (Returned false)))
  \/ (JsMap.has id (runningBots w) = false /\
      exists k, segment (startBot id p c) w = (register_bot id w, Suspended k)
                /\ confined same_registry k).
Proof.
  unfold startBot. cbn. destruct (JsMap.has id (runningBots w)); cbn.
  - left. auto.
  - right. split; [reflexivity|]. eexists. split; [reflexivity|].
    quiet_tree.
Qed.

Lemma fold_step_settled (schedule : list event) (w : World)
    (pool : list (progress bool)) (i : nat) (o : outcome bool) :
  pool !! i = Some (Finished o) ->
  snd (fold_left (fun st e => step e st) schedule (w, pool)) !! i
  = Some (Finished o).
Proof.
  revert w pool. induction schedule as [|e schedule IH]; intros w pool H;
    cbn [fold_left]; [exact H|].
  destruct e as [m|j]; cbn [step].
  - destruct (segment m w) as [w' q]. apply IH.
    rewrite lookup_app_l; [exact H|]. eapply lookup_lt_Some, H.
  - destruct (pool !! j) as [[o'|k]|] eqn:E; try (apply IH; exact H).
    destruct (segment k w) as [w' q]. apply IH.
    rewrite list_lookup_insert_ne; [exact H|]. intros ->. congruence.
Qed.

Lemma resumes_confined (P : World -> World -> Prop) (schedule : list nat) :
  Forall (confined_event P) (Resume <$> schedule).
Proof. induction schedule; constructor; auto. exact I. Qed.

Lemma on_bot_confined (id : Z) (schedule : list event) :
  Forall (on_bot id) schedule ->
  Forall (confined_event (same_elsewhere id)) schedule.
Proof.
  intros H. apply (Forall_impl _ _ _ H). intros [m|i]; cbn; [|auto].
  intros [(p & c & ->)|[->|(p & c & ->)]].
  - apply startBot_elsewhere.
  - apply stopBot_elsewhere.
  - apply restartBot_elsewhere.
Qed.

(** C9, as stated, fails.  With no handle for bot 5, [restart(5)] is
    called and, during its cooldown, [start(5)]: restart returns false and
    start returns true.  Run one after the other, in either order, restart
    returns true. *)
Lemma restart_not_serialized :
  ~ (let w := sample_world [] [] [bot5] [] [] in
     let restart := restartBot 5 "" ConfigEmptyObject in
     let start := startBot 5 "" ConfigEmptyObject in
     let (w', pool) :=
       interleave [Call restart; Resume 0; Call start; Resume 1; Resume 1;
                   Resume 0; Resume 0; Resume 0] w in
     exists o1 o2,
       pool = [Finished o1; Finished o2]
       /\ ((o1, o2) = in_sequence restart start w
           \/ (o2, o1) = in_sequence start restart w)).
Proof.
  vm_compute. intros (o1 & o2 & H & [H'|H']);
    injection H as <- <-; discriminate H'.
Qed.

(** C9, amended.  The worker takes no lock; calls interleave at their
    awaits.  The membership test and the registration of [start] run in
    one segment, so of two [start] calls on one id made one after the
    other the second returns false and, however the pending rest is
    resumed, exactly one handle for the id results.  Whatever calls of
    start, stop and restart on one id are in flight together, in whatever
    order they are resumed, the handles of all other ids stay as they
    were.  But calls on one id are not serialized: a [start] made during
    the cooldown of a [restart] of the same bot gives results that no
    order of the two calls run one after the other gives. *)
Theorem calls_interleave_at_awaits (w : World) (id : Z) :
  (forall (p p' : string) (c c' : botConfig) (schedule : list nat),
     let (w', pool) :=
       interleave (Call (startBot id p c) :: Call (startBot id p' c')
                   :: (Resume <$> schedule)) w in
     pool !! 1%nat = Some (Finished (Returned false))
     /\ JsMap.has id (runningBots w') = true
     /\ (JsMap.wf (runningBots w) -> JsMap.count id (runningBots w') = 1%nat))
  /\ (forall schedule : list event,
        Forall (on_bot id) schedule ->
        same_elsewhere id w (fst (interleave schedule w)))
  /\ (exists (w0 : World) (schedule : list event),
        let restart := restartBot 5 "" ConfigEmptyObject in
        let start := startBot 5 "" ConfigEmptyObject in
        Forall (on_bot 5) schedule
        /\ snd (interleave schedule w0)
           = [Finished (Returned false); Finished (Returned true)]
        /\ in_sequence restart start w0 = (Returned true, Returned false)
        /\ in_sequence start restart w0 = (Returned true, Returned true)).
Proof.
  split; [|split].
  - intros p p' c c' schedule. unfold interleave. cbn [fold_left step app].
    destruct (segment_startBot id p c w)
      as [[Hhas ->]|[Hhas (k & -> & Hk)]].
    + cbn [fold_left step app].
      destruct (segment_startBot id p' c' w)
        as [[_ ->]|[Hhas' _]]; [|congruence].
      cbn [app].
      pose proof (fold_step_settled (Resume <$> schedule) w
                    [Finished (Returned false); Finished (Returned false)]
                    1 (Returned false) eq_refl) as Hsettled.
      destruct (fold_step_confined same_registry same_registry_refl
                  same_registry_trans (Resume <$> schedule) w
                  [Finished (Returned false); Finished (Returned false)]
                  (resumes_confined _ _)) as [Hreg _].
      { repeat constructor. }
      destruct (fold_left _ _ _) as [w' pool]. cbn [fst snd] in *.
      unfold same_registry in Hreg. rewrite Hreg.
      split; [exact Hsettled|]. split; [exact Hhas|].
      intros Hwf. now rewrite JsMapFacts.count_has, Hhas.
    + assert (JsMap.has id (runningBots (register_bot id w)) = true) as Hreg1.
      { cbn. apply JsMapFacts.has_set_eq. }
      cbn [fold_left step app].
      destruct (segment_startBot id p' c' (register_bot id w))
        as [[_ ->]|[Hhas' _]]; [|congruence].
      cbn [app].
      pose proof (fold_step_settled (Resume <$> schedule) (register_bot id w)
                    [Suspended k; Finished (Returned false)]
                    1 (Returned false) eq_refl) as Hsettled.
      destruct (fold_step_confined same_registry same_registry_refl
                  same_registry_trans (Resume <$> schedule) (register_bot id w)
                  [Suspended k; Finished (Returned false)]
                  (resumes_confined _ _)) as [Hreg _].
      { repeat constructor. exact Hk. }
      destruct (fold_left _ _ _) as [w' pool]. cbn [fst snd] in *.
      unfold same_registry in Hreg. rewrite Hreg.
      split; [exact Hsettled|]. split; [exact Hreg1|]. intros _.
      cbn [register_bot runningBots with_runningBots].
      rewrite JsMapFacts.set_fresh by assumption.
      now apply count_after_insert.
  - intros schedule Hs. unfold interleave.
    apply (fold_step_confined (same_elsewhere id) (same_elsewhere_refl id)
             (same_elsewhere_trans id) schedule w []).
    + now apply on_bot_confined.
    + constructor.
  - exists (sample_world [] [] [bot5] [] []).
    exists [Call (restartBot 5 "" ConfigEmptyObject); Resume 0;
            Call (startBot 5 "" ConfigEmptyObject); Resume 1; Resume 1;
            Resume 0; Resume 0; Resume 0].
    cbv zeta. split; [|vm_compute; auto].
    constructor; [right; right; eauto|]. constructor; [exact I|].
    constructor; [left; eauto|]. repeat constructor.
Qed.

Lemma calls_interleave_at_awaits_witness :
  (let (w', pool) :=
     interleave [Call (startBot 5 "" ConfigEmptyObject);
                 Call (startBot 5 "" ConfigEmptyObject);
                 Resume 1; Resume 0; Resume 0]
                (sample_world [] [] [bot5] [] []) in
   pool !! 1%nat = Some (Finished (Returned false))
   /\ JsMap.count 5 (runningBots w') = 1%nat)
  /\ JsMap.get 6 (runningBots
                    (fst (interleave
                            [Call (restartBot 5 "" ConfigEmptyObject);
                             Call (stopBot 5); Resume 0; Resume 1; Resume 0]
                            (sample_world
                               [(5, handle5); (6, BotProcess 6 20 "running" 77)]
                               [] [bot5] [] []))))
     = Some (BotProcess 6 20 "running" 77).
Proof.
  split.
  - destruct (calls_interleave_at_awaits (sample_world [] [] [bot5] [] []) 5)
      as (H & _).
    specialize (H "" "" ConfigEmptyObject ConfigEmptyObject [1; 0; 0]%nat).
    cbn [fmap list_fmap] in H.
    destruct (interleave _ _) as [w' pool].
    destruct H as (H1 & _ & H3). split; [exact H1|]. apply H3. constructor.
  - destruct (calls_interleave_at_awaits
                (sample_world [(5, handle5); (6, BotProcess 6 20 "running" 77)]
                              [] [bot5] [] []) 5) as (_ & H & _).
    rewrite H; [reflexivity| |discriminate].
    constructor; [right; right; eauto|].
    constructor; [right; left; reflexivity|].
    repeat constructor.
Defined.

(** ** Every operation, action by action

    What follows establishes, for a relation [P] between worlds that every
    primitive step of the worker respects, that every operation is made
    of steps that respect [P], alone or interleaved with others. *)

Lemma run_confined (P : World -> World -> Prop) {A} (m : Async A) :
  (forall w, P w w) ->
  (forall w1 w2 w3, P w1 w2 -> P w2 w3 -> P w1 w3) ->
  confined P m -> forall w, P w (fst (run m w)).
Proof.
  intros Hrefl Htrans Hm.
  induction Hm as [o|f k Hf _ IH|k _ IH]; intros w; cbn [run fst]; auto.
  exact (Htrans _ _ _ (Hf w) (IH w (f w))).
Qed.

Lemma run_detached_confined (P : World -> World -> Prop)
    (tasks : list (Async unit)) :
  (forall w, P w w) ->
  (forall w1 w2 w3, P w1 w2 -> P w2 w3 -> P w1 w3) ->
  Forall (confined P) tasks -> forall w, P w (fst (run_detached tasks w)).
Proof.
  intros Hrefl Htrans Ht.
  induction Ht as [|t tasks Hc _ IH]; intros w; cbn [run_detached]; auto.
  pose proof (run_confined P t Hrefl Htrans Hc w) as H1.
  destruct (run t w) as [w1 o]. specialize (IH w1).
  destruct (run_detached tasks w1) as [w2 os]. cbn [fst] in *.
  exact (Htrans _ _ _ H1 IH).
Qed.

Section steps.
Variable P : World -> World -> Prop.
Hypothesis P_refl : forall w, P w w.
Hypothesis P_trans : forall w1 w2 w3, P w1 w2 -> P w2 w3 -> P w1 w3.
Hypothesis P_random : forall w, P w (next_random w).
Hypothesis P_db_call : forall w, P w (next_db_call w).
Hypothesis P_clock : forall w c, clock w <= c -> P w (with_clock c w).

Lemma confined_for_of {X} (l : list X) (body : X -> Async unit) :
  (forall x, confined P (body x)) -> confined P (for_of l body).
Proof.
  intros H. induction l as [|x l IH]; cbn [for_of].
  - apply confined_mret.
  - apply confined_bind; auto.
Qed.

Lemma confined_discard {A} (m : Async A) :
  confined P m -> confined P (await m;; mret tt).
Proof.
  intros H. apply confined_bind; [now apply confined_await|].
  intros; apply confined_mret.
Qed.

Lemma confined_db_run (apply : World -> World) (changes : World -> nat) :
  (forall w, P w (apply w)) -> confined P (db_run apply changes).
Proof.
  intros H. unfold db_run. apply confined_yield, confined_act.
  - intros w. destruct (db_fault w (db_calls w)); [apply P_db_call|].
    exact (P_trans _ _ _ (H w) (P_db_call _)).
  - intros w. destruct (db_fault w (db_calls w)); constructor.
Qed.

Lemma confined_db_all {R} (select : World -> list R)
    (callback : Error + list R -> Async unit) :
  (forall res, confined P (callback res)) -> confined P (db_all select callback).
Proof.
  intros H. unfold db_all. apply confined_yield, confined_act; [auto|].
  intros w. destruct (db_fault w (db_calls w)); apply H.
Qed.

Lemma confined_Math_random : confined P Math_random.
Proof. unfold Math_random. apply confined_act; [auto|]. constructor. Qed.

Lemma confined_setTimeout (ms : Z) :
  0 <= ms -> confined P (setTimeout_promise ms).
Proof.
  intros H. unfold setTimeout_promise. apply confined_act; [auto|]. intros w0.
  apply confined_yield, confined_tell. intros w. apply P_clock. lia.
Qed.

(** Calls that hand back promises. *)
Lemma confined_bind_assoc {A B C} (m : Async A) (g : A -> Async B)
    (h : B -> Async C) :
  confined P (bind m (fun a => bind (g a) h)) ->
  confined P (bind (bind m g) h).
Proof.
  induction m as [[a|e]|f k IH|k IH]; cbn; intros H; auto.
  - inversion H; subst. constructor; auto.
  - inversion H; subst. constructor; auto.
Qed.

Lemma confined_call_bind {A B C} (m : Async A) (k : progress A -> Async B)
    (g : B -> Async C) :
  confined P m ->
  (forall p, promise_confined P p -> confined P (bind (k p) g)) ->
  confined P (bind (call m k) g).
Proof.
  intros Hm Hk.
  induction Hm as [o|f h Hf _ IH|m' Hm']; cbn [call].
  - apply Hk. exact I.
  - cbn [bind]. constructor; auto.
  - apply Hk. exact Hm'.
Qed.

Lemma confined_map_call_bind {X A C} (f : X -> Async A) (l : list X)
    (K : list (progress A) -> Async C) :
  (forall x, confined P (f x)) ->
  (forall ps, Forall (promise_confined P) ps -> confined P (K ps)) ->
  confined P (bind (map_call f l) K).
Proof.
  intros Hf. revert K. induction l as [|x l IH]; intros K HK; cbn [map_call].
  - cbn. apply HK. constructor.
  - apply confined_call_bind; [apply Hf|]. intros p Hp.
    apply confined_bind_assoc.
    change (confined P (bind (map_call f l) (fun ps => K (p :: ps)))).
    apply IH. intros ps Hps. apply HK. now constructor.
Qed.

Lemma confined_Promise_all {A} (ps : list (progress A)) :
  Forall (promise_confined P) ps -> confined P (Promise_all ps).
Proof.
  induction 1 as [|p ps Hp _ IH]; cbn [Promise_all].
  - apply confined_yield, confined_mret.
  - apply confined_bind.
    + destruct p as [o|k]; [constructor|exact Hp].
    + intros a. apply confined_bind; [exact IH|]. intros; apply confined_mret.
Qed.

Section bot_steps.
Hypothesis P_bot_write :
  forall w status id,
    P w (with_bots (sql_update_bot status id (clock w) (bots w)) w).
Hypothesis P_bot_set :
  forall w id h,
    bp_id h = id -> bp_status h = "running" ->
    P w (with_runningBots (JsMap.set id h (runningBots w)) w).
Hypothesis P_bot_delete :
  forall w id, P w (with_runningBots (JsMap.delete id (runningBots w)) w).

Lemma confined_updateBotStatus (id : Z) (status : string) :
  confined P (updateBotStatus id status).
Proof. unfold updateBotStatus. apply confined_db_run. auto. Qed.

Lemma confined_startBot (id : Z) (p : string) (c : botConfig) :
  confined P (startBot id p c).
Proof.
  unfold startBot. apply confined_try_catch.
  - apply confined_bind; [now apply confined_ask|]. intros [|].
    + apply confined_mret.
    + apply confined_bind; [now apply confined_ask|]. intros startTime.
      apply confined_bind; [apply confined_Math_random|]. intros r.
      apply confined_bind; [apply confined_tell; intros w; now apply P_bot_set|].
      intros _. apply confined_bind; [|intros; apply confined_mret].
      apply confined_await, confined_updateBotStatus.
  - intros e. apply confined_bind; [|intros; apply confined_mret].
    apply confined_await, confined_updateBotStatus.
Qed.

Lemma confined_stopBot (id : Z) : confined P (stopBot id).
Proof.
  unfold stopBot. apply confined_try_catch; [|intros; apply confined_mret].
  apply confined_bind; [now apply confined_ask|]. intros [h|].
  - apply confined_bind; [apply confined_tell; intros w; apply P_bot_delete|].
    intros _. apply confined_bind; [|intros; apply confined_mret].
    apply confined_await, confined_updateBotStatus.
  - apply confined_mret.
Qed.

Lemma confined_restartBot (id : Z) (p : string) (c : botConfig) :
  confined P (restartBot id p c).
Proof.
  unfold restartBot.
  apply confined_bind; [apply confined_await, confined_stopBot|]. intros _.
  apply confined_bind; [apply confined_await, confined_setTimeout; lia|].
  intros _. apply confined_await, confined_startBot.
Qed.

Lemma confined_healthCheck : confined P healthCheck.
Proof.
  unfold healthCheck, getRunningBots.
  apply confined_bind; [now apply confined_ask|]. intros snapshot.
  apply confined_for_of. intros bot. apply confined_try_catch.
  - apply confined_bind; [now apply confined_ask|]. intros now.
    apply confined_bind; [apply confined_Math_random|]. intros r.
    destruct (js_lt r (1 # 100)); [|apply confined_mret].
    apply confined_discard, confined_restartBot.
  - intros e. apply confined_discard, confined_stopBot.
Qed.

Lemma confined_on_SIGTERM : confined P on_SIGTERM.
Proof.
  unfold on_SIGTERM, getRunningBots.
  apply confined_bind; [now apply confined_ask|]. intros snapshot.
  apply confined_map_call_bind; [intros; apply confined_stopBot|].
  intros ps Hps. apply confined_try_catch; [|intros; apply confined_mret].
  apply confined_bind; [now apply confined_Promise_all|].
  intros; apply confined_mret.
Qed.

Lemma confined_checkRunningBots : confined P checkRunningBots.
Proof.
  unfold checkRunningBots. apply confined_db_all. intros [e|rows].
  - apply confined_mret.
  - apply confined_for_of. intros bot. unfold heal_bot.
    apply confined_bind; [now apply confined_ask|]. intros has.
    destruct (negb has); [|apply confined_mret].
    apply confined_discard, confined_startBot.
Qed.

Lemma confined_restoreRunningBots : confined P restoreRunningBots.
Proof.
  unfold restoreRunningBots. apply confined_db_all. intros [e|rows].
  - apply confined_mret.
  - apply confined_for_of. intros bot.
    apply confined_discard, confined_startBot.
Qed.

End bot_steps.

Lemma js_or_nonempty (a : option string) (b : string) :
  b <> "" -> js_or a b <> "".
Proof.
  intros Hb. unfold js_or. destruct a as [s|]; [|exact Hb].
  now destruct (decide (s = "")).
Qed.

Lemma default_domain_nonempty (id : Z) : pretty id +:+ ".localhost" <> "".
Proof. now destruct (pretty id). Qed.

Section website_steps.
Hypothesis P_website_write :
  forall w status id,
    P w (with_websites (sql_update_website status id (clock w) (websites w)) w).
Hypothesis P_website_set :
  forall w id d,
    website_entry_sound (id, d) ->
    P w (with_deployedWebsites (JsMap.set id d (deployedWebsites w)) w).
Hypothesis P_website_delete :
  forall w id,
    P w (with_deployedWebsites (JsMap.delete id (deployedWebsites w)) w).

Lemma confined_updateWebsiteStatus (id : Z) (status : string) :
  confined P (updateWebsiteStatus id status).
Proof. unfold updateWebsiteStatus. apply confined_db_run. auto. Qed.

Lemma confined_deployWebsite (id : Z) (p : string) (d : option string) :
  confined P (deployWebsite id p d).
Proof.
  unfold deployWebsite. apply confined_try_catch.
  - apply confined_bind; [now apply confined_ask|]. intros [|].
    + apply confined_mret.
    + apply confined_bind; [now apply confined_ask|]. intros deployTime.
      apply confined_bind.
      { apply confined_tell. intros w. apply P_website_set.
        repeat split. cbn.
        apply js_or_nonempty, default_domain_nonempty. }
      intros _. apply confined_bind; [|intros; apply confined_mret].
      apply confined_await, confined_updateWebsiteStatus.
  - intros e. apply confined_bind; [|intros; apply confined_mret].
    apply confined_await, confined_updateWebsiteStatus.
Qed.

Lemma confined_undeployWebsite (id : Z) : confined P (undeployWebsite id).
Proof.
  unfold undeployWebsite.
  apply confined_try_catch; [|intros; apply confined_mret].
  apply confined_bind; [now apply confined_ask|]. intros [h|].
  - apply confined_bind;
      [apply confined_tell; intros w; apply P_website_delete|].
    intros _. apply confined_bind; [|intros; apply confined_mret].
    apply confined_await, confined_updateWebsiteStatus.
  - apply confined_mret.
Qed.

Lemma confined_checkActiveWebsites : confined P checkActiveWebsites.
Proof.
  unfold checkActiveWebsites. apply confined_db_all. intros [e|rows].
  - apply confined_mret.
  - apply confined_for_of. intros site. unfold heal_website.
    apply confined_bind; [now apply confined_ask|]. intros has.
    destruct (negb has); [|apply confined_mret].
    apply confined_discard, confined_deployWebsite.
Qed.

Lemma confined_restoreActiveWebsites : confined P restoreActiveWebsites.
Proof.
  unfold restoreActiveWebsites. apply confined_db_all. intros [e|rows].
  - apply confined_mret.
  - apply confined_for_of. intros site.
    apply confined_discard, confined_deployWebsite.
Qed.

End website_steps.
End steps.

(** ** What every operation keeps *)

Lemma Forall_JsMap_set {V} (Q : Z * V -> Prop) (k : Z) (v : V) (m : JsMap.t V) :
  Forall Q m -> Q (k, v) -> Forall Q (JsMap.set k v m).
Proof.
  intros Hm Hv. induction Hm as [|e m He Hm IH]; cbn [JsMap.set].
  - now constructor.
  - destruct (Z.eqb (fst e) k); constructor; auto.
Qed.

Lemma Forall_JsMap_delete {V} (Q : Z * V -> Prop) (k : Z) (m : JsMap.t V) :
  Forall Q m -> Forall Q (JsMap.delete k m).
Proof.
  intros Hm. unfold JsMap.delete. induction Hm as [|e m He _ IH]; cbn.
  - constructor.
  - destruct (negb (Z.eqb (fst e) k)); [constructor|]; auto.
Qed.

Lemma sql_update_bot_columns (status : string) (id now : Z) (t : list botRow) :
  List.map bot_columns (sql_update_bot status id now t) = List.map bot_columns t.
Proof.
  unfold sql_update_bot. induction t as [|r t IH]; cbn; [reflexivity|].
  rewrite IH. now destruct (Z.eqb (bot_id r) id).
Qed.

Lemma sql_update_website_columns (status : string) (id now : Z)
    (t : list websiteRow) :
  List.map website_columns (sql_update_website status id now t)
  = List.map website_columns t.
Proof.
  unfold sql_update_website. induction t as [|r t IH]; cbn; [reflexivity|].
  rewrite IH. now destruct (Z.eqb (website_id r) id).
Qed.

Lemma steady_refl (w : World) : steady w w.
Proof. unfold steady. split; [auto|]. repeat split; auto; lia. Qed.

Lemma steady_trans (w1 w2 w3 : World) :
  steady w1 w2 -> steady w2 w3 -> steady w1 w3.
Proof.
  unfold steady.
  intros (A1 & A2 & A3 & A4 & A5 & A6 & A7 & A8)
         (B1 & B2 & B3 & B4 & B5 & B6 & B7 & B8).
  split; [auto|]. repeat split; try congruence; lia.
Qed.

(** A step that leaves the registries and the tables alone and moves the
    clock and the two counters forward, if at all. *)
Lemma steady_bookkeeping (w w' : World) :
  runningBots w' = runningBots w -> deployedWebsites w' = deployedWebsites w ->
  bots w' = bots w -> websites w' = websites w ->
  clock w <= clock w' ->
  db_fault w' = db_fault w -> (db_calls w <= db_calls w')%nat ->
  random w' = random w -> (random_calls w <= random_calls w')%nat ->
  steady w w'.
Proof.
  intros R D B W C F N G M. unfold steady, registries_sound.
  rewrite R, D, B, W. split; [auto|]. repeat split; auto.
Qed.

(** A step on the registries alone. *)
Lemma steady_registries (w w' : World) :
  (registries_sound w -> registries_sound w') ->
  bots w' = bots w -> websites w' = websites w -> clock w' = clock w ->
  db_fault w' = db_fault w -> db_calls w' = db_calls w ->
  random w' = random w -> random_calls w' = random_calls w ->
  steady w w'.
Proof.
  intros H B W C F N G M. unfold steady. rewrite B, W, C, F, N, G, M.
  split; [exact H|]. repeat split; auto; lia.
Qed.

Lemma steady_bot_set (w : World) (id : Z) (h : botProcess) :
  bp_id h = id -> bp_status h = "running" ->
  steady w (with_runningBots (JsMap.set id h (runningBots w)) w).
Proof.
  intros Hid Hst. apply steady_registries; auto.
  intros (H1 & H2 & H3 & H4). repeat split; auto.
  - now apply JsMapFacts.wf_set.
  - apply Forall_JsMap_set; [exact H2|]. now split.
Qed.

Lemma steady_bot_delete (w : World) (id : Z) :
  steady w (with_runningBots (JsMap.delete id (runningBots w)) w).
Proof.
  apply steady_registries; auto.
  intros (H1 & H2 & H3 & H4). repeat split; auto.
  - now apply JsMapFacts.wf_delete.
  - now apply Forall_JsMap_delete.
Qed.

Lemma steady_website_set (w : World) (id : Z) (d : deployment) :
  website_entry_sound (id, d) ->
  steady w (with_deployedWebsites (JsMap.set id d (deployedWebsites w)) w).
Proof.
  intros Hd. apply steady_registries; auto.
  intros (H1 & H2 & H3 & H4). repeat split; auto.
  - now apply JsMapFacts.wf_set.
  - now apply Forall_JsMap_set.
Qed.

Lemma steady_website_delete (w : World) (id : Z) :
  steady w (with_deployedWebsites (JsMap.delete id (deployedWebsites w)) w).
Proof.
  apply steady_registries; auto.
  intros (H1 & H2 & H3 & H4). repeat split; auto.
  - now apply JsMapFacts.wf_delete.
  - now apply Forall_JsMap_delete.
Qed.

Lemma steady_bot_write (w : World) (status : string) (id : Z) :
  steady w (with_bots (sql_update_bot status id (clock w) (bots w)) w).
Proof.
  unfold steady. split; [auto|].
  repeat split; auto; cbn; try lia. apply sql_update_bot_columns.
Qed.

Lemma steady_website_write (w : World) (status : string) (id : Z) :
  steady w (with_websites (sql_update_website status id (clock w) (websites w)) w).
Proof.
  unfold steady. split; [auto|].
  repeat split; auto; cbn; try lia. apply sql_update_website_columns.
Qed.

Lemma steady_random (w : World) : steady w (next_random w).
Proof. apply steady_bookkeeping; cbn; auto; lia. Qed.

Lemma steady_db_call (w : World) : steady w (next_db_call w).
Proof. apply steady_bookkeeping; cbn; auto; lia. Qed.

Lemma steady_clock (w : World) (c : Z) : clock w <= c -> steady w (with_clock c w).
Proof. intros H. apply steady_bookkeeping; cbn; auto; lia. Qed.

(** ** Every operation is steady *)

Create HintDb steady_steps.
#[local] Hint Resolve steady_refl steady_random steady_db_call steady_clock
  steady_bot_write steady_bot_set steady_bot_delete
  steady_website_write steady_website_set steady_website_delete : steady_steps.

Ltac steady_by lemma :=
  apply lemma; eauto using steady_trans with steady_steps.

Lemma steady_startBot (id : Z) (p : string) (c : botConfig) :
  confined steady (startBot id p c).
Proof. steady_by confined_startBot. Qed.

Lemma steady_stopBot (id : Z) : confined steady (stopBot id).
Proof. steady_by confined_stopBot. Qed.

Lemma steady_restartBot (id : Z) (p : string) (c : botConfig) :
  confined steady (restartBot id p c).
Proof. steady_by confined_restartBot. Qed.

Lemma steady_healthCheck : confined steady healthCheck.
Proof. steady_by confined_healthCheck. Qed.

Lemma steady_on_SIGTERM : confined steady on_SIGTERM.
Proof. steady_by confined_on_SIGTERM. Qed.

Lemma steady_checkRunningBots : confined steady checkRunningBots.
Proof. steady_by confined_checkRunningBots. Qed.

Lemma steady_restoreRunningBots : confined steady restoreRunningBots.
Proof. steady_by confined_restoreRunningBots. Qed.

Lemma steady_deployWebsite (id : Z) (p : string) (d : option string) :
  confined steady (deployWebsite id p d).
Proof. steady_by confined_deployWebsite. Qed.

Lemma steady_undeployWebsite (id : Z) : confined steady (undeployWebsite id).
Proof. steady_by confined_undeployWebsite. Qed.

Lemma steady_checkActiveWebsites : confined steady checkActiveWebsites.
Proof. steady_by confined_checkActiveWebsites. Qed.

Lemma steady_restoreActiveWebsites : confined steady restoreActiveWebsites.
Proof. steady_by confined_restoreActiveWebsites. Qed.

Lemma steady_run {A} (m : Async A) (w : World) :
  confined steady m -> steady w (fst (run m w)).
Proof.
  intros H. apply run_confined; auto using steady_refl. exact steady_trans.
Qed.

Lemma steady_run_detached (tasks : list (Async unit)) (w : World) :
  Forall (confined steady) tasks -> steady w (fst (run_detached tasks w)).
Proof.
  intros H. apply run_detached_confined; auto using steady_refl.
  exact steady_trans.
Qed.

Lemma perform_steady (o : operation) (w : World) : steady w (perform o w).
Proof.
  destruct o; cbn [perform].
  - apply steady_run, confined_await, steady_startBot.
  - apply steady_run, confined_await, steady_stopBot.
  - apply steady_run, steady_restartBot.
  - apply steady_run, confined_await, steady_deployWebsite.
  - apply steady_run, confined_await, steady_undeployWebsite.
  - apply steady_run. unfold cron_health_check.
    apply confined_bind; [apply confined_await, steady_healthCheck|].
    intros; apply confined_mret.
  - apply steady_run_detached.
    constructor; [apply steady_checkRunningBots|].
    constructor; [apply steady_checkActiveWebsites|constructor].
  - apply steady_run_detached.
    constructor; [apply steady_restoreRunningBots|].
    constructor; [apply steady_restoreActiveWebsites|constructor].
  - apply steady_run, steady_on_SIGTERM.
Qed.

Lemma perform_all_steady (os : list operation) (w : World) :
  steady w (perform_all os w).
Proof.
  unfold perform_all. revert w.
  induction os as [|o os IH]; intros w; cbn [fold_left].
  - apply steady_refl.
  - exact (steady_trans _ _ _ (perform_steady o w) (IH (perform o w))).
Qed.

Lemma manager_call_steady (schedule : list event) :
  Forall manager_call schedule -> Forall (confined_event steady) schedule.
Proof.
  intros H. apply (Forall_impl _ _ _ H). intros [m|i]; cbn; [|auto].
  intros [(id & p & c & ->)|[(id & ->)|[(id & p & c & ->)|[(id & ->)
         |[(id & p & c & ->)|[(id & ->)|(id & ->)]]]]]].
  - apply steady_startBot.
  - apply steady_stopBot.
  - apply steady_restartBot.
  - apply steady_undeployWebsite.
  - apply confined_await, steady_startBot.
  - apply confined_await, steady_stopBot.
  - apply confined_await, steady_undeployWebsite.
Qed.

Lemma sample_world_sound (tb : list botRow) (tw : list websiteRow)
    (failing : list nat) :
  registries_sound (sample_world [(5, handle5)] [(5, deployed5)] tb tw failing).
Proof.
  unfold registries_sound, JsMap.wf. cbn.
  repeat split; repeat constructor; auto; try apply not_elem_of_nil.
Qed.

(** X1.  The two registries stay sound through any sequence of
    operations, whatever the database and the random source do: no id is
    registered twice, every bot handle sits under its own id with status
    [running], every deployment sits under its own id with status
    [active], a non-empty domain and the url [https://] followed by that
    domain. *)
Theorem operations_keep_registries_sound (os : list operation) (w : World) :
  registries_sound w -> registries_sound (perform_all os w).
Proof. intros H. now apply (perform_all_steady os w). Qed.

Lemma operations_keep_registries_sound_witness :
  registries_sound
    (perform_all [RestartBot 5 "" ConfigEmptyObject; UndeployWebsite 5;
                  DeployWebsite 6 "uploads/websites/6.zip" None;
                  HealthCheck; DeploymentStatusCheck; Sigterm]
       (sample_world [(5, handle5)] [(5, deployed5)] [bot5] [site5] [1; 2]%nat)).
Proof.
  apply operations_keep_registries_sound, sample_world_sound.
Defined.

(** X2.  The two registries stay sound when calls are in flight
    together: after any schedule of [startBot], [stopBot], [restartBot]
    and [undeployWebsite] calls (direct or through [WorkerAPI]) on any
    ids, resumed at their awaits in any order, no id is registered twice
    and every handle and deployment is as [startBot] and [deployWebsite]
    build them, under its own id. *)
Theorem interleaved_calls_keep_registries_sound (schedule : list event)
    (w : World) :
  Forall manager_call schedule -> registries_sound w ->
  registries_sound (fst (interleave schedule w)).
Proof.
  intros Hs Hw. unfold interleave.
  destruct (fold_step_confined steady steady_refl steady_trans schedule w []
              (manager_call_steady schedule Hs) (Forall_nil_2 _)) as [H _].
  now apply H.
Qed.

Lemma interleaved_calls_keep_registries_sound_witness :
  registries_sound
    (fst (interleave [Call (restartBot 5 "" ConfigEmptyObject);
                      Call (startBot 5 "" ConfigEmptyObject);
                      Resume 0; Call (stopBot 5); Resume 1; Resume 0;
                      Call (undeployWebsiteAPI 5); Resume 2; Resume 3]
            (sample_world [(5, handle5)] [(5, deployed5)] [bot5] [site5] [0%nat]))).
Proof.
  apply interleaved_calls_keep_registries_sound; [|apply sample_world_sound].
  repeat (apply List.Forall_cons; [cbn; eauto 12|]). apply List.Forall_nil.
Defined.

(** X3.  No operation inserts, deletes or reorders a row, or assigns any
    column other than [status] and [updated_at]: after any sequence of
    operations the tables hold the same rows in the same order with the
    same id, file path and config (bots), id, domain and file path
    (websites). *)
Theorem operations_keep_rows (os : list operation) (w : World) :
  List.map bot_columns (bots (perform_all os w)) = List.map bot_columns (bots w)
  /\ List.map website_columns (websites (perform_all os w))
     = List.map website_columns (websites w).
Proof.
  destruct (perform_all_steady os w) as (_ & H1 & H2 & _). now split.
Qed.

(** ** What belongs to the other manager *)

Lemma websites_untouched_trans (w1 w2 w3 : World) :
  websites_untouched w1 w2 -> websites_untouched w2 w3 ->
  websites_untouched w1 w3.
Proof. intros [A B] [C D]. split; congruence. Qed.

Lemma bots_untouched_trans (w1 w2 w3 : World) :
  bots_untouched w1 w2 -> bots_untouched w2 w3 -> bots_untouched w1 w3.
Proof. intros [A B] [C D]. split; congruence. Qed.

Ltac untouched_by lemma :=
  apply lemma;
  first [exact websites_untouched_trans | exact bots_untouched_trans
        | intros; split; reflexivity].

Lemma bot_operation_frame (o : operation) (w : World) :
  bot_operation o = true -> websites_untouched w (perform o w).
Proof.
  assert (forall A (m : Async A) w,
            confined websites_untouched m ->
            websites_untouched w (fst (run m w))) as Hrun.
  { intros A m w0 H. apply run_confined; auto.
    - intros; split; reflexivity.
    - exact websites_untouched_trans. }
  destruct o; cbn [bot_operation perform]; try discriminate; intros _;
    apply Hrun.
  - apply confined_await; untouched_by confined_startBot.
  - apply confined_await; untouched_by confined_stopBot.
  - untouched_by confined_restartBot.
  - unfold cron_health_check. apply confined_bind.
    + apply confined_await; untouched_by confined_healthCheck.
    + intros; apply confined_mret.
  - untouched_by confined_on_SIGTERM.
Qed.

Lemma website_operation_frame (o : operation) (w : World) :
  website_operation o = true -> bots_untouched w (perform o w).
Proof.
  assert (forall A (m : Async A) w,
            confined bots_untouched m ->
            bots_untouched w (fst (run m w))) as Hrun.
  { intros A m w0 H. apply run_confined; auto.
    - intros; split; reflexivity.
    - exact bots_untouched_trans. }
  destruct o; cbn [website_operation perform]; try discriminate; intros _;
    apply Hrun.
  - apply confined_await; untouched_by confined_deployWebsite.
  - apply confined_await; untouched_by confined_undeployWebsite.
Qed.

(** X4.  [BotManager] never touches what belongs to [WebsiteManager]:
    after any sequence of bot starts, stops, restarts, health checks and
    SIGTERM drains, the website registry and the [websites] table are
    what they were. *)
Theorem bot_operations_leave_websites (os : list operation) (w : World) :
  forallb bot_operation os = true ->
  deployedWebsites (perform_all os w) = deployedWebsites w
  /\ websites (perform_all os w) = websites w.
Proof.
  unfold perform_all. revert w.
  induction os as [|o os IH]; intros w H; cbn [fold_left]; [now split|].
  cbn [forallb] in H. apply andb_true_iff in H as [Ho Hos].
  destruct (bot_operation_frame o w Ho) as [A B].
  destruct (IH (perform o w) Hos) as [C D]. split; congruence.
Qed.

Lemma bot_operations_leave_websites_witness :
  let w := sample_world [(5, handle5)] [(5, deployed5)] [bot5] [site5] [1]%nat in
  let w' := perform_all [StopBot 5; StartBot 5 "" ConfigEmptyObject;
                         RestartBot 6 "" ConfigEmptyObject; HealthCheck;
                         Sigterm] w in
  deployedWebsites w' = [(5, deployed5)] /\ websites w' = [site5].
Proof.
  exact (bot_operations_leave_websites
           [StopBot 5; StartBot 5 "" ConfigEmptyObject;
            RestartBot 6 "" ConfigEmptyObject; HealthCheck; Sigterm]
           (sample_world [(5, handle5)] [(5, deployed5)] [bot5] [site5] [1]%nat)
           eq_refl).
Defined.

(** X5.  [WebsiteManager] never touches what belongs to [BotManager]:
    after any sequence of deployments and undeployments the bot registry
    and the [bots] table are what they were. *)
Theorem website_operations_leave_bots (os : list operation) (w : World) :
  forallb website_operation os = true ->
  runningBots (perform_all os w) = runningBots w
  /\ bots (perform_all os w) = bots w.
Proof.
  unfold perform_all. revert w.
  induction os as [|o os IH]; intros w H; cbn [fold_left]; [now split|].
  cbn [forallb] in H. apply andb_true_iff in H as [Ho Hos].
  destruct (website_operation_frame o w Ho) as [A B].
  destruct (IH (perform o w) Hos) as [C D]. split; congruence.
Qed.

Lemma website_operations_leave_bots_witness :
  let w := sample_world [(5, handle5)] [(5, deployed5)] [bot5] [site5] [1]%nat in
  let w' := perform_all [UndeployWebsite 5; DeployWebsite 5 "" None;
                         DeployWebsite 6 "" (Some "example.org")] w in
  runningBots w' = [(5, handle5)] /\ bots w' = [bot5].
Proof.
  exact (website_operations_leave_bots
           [UndeployWebsite 5; DeployWebsite 5 "" None;
            DeployWebsite 6 "" (Some "example.org")]
           (sample_world [(5, handle5)] [(5, deployed5)] [bot5] [site5] [1]%nat)
           eq_refl).
Defined.

(** ** Single calls: rejections, round trips, ids without a record *)

Lemma delete_set_fresh {V} (k : Z) (v : V) (m : JsMap.t V) :
  JsMap.has k m = false -> JsMap.delete k (JsMap.set k v m) = m.
Proof.
  intros H. rewrite JsMapFacts.set_fresh by exact H.
  unfold JsMap.delete. rewrite List.filter_app. cbn. rewrite Z.eqb_refl. cbn.
  rewrite app_nil_r. exact (JsMapFacts.delete_absent k m H).
Qed.

Lemma sql_update_bot_absent (status : string) (id now : Z) (t : list botRow) :
  ~ In id (List.map bot_id t) -> sql_update_bot status id now t = t.
Proof.
  unfold sql_update_bot. induction t as [|r t IH]; cbn; [reflexivity|].
  intros H. destruct (Z.eqb (bot_id r) id) eqn:E.
  - apply Z.eqb_eq in E. tauto.
  - rewrite IH; tauto.
Qed.

Lemma sql_update_website_absent (status : string) (id now : Z)
    (t : list websiteRow) :
  ~ In id (List.map website_id t) -> sql_update_website status id now t = t.
Proof.
  unfold sql_update_website. induction t as [|r t IH]; cbn; [reflexivity|].
  intros H. destruct (Z.eqb (website_id r) id) eqn:E.
  - apply Z.eqb_eq in E. tauto.
  - rewrite IH; tauto.
Qed.

(** X6.  Which calls can reject.  [startBot] and [deployWebsite] reject
    exactly when the id has no handle, the status write fails and the
    write of [error] in the catch block fails as well; the rejection
    carries the second failure.  [stopBot] and [undeployWebsite] never
    reject. *)
Theorem start_rejects_exactly (w : World) (id : Z) (p : string)
    (c : botConfig) (d : option string) (e : Error) :
  (snd (run (startBot id p c) w) = Thrown e
   <-> JsMap.has id (runningBots w) = false
       /\ db_fault w (db_calls w) = true
       /\ db_fault w (S (db_calls w)) = true
       /\ e = DbError (S (db_calls w)))
  /\ (snd (run (deployWebsite id p d) w) = Thrown e
      <-> JsMap.has id (deployedWebsites w) = false
          /\ db_fault w (db_calls w) = true
          /\ db_fault w (S (db_calls w)) = true
          /\ e = DbError (S (db_calls w)))
  /\ snd (run (stopBot id) w) <> Thrown e
  /\ snd (run (undeployWebsite id) w) <> Thrown e.
Proof.
  rewrite run_startBot, run_deployWebsite, run_stopBot, run_undeployWebsite.
  cbv zeta. split; [|split; [|split]].
  - destruct (JsMap.has id (runningBots w)); [|destruct (db_fault w (db_calls w));
      [destruct (db_fault w (S (db_calls w)))|]]; cbn [snd];
      split; try discriminate; try (intros (A & B & C & D); discriminate).
    + intros [= <-]. auto.
    + intros (_ & _ & _ & ->). reflexivity.
  - destruct (JsMap.has id (deployedWebsites w));
      [|destruct (db_fault w (db_calls w));
        [destruct (db_fault w (S (db_calls w)))|]]; cbn [snd];
      split; try discriminate; try (intros (A & B & C & D); discriminate).
    + intros [= <-]. auto.
    + intros (_ & _ & _ & ->). reflexivity.
  - destruct (JsMap.has id (runningBots w)); [destruct (db_fault w (db_calls w))|];
      discriminate.
  - destruct (JsMap.has id (deployedWebsites w));
      [destruct (db_fault w (db_calls w))|]; discriminate.
Qed.

(** X7.  A stop right after a start leaves the registry without the id
    and otherwise as it was before the start, whatever the database did
    to the two status writes; for an id that had no handle the registry
    is exactly what it was.  The same for [deployWebsite] followed by
    [undeployWebsite]. *)
Theorem start_then_stop_restores_registry (w : World) (id : Z) (p : string)
    (c : botConfig) (d : option string) :
  let bots' :=
    runningBots (fst (run (stopBot id) (fst (run (startBot id p c) w)))) in
  let sites' :=
    deployedWebsites
      (fst (run (undeployWebsite id) (fst (run (deployWebsite id p d) w)))) in
  bots' = JsMap.delete id (runningBots w)
  /\ (JsMap.has id (runningBots w) = false -> bots' = runningBots w)
  /\ sites' = JsMap.delete id (deployedWebsites w)
  /\ (JsMap.has id (deployedWebsites w) = false -> sites' = deployedWebsites w).
Proof.
  cbv zeta.
  assert (runningBots (fst (run (stopBot id) (fst (run (startBot id p c) w))))
          = JsMap.delete id (runningBots w)) as Hb.
  { rewrite run_stopBot, startBot_has. cbv zeta.
    assert (JsMap.delete id (runningBots (fst (run (startBot id p c) w)))
            = JsMap.delete id (runningBots w)) as Hd.
    { destruct (JsMap.has id (runningBots w)) eqn:H.
      - now rewrite startBot_present.
      - rewrite startBot_registry by exact H.
        rewrite <- (JsMapFacts.set_fresh id (new_botProcess id w)) by exact H.
        rewrite delete_set_fresh by exact H.
        symmetry. now apply JsMapFacts.delete_absent. }
    destruct (db_fault _ _); cbn; exact Hd. }
  assert (deployedWebsites
            (fst (run (undeployWebsite id) (fst (run (deployWebsite id p d) w))))
          = JsMap.delete id (deployedWebsites w)) as Hs.
  { rewrite run_undeployWebsite, deployWebsite_has. cbv zeta.
    assert (JsMap.delete id
              (deployedWebsites (fst (run (deployWebsite id p d) w)))
            = JsMap.delete id (deployedWebsites w)) as Hd.
    { destruct (JsMap.has id (deployedWebsites w)) eqn:H.
      - now rewrite deployWebsite_present.
      - rewrite deployWebsite_registry by exact H.
        rewrite <- (JsMapFacts.set_fresh id (new_deployment id d w))
          by exact H.
        rewrite delete_set_fresh by exact H.
        symmetry. now apply JsMapFacts.delete_absent. }
    destruct (db_fault _ _); cbn; exact Hd. }
  rewrite Hb, Hs. repeat split.
  - intros H. now apply JsMapFacts.delete_absent.
  - intros H. now apply JsMapFacts.delete_absent.
Qed.

Lemma start_then_stop_restores_registry_witness :
  let w := sample_world [(5, handle5)] [(5, deployed5)] [bot5] [site5] [0]%nat in
  runningBots (fst (run (stopBot 6) (fst (run (startBot 6 "" ConfigEmptyObject) w))))
  = [(5, handle5)]
  /\ deployedWebsites
       (fst (run (undeployWebsite 6) (fst (run (deployWebsite 6 "" None) w))))
     = [(5, deployed5)].
Proof.
  destruct (start_then_stop_restores_registry
              (sample_world [(5, handle5)] [(5, deployed5)] [bot5] [site5]
                 [0]%nat) 6 "" ConfigEmptyObject None)
    as (_ & H1 & _ & H2).
  split; [exact (H1 eq_refl)|exact (H2 eq_refl)].
Defined.

(** X8.  The number of rows changed by the status write is ignored: for
    an id that has no record in the table, [startBot] with an accepting
    database returns true and registers a handle although nothing was
    persisted, and [deployWebsite] returns the deployment likewise. *)
Theorem start_without_record (w : World) (id : Z) (p : string)
    (c : botConfig) (d : option string) :
  db_fault w (db_calls w) = false ->
  (JsMap.has id (runningBots w) = false ->
   ~ In id (List.map bot_id (bots w)) ->
   let (w', o) := run (startBot id p c) w in
   o = Returned true
   /\ JsMap.get id (runningBots w') = Some (new_botProcess id w)
   /\ bots w' = bots w)
  /\ (JsMap.has id (deployedWebsites w) = false ->
      ~ In id (List.map website_id (websites w)) ->
      let (w', o) := run (deployWebsite id p d) w in
      o = Returned (Some (new_deployment id d w))
      /\ JsMap.get id (deployedWebsites w') = Some (new_deployment id d w)
      /\ websites w' = websites w).
Proof.
  intros Hdb. rewrite run_startBot, run_deployWebsite, Hdb. split.
  - intros -> Hno. cbv zeta. cbn. repeat split.
    + apply JsMapFacts.get_set_eq.
    + now apply sql_update_bot_absent.
  - intros -> Hno. cbv zeta. cbn. repeat split.
    + apply JsMapFacts.get_set_eq.
    + now apply sql_update_website_absent.
Qed.

Lemma start_without_record_witness :
  let w := sample_world [] [] [bot5] [site5] [] in
  (let (w', o) := run (startBot 6 "" ConfigEmptyObject) w in
   o = Returned true
   /\ JsMap.get 6 (runningBots w') = Some (BotProcess 6 1000 "running" 5000)
   /\ bots w' = [bot5])
  /\ (let (w', o) := run (deployWebsite 6 "" None) w in
      o = Returned (Some (new_deployment 6 None w))
      /\ JsMap.get 6 (deployedWebsites w') = Some (new_deployment 6 None w)
      /\ websites w' = [site5]).
Proof.
  destruct (start_without_record (sample_world [] [] [bot5] [site5] []) 6 ""
              ConfigEmptyObject None eq_refl) as [H1 H2].
  split.
  - apply H1; [reflexivity|]. cbn. intros [H|[]]. discriminate H.
  - apply H2; [reflexivity|]. cbn. intros [H|[]]. discriminate H.
Defined.

Lemma run_restartBot_registry (w : World) (id : Z) (p : string)
    (c : botConfig) :
  runningBots (fst (run (restartBot id p c) w))
  = (JsMap.delete id (runningBots w)
     ++ [(id, BotProcess id (clock w + 2000) "running"
                (Math_floor (random w (random_calls w) * 10000)))])%list.
Proof.
  rewrite run_restartBot.
  pose proof (run_stopBot id w) as Hs.
  destruct (run (stopBot id) w) as [w1 o]. cbn [fst].
  assert (runningBots w1 = JsMap.delete id (runningBots w)
          /\ clock w1 = clock w /\ random w1 = random w
          /\ random_calls w1 = random_calls w) as (R & C & G & N).
  { destruct (JsMap.has id (runningBots w)) eqn:H; cbv zeta in Hs;
      [destruct (db_fault w (db_calls w))|]; injection Hs as -> _; cbn;
      repeat split.
    symmetry. now apply JsMapFacts.delete_absent. }
  rewrite startBot_registry.
  - cbn [runningBots with_clock]. rewrite R. unfold new_botProcess.
    cbn [clock random random_calls with_clock]. now rewrite G, N, C.
  - cbn [runningBots with_clock]. rewrite R. apply JsMapFacts.has_delete_eq.
Qed.


(** ** The health check *)

Lemma healthCheck_loop :
  healthCheck = (runningBots ← getRunningBots; for_of runningBots check_bot).
Proof. reflexivity. Qed.

Lemma run_check_bot (bot : botProcess) (w : World) :
  run (check_bot bot) w =
  if js_lt (random w (random_calls w)) (1 # 100)
  then
    match run (restartBot (bp_id bot) "" ConfigEmptyObject) (next_random w) with
    | (w', Returned _) => (w', Returned tt)
    | (w', Thrown _) =>
      (fst (run (stopBot (bp_id bot)) w'), Returned tt)
    end
  else (next_random w, Returned tt).
Proof.
  unfold check_bot. rewrite run_try_catch, run_bind. unfold Date_now.
  rewrite run_ask, run_bind. cbn [run Math_random].
  destruct (js_lt (random w (random_calls w)) (1 # 100)); [|reflexivity].
  rewrite run_discard.
  destruct (run (restartBot (bp_id bot) "" ConfigEmptyObject) (next_random w))
    as [w' [b|e]]; cbn [fst snd]; [reflexivity|].
  rewrite run_discard.
  destruct (stopBot_returns (bp_id bot) w') as [b ->]. reflexivity.
Qed.

Lemma no_failure_next (w : World) :
  no_simulated_failure w -> no_simulated_failure (next_random w).
Proof. intros H n Hn. cbn in *. apply H. lia. Qed.

Lemma check_bots_quiet (l : list botProcess) (w : World) :
  no_simulated_failure w ->
  run (for_of l check_bot) w = (after_draws (length l) w, Returned tt).
Proof.
  revert w. induction l as [|bot l IH]; intros w H; cbn [for_of length].
  - cbn. unfold after_draws. rewrite Nat.add_0_r. now destruct w.
  - rewrite run_bind, run_check_bot, (H (random_calls w)) by lia.
    rewrite IH by now apply no_failure_next.
    unfold after_draws. cbn. do 2 f_equal. lia.
Qed.

(** X10.  A health check in which no failure is simulated draws one
    random number per registered bot and does nothing else: registries,
    tables and clock are untouched and no statement is sent to the
    database. *)
Theorem healthCheck_without_failure (w : World) :
  no_simulated_failure w ->
  run healthCheck w = (after_draws (length (runningBots w)) w, Returned tt).
Proof.
  intros H. rewrite healthCheck_loop, run_bind. unfold getRunningBots.
  rewrite run_ask, check_bots_quiet by exact H.
  unfold JsMap.values. now rewrite length_map.
Qed.

Lemma healthCheck_without_failure_witness :
  run healthCheck
      (sample_world [(5, handle5); (6, BotProcess 6 20 "running" 77)]
         [(5, deployed5)] [bot5] [site5] [0; 1]%nat)
  = (mkWorld [(5, handle5); (6, BotProcess 6 20 "running" 77)]
       [(5, deployed5)] [bot5] [site5] 1000 (faults [0; 1]%nat) 0
       (fun _ => 1 # 2) 2,
     Returned tt).
Proof.
  apply (healthCheck_without_failure
           (sample_world [(5, handle5); (6, BotProcess 6 20 "running" 77)]
              [(5, deployed5)] [bot5] [site5] [0; 1]%nat)).
  intros n _. reflexivity.
Defined.

Lemma steady_healthy (w w' : World) :
  steady w w' -> db_healthy w -> db_healthy w'.
Proof.
  intros (_ & _ & _ & _ & F & C & _) H. exact (db_healthy_later w w' F C H).
Qed.

Lemma steady_sound (w w' : World) :
  steady w w' -> registries_sound w -> registries_sound w'.
Proof. intros (H & _). exact H. Qed.

Lemma restartBot_healthy (w : World) (id : Z) (p : string) (c : botConfig) :
  db_healthy w -> exists b, snd (run (restartBot id p c) w) = Returned b.
Proof.
  intros H. rewrite run_restartBot. apply startBot_healthy.
  apply (steady_healthy (fst (run (stopBot id) w))).
  - apply steady_clock. lia.
  - exact (steady_healthy _ _ (steady_run _ w (steady_stopBot id)) H).
Qed.

Lemma keys_moved_last {V} (id : Z) (h : V) (m : JsMap.t V) :
  JsMap.wf m -> In id (JsMap.keys m) ->
  JsMap.keys (JsMap.delete id m ++ [(id, h)])%list ≡ₚ JsMap.keys m.
Proof.
  unfold JsMap.wf. induction m as [|e m IH]; intros Hwf Hin; [destruct Hin|].
  cbn [JsMap.keys List.map] in Hwf. apply NoDup_cons in Hwf as [Hne Hwf].
  unfold JsMap.delete. cbn [List.filter].
  destruct (Z.eqb (fst e) id) eqn:E; cbn [negb].
  - apply Z.eqb_eq in E.
    change (List.filter (fun e0 => negb (Z.eqb (fst e0) id)) m)
      with (JsMap.delete id m).
    rewrite JsMapFacts.delete_absent.
    + unfold JsMap.keys. rewrite List.map_app. cbn. rewrite E.
      symmetry. apply Permutation_cons_append.
    + apply JsMapFacts.has_false_In. rewrite <- E. intros H. apply Hne.
      now apply list_elem_of_In.
  - apply Z.eqb_neq in E. cbn. constructor. apply IH; [exact Hwf|].
    destruct Hin as [Hin|Hin]; [contradiction|exact Hin].
Qed.

Lemma check_bot_keeps (bot : botProcess) (w : World) :
  registries_sound w -> db_healthy w ->
  In (bp_id bot) (JsMap.keys (runningBots w)) ->
  exists w1,
    run (check_bot bot) w = (w1, Returned tt)
    /\ registries_sound w1 /\ db_healthy w1
    /\ JsMap.keys (runningBots w1) ≡ₚ JsMap.keys (runningBots w).
Proof.
  intros Hs Hh Hin. rewrite run_check_bot.
  pose proof (steady_random w) as S0.
  destruct (js_lt (random w (random_calls w)) (1 # 100)).
  - pose proof (steady_run (restartBot (bp_id bot) "" ConfigEmptyObject)
                  (next_random w) (steady_restartBot _ _ _)) as S1.
    pose proof (run_restartBot_registry (next_random w) (bp_id bot) ""
                  ConfigEmptyObject) as R.
    destruct (restartBot_healthy (next_random w) (bp_id bot) ""
                ConfigEmptyObject (steady_healthy _ _ S0 Hh)) as [b Hb].
    destruct (run (restartBot _ _ _) (next_random w)) as [w1 o].
    cbn [fst snd] in *. subst o. exists w1. split; [reflexivity|].
    pose proof (steady_trans _ _ _ S0 S1) as S.
    split; [exact (steady_sound _ _ S Hs)|].
    split; [exact (steady_healthy _ _ S Hh)|].
    rewrite R. cbn [runningBots next_random].
    apply keys_moved_last; [apply Hs|exact Hin].
  - exists (next_random w). split; [reflexivity|].
    split; [exact (steady_sound _ _ S0 Hs)|].
    split; [exact (steady_healthy _ _ S0 Hh)|reflexivity].
Qed.

Lemma check_bots_keep (l : list botProcess) (w : World) :
  registries_sound w -> db_healthy w ->
  (forall bot, In bot l -> In (bp_id bot) (JsMap.keys (runningBots w))) ->
  exists w',
    run (for_of l check_bot) w = (w', Returned tt)
    /\ JsMap.keys (runningBots w') ≡ₚ JsMap.keys (runningBots w).
Proof.
  revert w. induction l as [|bot l IH]; intros w Hs Hh Hin; cbn [for_of].
  - exists w. split; reflexivity.
  - destruct (check_bot_keeps bot w Hs Hh (Hin bot (or_introl eq_refl)))
      as (w1 & Hrun & Hs1 & Hh1 & Hp).
    destruct (IH w1 Hs1 Hh1) as (w' & Hrun' & Hp').
    { intros b Hb. apply (Permutation_in _ (Permutation_sym Hp)).
      apply Hin. now right. }
    exists w'. rewrite run_bind, Hrun. split; [exact Hrun'|].
    now rewrite Hp'.
Qed.

Lemma sound_keyed (w : World) :
  registries_sound w -> keyed_by_id (runningBots w).
Proof.
  intros (_ & H & _). apply (Forall_impl _ _ _ H). now intros e [He _].
Qed.

(** X11.  With a database that accepts every statement, a health check
    loses no bot and adds none, whichever failures it simulates: the
    registry holds the same ids afterwards, the restarted ones moved to
    the end, and the check completes. *)
Theorem healthCheck_keeps_bots (w : World) :
  registries_sound w -> db_healthy w ->
  let (w', o) := run healthCheck w in
  o = Returned tt
  /\ JsMap.keys (runningBots w') ≡ₚ JsMap.keys (runningBots w).
Proof.
  intros Hs Hh. rewrite healthCheck_loop, run_bind. unfold getRunningBots.
  rewrite run_ask.
  destruct (check_bots_keep (JsMap.values (runningBots w)) w Hs Hh)
    as (w' & -> & Hp).
  - intros bot Hb. rewrite <- (keyed_keys _ (sound_keyed w Hs)).
    now apply in_map.
  - split; [reflexivity|exact Hp].
Qed.

Lemma healthCheck_keeps_bots_witness :
  let (w', o) :=
    run healthCheck
        (mkWorld [(5, handle5); (6, BotProcess 6 20 "running" 77)] []
           [bot5] [] 1000 (fun _ => false) 0
           (fun n => if Nat.eqb n 0 then 0 # 1 else 1 # 2) 0) in
  o = Returned tt /\ JsMap.keys (runningBots w') ≡ₚ [5; 6].
Proof.
  apply (healthCheck_keeps_bots
           (mkWorld [(5, handle5); (6, BotProcess 6 20 "running" 77)] []
              [bot5] [] 1000 (fun _ => false) 0
              (fun n => if Nat.eqb n 0 then 0 # 1 else 1 # 2) 0)).
  - unfold registries_sound, JsMap.wf. cbn.
    repeat split; repeat constructor; auto; try apply not_elem_of_nil.
    intros H. apply elem_of_cons in H as [H|H]; [discriminate H|].
    exact (not_elem_of_nil _ H).
  - intros n _. reflexivity.
Defined.

(** ** The deployment status check and the start-up restoration *)

Lemma heal_bots_idle (rows : list botRow) (w : World) :
  (forall r, In r rows -> JsMap.has (bot_id r) (runningBots w) = true) ->
  run (for_of rows heal_bot) w = (w, Returned tt).
Proof.
  induction rows as [|r rows IH]; intros H; cbn [for_of]; [reflexivity|].
  rewrite run_bind, run_heal_bot, run_discard.
  rewrite startBot_present by (apply H; now left). cbn [fst snd].
  apply IH. intros r' Hr'. apply H. now right.
Qed.

Lemma heal_websites_idle (rows : list websiteRow) (w : World) :
  (forall r, In r rows -> JsMap.has (website_id r) (deployedWebsites w) = true) ->
  run (for_of rows heal_website) w = (w, Returned tt).
Proof.
  induction rows as [|r rows IH]; intros H; cbn [for_of]; [reflexivity|].
  rewrite run_bind, run_heal_website, run_discard.
  rewrite deployWebsite_present by (apply H; now left). cbn [fst snd].
  apply IH. intros r' Hr'. apply H. now right.
Qed.

Lemma status_check_idle_run (w : World) :
  nothing_missing w ->
  run_detached cron_deployment_status_check w
  = (next_db_call (next_db_call w), [Returned tt; Returned tt]).
Proof.
  intros [Hb Hw]. unfold cron_deployment_status_check. cbn [run_detached].
  assert (run checkRunningBots w = (next_db_call w, Returned tt)) as ->.
  { rewrite run_checkRunningBots. destruct (db_fault w (db_calls w));
      [reflexivity|].
    apply heal_bots_idle. intros r Hr.
    apply In_sql_select_bots in Hr as [Hr Hs]. now apply Hb. }
  assert (run checkActiveWebsites (next_db_call w)
          = (next_db_call (next_db_call w), Returned tt)) as ->.
  { rewrite run_checkActiveWebsites.
    destruct (db_fault (next_db_call w) (db_calls (next_db_call w)));
      [reflexivity|].
    apply heal_websites_idle. intros r Hr.
    apply In_sql_select_websites in Hr as [Hr Hs]. now apply Hw. }
  reflexivity.
Qed.

Lemma sample_nothing_missing :
  nothing_missing
    (sample_world [(5, handle5)] []
       [BotRow 5 "uploads/bots/5.zip" "running" None 0;
        BotRow 6 "uploads/bots/6.zip" "stopped" None 0]
       [site5] [0; 1]%nat).
Proof.
  split; cbn.
  - intros r [<-|[<-|[]]]; [reflexivity|discriminate].
  - intros r [<-|[]]. discriminate.
Qed.

(** X12.  When no running record lacks a handle and no active record
    lacks a deployment, the deployment status check changes nothing: it
    sends its two SELECT statements and both callbacks return, whether
    the database answers them or fails. *)
Theorem status_check_idle (w : World) :
  nothing_missing w ->
  run_detached cron_deployment_status_check w
  = (next_db_call (next_db_call w), [Returned tt; Returned tt]).
Proof. exact (status_check_idle_run w). Qed.

Lemma status_check_idle_witness :
  let w := sample_world [(5, handle5)] []
             [BotRow 5 "uploads/bots/5.zip" "running" None 0;
              BotRow 6 "uploads/bots/6.zip" "stopped" None 0]
             [site5] [0; 1]%nat in
  run_detached cron_deployment_status_check w
  = (next_db_call (next_db_call w), [Returned tt; Returned tt]).
Proof.
  exact (status_check_idle _ sample_nothing_missing).
Defined.

Lemma run_restoreRunningBots (w : World) :
  run restoreRunningBots w = run checkRunningBots w.
Proof.
  unfold restoreRunningBots, checkRunningBots. rewrite !run_db_all.
  destruct (db_fault w (db_calls w)); [reflexivity|].
  apply run_for_of_ext. intros r w0. now rewrite run_heal_bot.
Qed.

Lemma run_restoreActiveWebsites (w : World) :
  run restoreActiveWebsites w = run checkActiveWebsites w.
Proof.
  unfold restoreActiveWebsites, checkActiveWebsites. rewrite !run_db_all.
  destruct (db_fault w (db_calls w)); [reflexivity|].
  apply run_for_of_ext. intros r w0. now rewrite run_heal_website.
Qed.

Lemma run_initializeWorker (w : World) :
  run_detached initializeWorker w
  = run_detached cron_deployment_status_check w.
Proof.
  unfold initializeWorker, cron_deployment_status_check. cbn [run_detached].
  rewrite run_restoreRunningBots.
  destruct (run checkRunningBots w) as [w1 o1].
  now rewrite run_restoreActiveWebsites.
Qed.

(** X13.  The membership test of the deployment status check is
    redundant, [startBot] and [deployWebsite] making it themselves: in
    every world the start-up restoration of [initializeWorker] leaves the
    same registries and tables, and settles its two callbacks in the same
    way, as one deployment status check. *)
Theorem boot_is_status_check (w : World) :
  run_detached initializeWorker w
  = run_detached cron_deployment_status_check w.
Proof. exact (run_initializeWorker w). Qed.

Lemma startBot_rows (w : World) (id : Z) (p : string) (c : botConfig)
    (r : botRow) :
  In r (bots (fst (run (startBot id p c) w))) ->
  In r (bots w) \/ bot_id r = id.
Proof.
  rewrite run_startBot. destruct (JsMap.has id (runningBots w)); cbv zeta;
    [|destruct (db_fault w (db_calls w));
      [destruct (db_fault w (S (db_calls w)))|]]; cbn; auto;
    intros H; apply sql_update_bot_In in H as [[_ H]|[H _]]; auto.
Qed.

Lemma deployWebsite_rows (w : World) (id : Z) (p : string) (d : option string)
    (r : websiteRow) :
  In r (websites (fst (run (deployWebsite id p d) w))) ->
  In r (websites w) \/ website_id r = id.
Proof.
  assert (forall status now t,
            In r (sql_update_website status id now t) ->
            In r t \/ website_id r = id) as Hupd.
  { intros status now t. unfold sql_update_website. rewrite in_map_iff.
    intros [r0 [Hr Hin]]. destruct (Z.eqb (website_id r0) id) eqn:E.
    - apply Z.eqb_eq in E. subst r. now right.
    - subst r. now left. }
  rewrite run_deployWebsite. destruct (JsMap.has id (deployedWebsites w));
    cbv zeta;
    [|destruct (db_fault w (db_calls w));
      [destruct (db_fault w (S (db_calls w)))|]]; cbn; auto; apply Hupd.
Qed.

(** The rows found after the loop were there before or carry the id of
    a selected row. *)
Lemma heal_bots_rows (rows : list botRow) (w : World) (r' : botRow) :
  In r' (bots (fst (run (for_of rows heal_bot) w))) ->
  In r' (bots w) \/ exists r, In r rows /\ bot_id r = bot_id r'.
Proof.
  revert w. induction rows as [|r rows IH]; intros w; cbn [for_of].
  - cbn. auto.
  - rewrite run_bind, run_heal_bot, run_discard.
    pose proof (startBot_rows w (bot_id r) (bot_file_path r)
                  (ConfigColumn (bot_config r)) r') as Hr.
    destruct (run (startBot _ _ _) w) as [w1 [b|e]]; cbn [fst snd] in *.
    + intros H. destruct (IH w1 H) as [H1|(r0 & Hin & Hid)].
      * destruct (Hr H1) as [H0|H0]; [now left|].
        right. exists r. split; [now left|now symmetry].
      * right. exists r0. split; [now right|exact Hid].
    + intros H. destruct (Hr H) as [H0|H0]; [now left|].
      right. exists r. split; [now left|now symmetry].
Qed.

Lemma heal_websites_rows (rows : list websiteRow) (w : World)
    (r' : websiteRow) :
  In r' (websites (fst (run (for_of rows heal_website) w))) ->
  In r' (websites w) \/ exists r, In r rows /\ website_id r = website_id r'.
Proof.
  revert w. induction rows as [|r rows IH]; intros w; cbn [for_of].
  - cbn. auto.
  - rewrite run_bind, run_heal_website, run_discard.
    pose proof (deployWebsite_rows w (website_id r) (website_file_path r)
                  (website_domain r) r') as Hr.
    destruct (run (deployWebsite _ _ _) w) as [w1 [b|e]]; cbn [fst snd] in *.
    + intros H. destruct (IH w1 H) as [H1|(r0 & Hin & Hid)].
      * destruct (Hr H1) as [H0|H0]; [now left|].
        right. exists r. split; [now left|now symmetry].
      * right. exists r0. split; [now right|exact Hid].
    + intros H. destruct (Hr H) as [H0|H0]; [now left|].
      right. exists r. split; [now left|now symmetry].
Qed.

Lemma checkRunningBots_heals_all (w : World) :
  db_healthy w ->
  let w1 := fst (run checkRunningBots w) in
  forall r, In r (bots w1) -> bot_status r = "running" ->
            JsMap.has (bot_id r) (runningBots w1) = true.
Proof.
  intros Hw. cbv zeta. rewrite run_checkRunningBots.
  rewrite (Hw (db_calls w)) by lia.
  pose proof (heal_bots_heals (sql_select_bots "running" (bots w))
                (next_db_call w) (db_healthy_next w Hw)) as Hheal.
  pose proof (heal_bots_rows (sql_select_bots "running" (bots w))
                (next_db_call w)) as Hrows.
  destruct (run (for_of _ heal_bot) (next_db_call w)) as [w1 o].
  cbn [fst] in *. destruct Hheal as (_ & Hall & _).
  intros r Hr Hs. destruct (Hrows r Hr) as [H0|(r0 & Hin & Hid)].
  - apply Hall. apply In_sql_select_bots. auto.
  - rewrite <- Hid. now apply Hall.
Qed.

Lemma checkActiveWebsites_heals_all (w : World) :
  db_healthy w ->
  let w1 := fst (run checkActiveWebsites w) in
  forall r, In r (websites w1) -> website_status r = "active" ->
            JsMap.has (website_id r) (deployedWebsites w1) = true.
Proof.
  intros Hw. cbv zeta. rewrite run_checkActiveWebsites.
  rewrite (Hw (db_calls w)) by lia.
  pose proof (heal_websites_heals (sql_select_websites "active" (websites w))
                (next_db_call w) (db_healthy_next w Hw)) as Hheal.
  pose proof (heal_websites_rows (sql_select_websites "active" (websites w))
                (next_db_call w)) as Hrows.
  destruct (run (for_of _ heal_website) (next_db_call w)) as [w1 o].
  cbn [fst] in *. destruct Hheal as (_ & Hall & _).
  intros r Hr Hs. destruct (Hrows r Hr) as [H0|(r0 & Hin & Hid)].
  - apply Hall. apply In_sql_select_websites. auto.
  - rewrite <- Hid. now apply Hall.
Qed.

Lemma status_check_heals_all (w : World) :
  db_healthy w ->
  nothing_missing (fst (run_detached cron_deployment_status_check w)).
Proof.
  intros Hw. unfold cron_deployment_status_check. cbn [run_detached].
  pose proof (checkRunningBots_heals_all w Hw) as Hb.
  destruct (checkRunningBots_keeps w) as (_ & _ & _ & F & C).
  destruct (run checkRunningBots w) as [w1 o1]. cbn [fst] in *.
  pose proof (checkActiveWebsites_heals_all w1 (db_healthy_later _ _ F C Hw))
    as Hs.
  destruct (checkActiveWebsites_keeps w1) as (_ & R & B).
  destruct (run checkActiveWebsites w1) as [w2 o2]. cbn [fst] in *.
  split; [|exact Hs]. rewrite R, B. exact Hb.
Qed.

(** X14.  One deployment status check with a database that accepts
    every statement leaves nothing for the next one: afterwards every
    running record has a handle and every active record a deployment,
    and a second check right after it changes nothing. *)
Theorem status_check_settles (w : World) :
  db_healthy w ->
  let w1 := fst (run_detached cron_deployment_status_check w) in
  nothing_missing w1
  /\ run_detached cron_deployment_status_check w1
     = (next_db_call (next_db_call w1), [Returned tt; Returned tt]).
Proof.
  intros Hw. cbv zeta. pose proof (status_check_heals_all w Hw) as H.
  split; [exact H|]. now apply status_check_idle_run.
Qed.

Lemma status_check_settles_witness :
  let w := sample_world [] []
             [BotRow 5 "uploads/bots/5.zip" "running" None 0;
              BotRow 6 "uploads/bots/6.zip" "stopped" None 0]
             [WebsiteRow 5 None "uploads/websites/5.zip" "active" 0] [] in
  let w1 := fst (run_detached cron_deployment_status_check w) in
  nothing_missing w1
  /\ run_detached cron_deployment_status_check w1
     = (next_db_call (next_db_call w1), [Returned tt; Returned tt]).
Proof.
  exact (status_check_settles _ (sample_world_healthy _ _ _ _)).
Defined.

(** X15.  A stop whose status write was rejected is undone by the next
    deployment status check: the call returned false with the handle
    deleted and the record still [running], so a check that finds the
    database working starts the bot again. *)
Theorem failed_stop_is_undone (w : World) (id : Z) (r : botRow) :
  JsMap.has id (runningBots w) = true ->
  In r (bots w) -> bot_id r = id -> bot_status r = "running" ->
  db_fault w (db_calls w) = true -> db_healthy (next_db_call w) ->
  let (w1, o) := run (stopBot id) w in
  o = Returned false
  /\ JsMap.has id (runningBots w1) = false
  /\ JsMap.has id (runningBots
                     (fst (run_detached cron_deployment_status_check w1)))
     = true.
Proof.
  intros Hhas Hr Hid Hs Hf Hw. rewrite run_stopBot, Hhas. cbv zeta.
  rewrite Hf. split; [reflexivity|]. split.
  { cbn. apply JsMapFacts.has_delete_eq. }
  set (w1 := next_db_call (unregister_bot id w)).
  assert (db_healthy w1) as Hw1.
  { apply (db_healthy_later (next_db_call w)); auto. }
  unfold cron_deployment_status_check. cbn [run_detached].
  assert (JsMap.has id (runningBots (fst (run checkRunningBots w1))) = true)
    as H1.
  { rewrite run_checkRunningBots. rewrite (Hw1 (db_calls w1)) by lia.
    pose proof (heal_bots_heals (sql_select_bots "running" (bots w1))
                  (next_db_call w1) (db_healthy_next w1 Hw1)) as Hheal.
    destruct (run (for_of _ heal_bot) (next_db_call w1)) as [w2 o2].
    cbn [fst]. destruct Hheal as (_ & Hall & _). rewrite <- Hid.
    apply Hall. apply In_sql_select_bots. auto. }
  destruct (run checkRunningBots w1) as [w2 o2]. cbn [fst] in H1.
  destruct (checkActiveWebsites_keeps w2) as (_ & R & _).
  destruct (run checkActiveWebsites w2) as [w3 o3]. cbn [fst] in *.
  now rewrite R.
Qed.

Lemma failed_stop_is_undone_witness :
  let (w1, o) :=
    run (stopBot 5)
        (sample_world [(5, handle5)] []
           [BotRow 5 "uploads/bots/5.zip" "running" None 0] [] [0%nat]) in
  o = Returned false
  /\ JsMap.has 5 (runningBots w1) = false
  /\ JsMap.has 5 (runningBots
                    (fst (run_detached cron_deployment_status_check w1)))
     = true.
Proof.
  apply (failed_stop_is_undone
           (sample_world [(5, handle5)] []
              [BotRow 5 "uploads/bots/5.zip" "running" None 0] [] [0%nat])
           5 (BotRow 5 "uploads/bots/5.zip" "running" None 0)); auto.
  - now left.
  - intros n Hn. cbn in *. destruct n as [|n]; [lia|reflexivity].
Defined.

(** X16.  A stop whose status write was accepted is final: with a
    database that accepts every statement, the deployment status check
    that follows [stopBot] does not start the bot again. *)
Theorem accepted_stop_is_final (w : World) (id : Z) :
  JsMap.has id (runningBots w) = true -> db_healthy w ->
  let (w1, o) := run (stopBot id) w in
  o = Returned true
  /\ JsMap.has id (runningBots
                     (fst (run_detached cron_deployment_status_check w1)))
     = false.
Proof.
  intros Hhas Hw. rewrite run_stopBot, Hhas. cbv zeta.
  rewrite (Hw (db_calls w)) by lia. split; [reflexivity|].
  set (w1 := write_bot_status "stopped" id (unregister_bot id w)).
  assert (db_healthy w1) as Hw1.
  { apply (db_healthy_later w); auto. cbn. lia. }
  assert (JsMap.has id (runningBots w1) = false) as Hno.
  { cbn. apply JsMapFacts.has_delete_eq. }
  assert (forall r, In r (bots w1) -> bot_id r = id -> bot_status r = "stopped")
    as Hst.
  { intros r Hr. pose proof (sql_update_bot_status "stopped" id (clock w)
                                (bots w)) as H.
    rewrite Forall_forall in H. apply H. now apply list_elem_of_In. }
  unfold cron_deployment_status_check. cbn [run_detached].
  assert (JsMap.has id (runningBots (fst (run checkRunningBots w1))) = false)
    as H1.
  { rewrite run_checkRunningBots. rewrite (Hw1 (db_calls w1)) by lia.
    pose proof (heal_bots_heals (sql_select_bots "running" (bots w1))
                  (next_db_call w1) (db_healthy_next w1 Hw1)) as Hheal.
    destruct (run (for_of _ heal_bot) (next_db_call w1)) as [w2 o2].
    cbn [fst]. destruct Hheal as (_ & _ & Honly).
    destruct (JsMap.has id (runningBots w2)) eqn:E; [|reflexivity].
    destruct (Honly id E) as [H0|(r & Hr & Hid)].
    - cbn [runningBots next_db_call] in H0. congruence.
    - apply In_sql_select_bots in Hr as [Hr Hs].
      rewrite (Hst r Hr Hid) in Hs. discriminate. }
  destruct (run checkRunningBots w1) as [w2 o2]. cbn [fst] in H1.
  destruct (checkActiveWebsites_keeps w2) as (_ & R & _).
  destruct (run checkActiveWebsites w2) as [w3 o3]. cbn [fst] in *.
  now rewrite R.
Qed.

Lemma accepted_stop_is_final_witness :
  let (w1, o) :=
    run (stopBot 5)
        (sample_world [(5, handle5)] []
           [BotRow 5 "uploads/bots/5.zip" "running" None 0;
            BotRow 6 "uploads/bots/6.zip" "running" None 0] [] []) in
  o = Returned true
  /\ JsMap.has 5 (runningBots
                    (fst (run_detached cron_deployment_status_check w1)))
     = false.
Proof.
  apply (accepted_stop_is_final
           (sample_world [(5, handle5)] []
              [BotRow 5 "uploads/bots/5.zip" "running" None 0;
               BotRow 6 "uploads/bots/6.zip" "running" None 0] [] []) 5).
  - reflexivity.
  - apply sample_world_healthy.
Defined.

(** X17.  An undeployment is final exactly when its status write was
    accepted.  After [undeployWebsite] on a deployed website whose record
    is [active], the deployment status check that follows, with a
    database that accepts every later statement, deploys the website
    again when the status write of the undeployment was rejected, and
    leaves it undeployed when the write was accepted. *)
Theorem undeploy_then_status_check (w : World) (id : Z) (r : websiteRow) :
  JsMap.has id (deployedWebsites w) = true ->
  In r (websites w) -> website_id r = id -> website_status r = "active" ->
  db_healthy (next_db_call w) ->
  let (w1, o) := run (undeployWebsite id) w in
  let w2 := fst (run_detached cron_deployment_status_check w1) in
  JsMap.has id (deployedWebsites w1) = false
  /\ (db_fault w (db_calls w) = true ->
      o = Returned false /\ JsMap.has id (deployedWebsites w2) = true)
  /\ (db_fault w (db_calls w) = false ->
      o = Returned true /\ JsMap.has id (deployedWebsites w2) = false).
Proof.
  intros Hhas Hr Hid Hs Hw. pose proof (run_undeployWebsite id w) as Hrun.
  rewrite Hhas in Hrun. cbv zeta in Hrun.
  destruct (run (undeployWebsite id) w) as [w1 o]. cbv zeta.
  assert (JsMap.has id (deployedWebsites w1) = false
          /\ db_fault w1 = db_fault w /\ db_calls w1 = S (db_calls w)
          /\ (db_fault w (db_calls w) = true ->
              o = Returned false /\ websites w1 = websites w)
          /\ (db_fault w (db_calls w) = false ->
              o = Returned true
              /\ websites w1
                 = sql_update_website "inactive" id (clock w) (websites w)))
    as (Hno & F & C & Hfail & Hok).
  { destruct (db_fault w (db_calls w)); injection Hrun as -> ->;
      unfold write_website_status, unregister_website;
      cbn [deployedWebsites websites db_fault db_calls clock next_db_call
           with_websites with_deployedWebsites];
      rewrite JsMapFacts.has_delete_eq; repeat split; auto; discriminate. }
  split; [exact Hno|].
  assert (db_healthy w1) as Hw1.
  { apply (db_healthy_later (next_db_call w)); auto. cbn. lia. }
  unfold cron_deployment_status_check. cbn [run_detached].
  destruct (checkRunningBots_keeps w1) as (_ & D & W & F2 & C2).
  destruct (run checkRunningBots w1) as [w2 o2]. cbn [fst] in *.
  assert (db_healthy w2) as Hw2 by exact (db_healthy_later _ _ F2 C2 Hw1).
  rewrite run_checkActiveWebsites. rewrite (Hw2 (db_calls w2)) by lia.
  pose proof (heal_websites_heals (sql_select_websites "active" (websites w2))
                (next_db_call w2) (db_healthy_next w2 Hw2)) as Hheal.
  destruct (run (for_of _ heal_website) (next_db_call w2)) as [w3 o3].
  cbn [fst]. destruct Hheal as (_ & Hall & Honly). split.
  - intros Hf. destruct (Hfail Hf) as [-> Hrows]. split; [reflexivity|].
    rewrite <- Hid. apply Hall. apply In_sql_select_websites.
    rewrite W, Hrows. auto.
  - intros Hf. destruct (Hok Hf) as [-> Hrows]. split; [reflexivity|].
    destruct (JsMap.has id (deployedWebsites w3)) eqn:E; [|reflexivity].
    destruct (Honly id E) as [H0|(r0 & Hr0 & Hid0)].
    + cbn [deployedWebsites next_db_call] in H0. congruence.
    + apply In_sql_select_websites in Hr0 as [Hr0 Hs0].
      rewrite W, Hrows in Hr0.
      pose proof (sql_update_website_status "inactive" id (clock w)
                    (websites w)) as H.
      rewrite Forall_forall in H.
      rewrite (H r0 (proj2 (list_elem_of_In _ _) Hr0) Hid0) in Hs0.
      discriminate.
Qed.

Lemma undeploy_then_status_check_witness :
  (let (w1, o) :=
     run (undeployWebsite 5)
         (sample_world [] [(5, deployed5)] []
            [WebsiteRow 5 None "uploads/websites/5.zip" "active" 0] [0%nat]) in
   o = Returned false
   /\ JsMap.has 5 (deployedWebsites
                     (fst (run_detached cron_deployment_status_check w1)))
      = true)
  /\ (let (w1, o) :=
        run (undeployWebsite 5)
            (sample_world [] [(5, deployed5)] []
               [WebsiteRow 5 None "uploads/websites/5.zip" "active" 0] []) in
      o = Returned true
      /\ JsMap.has 5 (deployedWebsites
                        (fst (run_detached cron_deployment_status_check w1)))
         = false).
Proof.
  split.
  - pose proof (undeploy_then_status_check
                  (sample_world [] [(5, deployed5)] []
                     [WebsiteRow 5 None "uploads/websites/5.zip" "active" 0]
                     [0%nat])
                  5 (WebsiteRow 5 None "uploads/websites/5.zip" "active" 0)
                  eq_refl (or_introl eq_refl) eq_refl eq_refl) as H.
    destruct (run (undeployWebsite 5) _) as [w1 o].
    destruct H as (_ & H & _).
    + intros n Hn. cbn in *. destruct n as [|n]; [lia|reflexivity].
    + apply H. reflexivity.
  - pose proof (undeploy_then_status_check
                  (sample_world [] [(5, deployed5)] []
                     [WebsiteRow 5 None "uploads/websites/5.zip" "active" 0]
                     [])
                  5 (WebsiteRow 5 None "uploads/websites/5.zip" "active" 0)
                  eq_refl (or_introl eq_refl) eq_refl eq_refl) as H.
    destruct (run (undeployWebsite 5) _) as [w1 o].
    destruct H as (_ & _ & H).
    + intros n Hn. reflexivity.
    + apply H. reflexivity.
Defined.

(** ** From one process to the next *)

(** Settling the promises of the [stopBot] calls rewrites no row except
    to [stopped]. *)
Lemma Promise_all_stop_rows (ps : list (progress bool)) (w : World)
    (r : botRow) :
  Forall stop_promise ps ->
  In r (bots (fst (run (Promise_all ps) w))) ->
  In r (bots w) \/ bot_status r = "stopped".
Proof.
  intros H. revert w. induction H as [|p ps Hp Hps IH]; intros w.
  - cbn. auto.
  - cbn [Promise_all]. rewrite run_bind.
    destruct Hp as [->|(id0 & k0 & -> & Hk0)]; cbn [settle].
    + cbn [run]. rewrite run_bind.
      destruct (run_Promise_all_stop ps w Hps) as (w' & bs & Hrun & _).
      specialize (IH w). rewrite Hrun in *. cbn [fst] in *. exact IH.
    + rewrite Hk0. destruct (db_fault w (db_calls w)).
      * rewrite run_bind.
        destruct (run_Promise_all_stop ps (next_db_call w) Hps)
          as (w' & bs & Hrun & _).
        specialize (IH (next_db_call w)). rewrite Hrun in *.
        cbn [fst] in *. exact IH.
      * rewrite run_bind.
        destruct (run_Promise_all_stop ps (write_bot_status "stopped" id0 w)
                    Hps) as (w' & bs & Hrun & _).
        specialize (IH (write_bot_status "stopped" id0 w)).
        rewrite Hrun in *. cbn [fst] in *. intros Hr.
        destruct (IH Hr) as [Hin|Hst]; [|now right].
        cbn in Hin. apply sql_update_bot_In in Hin as [[_ Hin]|(_ & Hst & _)];
          auto.
Qed.

Lemma sigterm_drain (w : World) :
  keyed_by_id (runningBots w) ->
  exists w',
    run on_SIGTERM w = (w', Returned 0)
    /\ runningBots w' = []
    /\ (forall r, In r (bots w') -> In r (bots w) \/ bot_status r = "stopped")
    /\ (db_healthy w ->
        forall r, In r (bots w') -> In (bot_id r) (JsMap.keys (runningBots w)) ->
                  bot_status r = "stopped").
Proof.
  intros Hkeyed. unfold on_SIGTERM, getRunningBots.
  rewrite run_bind, run_ask, run_bind.
  destruct (run_map_call_stopBot (JsMap.values (runningBots w)) w)
    as (w1 & ps & -> & R1 & D1 & W1 & B1 & F1 & C1 & P & Q).
  rewrite run_try_catch, run_bind.
  pose proof (Promise_all_stop_rows ps w1) as Hrows.
  destruct (run_Promise_all_stop ps w1 P)
    as (w' & bs & Hrun & R2 & D2 & W2 & S1 & S2).
  rewrite Hrun in *. cbn [fst] in Hrows.
  cbn [run mret Async_ret]. rewrite keyed_keys in R1, Q by assumption.
  exists w'. split; [reflexivity|]. split; [|split].
  - rewrite R2, R1. apply delete_all_keys. auto.
  - intros r Hr. rewrite <- B1. now apply Hrows.
  - intros Hw r Hr Hin.
    destruct (Q (bot_id r) Hin) as (k & Hk & Hp).
    { now apply JsMapFacts.has_In. }
    assert (db_healthy w1) as Hw1.
    { apply (db_healthy_later w); auto. lia. }
    pose proof (S2 Hw1 (bot_id r) k Hk Hp) as Hs.
    unfold stopped_at in Hs. rewrite Forall_forall in Hs.
    apply Hs; [now apply list_elem_of_In|reflexivity].
Qed.

Lemma boot_without_running_records (w : World) :
  sql_select_bots "running" (bots w) = [] ->
  runningBots (fst (run_detached initializeWorker (reboot w))) = [].
Proof.
  intros Hnone. rewrite run_initializeWorker.
  unfold cron_deployment_status_check. cbn [run_detached].
  assert (runningBots (fst (run checkRunningBots (reboot w))) = []) as H1.
  { rewrite run_checkRunningBots.
    destruct (db_fault (reboot w) (db_calls (reboot w))); [reflexivity|].
    change (bots (reboot w)) with (bots w). now rewrite Hnone. }
  destruct (run checkRunningBots (reboot w)) as [w1 o1]. cbn [fst] in H1.
  destruct (checkActiveWebsites_keeps w1) as (_ & R & _).
  destruct (run checkActiveWebsites w1) as [w2 o2]. cbn [fst] in *.
  now rewrite R.
Qed.

(** X18.  What the next process restores.  After a SIGTERM drain with a
    database that accepts every statement, in a world where every running
    record had a handle, no record is left [running]: the next process
    restores no bot at start-up, whatever its database does.  After
    SIGINT, which stops nothing, the next process restores every bot
    whose record is [running], provided its database accepts every
    statement. *)
Theorem boot_after_shutdown (w : World) :
  keyed_by_id (runningBots w) -> db_healthy w ->
  (forall r, In r (bots w) -> bot_status r = "running" ->
             JsMap.has (bot_id r) (runningBots w) = true) ->
  (let w' := fst (run on_SIGTERM w) in
   sql_select_bots "running" (bots w') = []
   /\ runningBots (fst (run_detached initializeWorker (reboot w'))) = [])
  /\ (let w' := fst (run on_SIGINT w) in
      forall r, In r (bots w) -> bot_status r = "running" ->
                JsMap.has (bot_id r)
                  (runningBots (fst (run_detached initializeWorker (reboot w'))))
                = true).
Proof.
  intros Hkeyed Hw Hall. split.
  - cbv zeta.
    destruct (sigterm_drain w Hkeyed) as (w' & -> & _ & Hrows & Hstopped).
    cbn [fst].
    assert (sql_select_bots "running" (bots w') = []) as Hnone.
    { destruct (sql_select_bots "running" (bots w')) as [|r l] eqn:E;
        [reflexivity|]. exfalso.
      assert (In r (sql_select_bots "running" (bots w'))) as Hr
        by (rewrite E; now left).
      apply In_sql_select_bots in Hr as [Hr Hs].
      destruct (Hrows r Hr) as [Hin|Hst]; [|congruence].
      assert (bot_status r = "stopped") as Hst; [|congruence].
      apply (Hstopped Hw r Hr). apply JsMapFacts.has_In. now apply Hall. }
    split; [exact Hnone|]. now apply boot_without_running_records.
  - cbv zeta. rewrite sigint_stops_nothing. cbn [fst].
    intros r Hr Hs. rewrite run_initializeWorker.
    assert (db_healthy (reboot w)) as Hw' by (apply (db_healthy_later w); auto).
    unfold cron_deployment_status_check. cbn [run_detached].
    rewrite run_checkRunningBots.
    rewrite (Hw' (db_calls (reboot w))) by lia.
    pose proof (heal_bots_heals (sql_select_bots "running" (bots (reboot w)))
                  (next_db_call (reboot w)) (db_healthy_next _ Hw')) as Hheal.
    destruct (run (for_of _ heal_bot) (next_db_call (reboot w))) as [w1 o1].
    destruct Hheal as (_ & Hheal & _).
    destruct (checkActiveWebsites_keeps w1) as (_ & R & _).
    destruct (run checkActiveWebsites w1) as [w2 o2]. cbn [fst] in *.
    rewrite R. apply Hheal. apply In_sql_select_bots. auto.
Qed.

Lemma boot_after_shutdown_witness :
  let w := sample_world [(5, handle5); (6, BotProcess 6 20 "running" 77)]
             [(5, deployed5)]
             [BotRow 5 "uploads/bots/5.zip" "running" None 0;
              BotRow 6 "uploads/bots/6.zip" "running" None 0;
              BotRow 7 "uploads/bots/7.zip" "stopped" None 0]
             [site5] [] in
  runningBots
    (fst (run_detached initializeWorker (reboot (fst (run on_SIGTERM w))))) = []
  /\ JsMap.has 6
       (runningBots
          (fst (run_detached initializeWorker (reboot (fst (run on_SIGINT w))))))
     = true.
Proof.
  destruct (boot_after_shutdown
              (sample_world [(5, handle5); (6, BotProcess 6 20 "running" 77)]
                 [(5, deployed5)]
                 [BotRow 5 "uploads/bots/5.zip" "running" None 0;
                  BotRow 6 "uploads/bots/6.zip" "running" None 0;
                  BotRow 7 "uploads/bots/7.zip" "stopped" None 0]
                 [site5] [])) as [[_ H1] H2].
  - repeat constructor.
  - apply sample_world_healthy.
  - cbn. intros r [<-|[<-|[<-|[]]]]; try reflexivity. discriminate.
  - split; [exact H1|].
    apply (H2 (BotRow 6 "uploads/bots/6.zip" "running" None 0));
      [cbn; auto|reflexivity].
Defined.

(** ** Stops in flight together *)

Lemma shrinks_refl (w : World) : shrinks w w.
Proof. intros k h H. exact H. Qed.

Lemma shrinks_trans (w1 w2 w3 : World) :
  shrinks w1 w2 -> shrinks w2 w3 -> shrinks w1 w3.
Proof. intros H1 H2 k h H. apply H1, H2, H. Qed.

Lemma shrinks_absent (w w' : World) (id : Z) :
  shrinks w w' -> JsMap.has id (runningBots w) = false ->
  JsMap.has id (runningBots w') = false.
Proof.
  intros H Hno. destruct (JsMap.has id (runningBots w')) eqn:E; [|reflexivity].
  apply has_of_get in E as [h Hh]. apply H in Hh.
  rewrite JsMapFacts.has_get, Hh in Hno. discriminate.
Qed.

Lemma stopBot_shrinks (id : Z) : confined shrinks (stopBot id).
Proof.
  apply confined_stopBot.
  - exact shrinks_refl.
  - exact shrinks_trans.
  - intros w k h H. exact H.
  - intros w status id0 k h H. exact H.
  - intros w id0 k h H. cbn [runningBots with_runningBots] in H.
    destruct (Z.eq_dec id0 k) as [->|Hne].
    + rewrite JsMapFacts.get_delete_eq in H. discriminate.
    + now rewrite JsMapFacts.get_delete_ne in H.
Qed.

(** X19.  Two [stopBot] calls on one id in flight together: the second
    returns false in its first turn, before the first has written
    anything, and however the pending call is resumed no handle for the
    id is left and the handles of the other ids are what they were. *)
Theorem stops_in_flight (w : World) (id : Z) (schedule : list nat) :
  let (w', pool) :=
    interleave (Call (stopBot id) :: Call (stopBot id) :: (Resume <$> schedule))
               w in
  pool !! 1%nat = Some (Finished (Returned false))
  /\ JsMap.has id (runningBots w') = false
  /\ (forall k, k <> id ->
                JsMap.get k (runningBots w') = JsMap.get k (runningBots w)).
Proof.
  set (calls := Call (stopBot id) :: Call (stopBot id) :: (Resume <$> schedule)).
  assert (same_elsewhere id w (fst (interleave calls w))) as Helse.
  { unfold interleave.
    apply (fold_step_confined (same_elsewhere id) (same_elsewhere_refl id)
             (same_elsewhere_trans id) calls w []); [|constructor].
    unfold calls. constructor; [apply stopBot_elsewhere|].
    constructor; [apply stopBot_elsewhere|]. apply resumes_confined. }
  assert (snd (interleave calls w) !! 1%nat = Some (Finished (Returned false))
          /\ JsMap.has id (runningBots (fst (interleave calls w))) = false)
    as Hstop.
  { unfold interleave, calls. cbn [fold_left step app].
    destruct (segment_confined shrinks shrinks_refl shrinks_trans
                (stopBot id) w (stopBot_shrinks id)) as [_ Hk].
    destruct (segment_stopBot id w) as [[Hno E]|[Hyes (k & E & _)]];
      rewrite E in *; cbn [snd confined_promise] in Hk;
      cbn [fold_left step app].
    - destruct (segment_stopBot id w) as [[_ ->]|[Hyes _]]; [|congruence].
      cbn [app].
      pose proof (fold_step_settled (Resume <$> schedule) w
                    [Finished (Returned false); Finished (Returned false)]
                    1 (Returned false) eq_refl) as Hsettled.
      destruct (fold_step_confined shrinks shrinks_refl shrinks_trans
                  (Resume <$> schedule) w
                  [Finished (Returned false); Finished (Returned false)]
                  (resumes_confined _ _)) as [Hreg _].
      { repeat constructor. }
      split; [exact Hsettled|]. exact (shrinks_absent _ _ id Hreg Hno).
    - assert (JsMap.has id (runningBots (unregister_bot id w)) = false) as Hno.
      { cbn. apply JsMapFacts.has_delete_eq. }
      destruct (segment_stopBot id (unregister_bot id w))
        as [[_ ->]|[Hyes' _]]; [|congruence].
      cbn [app].
      pose proof (fold_step_settled (Resume <$> schedule) (unregister_bot id w)
                    [Suspended k; Finished (Returned false)]
                    1 (Returned false) eq_refl) as Hsettled.
      destruct (fold_step_confined shrinks shrinks_refl shrinks_trans
                  (Resume <$> schedule) (unregister_bot id w)
                  [Suspended k; Finished (Returned false)]
                  (resumes_confined _ _)) as [Hreg _].
      { repeat constructor. exact Hk. }
      split; [exact Hsettled|]. exact (shrinks_absent _ _ id Hreg Hno). }
  destruct (interleave calls w) as [w' pool]. cbn [fst snd] in *.
  destruct Hstop as [H1 H2]. split; [exact H1|]. split; [exact H2|].
  exact Helse.
Qed.

(** ** The backup task on any directory *)

Module BackupAnyDirectory.
Import Backup BackupNames BackupOrder BackupRun.

(** X20.  The backup task never throws.  When the database file cannot
    be copied the error is swallowed: the [backups] directory exists
    afterwards, created if need be, and its entries are what they were,
    nothing is added and nothing deleted. *)
Theorem backup_failure_is_swallowed (now : Date) (fs : FileSystem) :
  snd (cron_backup now fs) = Returned tt
  /\ (database_exists fs = false ->
      cron_backup now fs
      = (mkFS false true (backups fs) (listing fs), Returned tt)).
Proof.
  split.
  - unfold cron_backup, try_catch.
    match goal with
    | |- snd (match ?m with _ => _ end) = _ => destruct m as [fs' [[]|e]]
    end; reflexivity.
  - destruct fs as [db be dir lst]. cbn [database_exists]. intros ->.
    unfold cron_backup, try_catch, mbind, Sync_bind.
    unfold existsSync_backups, mkdirSync_backups, copyFileSync_database.
    destruct be; reflexivity.
Qed.

Lemma backup_failure_is_swallowed_witness :
  cron_backup sample_now (mkFS false false [] (fun l => l))
  = (mkFS false true [] (fun l => l), Returned tt).
Proof.
  destruct (backup_failure_is_swallowed sample_now
              (mkFS false false [] (fun l => l))) as [_ H].
  exact (H eq_refl).
Defined.



(** X22.  File names follow time: for two dates with a four-digit year
    the names of their snapshots compare, in the order [sort()] uses,
    as the dates do, so [sort()] puts snapshots in the order they were
    taken, and two snapshots have the same name only when taken in the
    same millisecond. *)
Theorem backup_names_follow_time (a b : Date) :
  valid a -> valid b ->
  String.compare (backup_name a) (backup_name b) = Date_compare a b
  /\ (string_le (backup_name a) (backup_name b) <-> ~ earlier b a)
  /\ (backup_name a = backup_name b <-> a = b).
Proof.
  intros Ha Hb. pose proof (compare_backup_name a b Ha Hb) as Hc.
  split; [exact Hc|]. split.
  - unfold string_le, earlier. rewrite leb_compare, Hc.
    rewrite (Date_compare_antisym a b Ha Hb).
    destruct (Date_compare a b); cbn; split; congruence.
  - split; [now apply backup_name_inj|]. now intros ->.
Qed.

Lemma backup_names_follow_time_witness :
  String.compare (backup_name (mkDate 2024 9 30 4 0 0 1))
                 (backup_name (mkDate 2024 10 1 4 0 0 0)) = Lt.
Proof.
  destruct (backup_names_follow_time (mkDate 2024 9 30 4 0 0 1)
              (mkDate 2024 10 1 4 0 0 0)) as [H _].
  - unfold valid. cbn. lia.
  - unfold valid. cbn. lia.
  - exact H.
Defined.

End BackupAnyDirectory.
